(** * Frechet-distance scoring pipeline of [mnist_fid.py]

    A shallow embedding of [src/src-torch1.6/mnist_fid.py]: the batch
    activation collector ([get_activations]), the moment estimator
    ([calculate_activation_statistics]), the distance calculator
    ([calculate_frechet_distance]), the reference statistics file handled by
    [MNISTModel.__init__], and the two scoring loops ([data_generator_fid],
    [imputer_fid]).

    The program computes on numpy [float64] arrays.  The embedding is generic
    in the scalar type (class [Scalar]) and comes with two instances:
    [float64], IEEE binary64 as the kernel's primitive floats, which is what
    the program runs on, and [exact], the canonical rationals [Qc], which is
    the same program with every rounding removed.  External collaborators
    (the classifier, the generator, the imputer, [scipy.linalg.sqrtm], the
    random draws, the content of freshly allocated memory) are parameters. *)

From Stdlib Require Import List ZArith Lia Bool Ascii String.
From Stdlib Require Import Floats.
From Stdlib Require Import QArith Qcanon Field.
From stdpp Require Import gmap strings.
Import ListNotations.

Set Implicit Arguments.
Set Warnings "-inexact-float".

Local Open Scope string_scope.
Local Open Scope list_scope.

(** ** Python exceptions and results *)

(** The exceptions the modelled code can end with.  [ImaginaryComponent m]
    is [ValueError(f'Imaginary component {m}')] of line 113; the others keep
    the message or key only. *)
Inductive exn (F : Type) : Type :=
| AssertionError (msg : string)
| ValueError (msg : string)
| ImaginaryComponent (m : F)
| RuntimeError (msg : string)
| ZeroDivisionError (msg : string)
| TypeError (msg : string)
| IndexError (msg : string)
| KeyError (key : string)
| FileNotFoundError (path : string).

Arguments AssertionError {F} msg.
Arguments ValueError {F} msg.
Arguments ImaginaryComponent {F} m.
Arguments RuntimeError {F} msg.
Arguments ZeroDivisionError {F} msg.
Arguments TypeError {F} msg.
Arguments IndexError {F} msg.
Arguments KeyError {F} key.
Arguments FileNotFoundError {F} path.

(** A call either returns a value or raises. *)
Inductive result (F A : Type) : Type :=
| Ok (a : A)
| Raise (e : exn F).

Arguments Ok {F A} a.
Arguments Raise {F A} e.

Definition rbind {F A B : Type} (c : result F A) (k : A -> result F B) : result F B :=
  match c with
  | Ok a => k a
  | Raise e => Raise e
  end.

Definition rmap {F A B : Type} (f : A -> B) (c : result F A) : result F B :=
  rbind c (fun a => Ok (f a)).

Declare Scope py_scope.
Delimit Scope py_scope with py.
Notation "'let*' x ':=' c 'in' k" := (rbind c (fun x => k))
  (at level 10, x name, c at level 100, k at level 200, only parsing) : py_scope.

(** ** Scalars *)

(** The operations the program applies to array entries. *)
Class Scalar (F : Type) : Type := {
  f0 : F;
  f1 : F;
  fadd : F -> F -> F;
  fsub : F -> F -> F;
  fmul : F -> F -> F;
  fdiv : F -> F -> F;
  fabs : F -> F;
  (** [x <= y] *)
  fleb : F -> F -> bool;
  (** [x == y] *)
  feqb : F -> F -> bool;
  (** [np.maximum] *)
  fmax : F -> F -> F;
  (** [np.isfinite] *)
  fisfinite : F -> bool;
  (** conversion of a Python [int] *)
  of_Z : Z -> F;
  (** the literal [1e-3] of line 111 *)
  f_atol : F;
  (** the literal [1e-6], the default [eps] of line 65 *)
  f_eps : F
}.

(** [x < y] as the negation of [y <= x] is wrong on NaN, so it is spelled
    with both comparisons: [x <= y] and not [x == y]. *)
Definition fltb {F} `{Scalar F} (x y : F) : bool := fleb x y && negb (feqb x y).

(** *** IEEE binary64 *)

Definition float_isfinite (x : float) : bool :=
  negb (PrimFloat.is_nan x || PrimFloat.is_infinity x).

(** [np.maximum] propagates NaN. *)
Definition float_max (x y : float) : float :=
  if PrimFloat.is_nan x then x
  else if PrimFloat.is_nan y then y
  else if PrimFloat.leb x y then y else x.

(** Exact below [2^53], which covers every count the program converts. *)
Definition float_of_Z (z : Z) : float :=
  if (z <? 0)%Z
  then PrimFloat.opp (PrimFloat.of_uint63 (Uint63.of_Z (- z)))
  else PrimFloat.of_uint63 (Uint63.of_Z z).

#[export] Instance float64 : Scalar float := {|
  f0 := 0%float;
  f1 := 1%float;
  fadd := PrimFloat.add;
  fsub := PrimFloat.sub;
  fmul := PrimFloat.mul;
  fdiv := PrimFloat.div;
  fabs := PrimFloat.abs;
  fleb := PrimFloat.leb;
  feqb := PrimFloat.eqb;
  fmax := float_max;
  fisfinite := float_isfinite;
  of_Z := float_of_Z;
  f_atol := 1e-3%float;
  f_eps := 1e-6%float
|}.

(** *** Exact rationals *)

Definition Qc_leb (x y : Qc) : bool := Qle_bool x y.
Definition Qc_eqb (x y : Qc) : bool := Qeq_bool x y.
Definition Qc_abs (x : Qc) : Qc := if Qc_leb 0%Qc x then x else Qcopp x.
Definition Qc_max (x y : Qc) : Qc := if Qc_leb x y then y else x.

#[export] Instance exact : Scalar Qc := {|
  f0 := 0%Qc;
  f1 := 1%Qc;
  fadd := Qcplus;
  fsub := Qcminus;
  fmul := Qcmult;
  fdiv := Qcdiv;
  fabs := Qc_abs;
  fleb := Qc_leb;
  feqb := Qc_eqb;
  fmax := Qc_max;
  fisfinite := fun _ => true;
  of_Z := fun z => Q2Qc (inject_Z z);
  f_atol := Q2Qc (1 # 1000);
  f_eps := Q2Qc (1 # 1000000)
|}.

(** ** numpy arrays *)

Section Numpy.
Context {F : Type} {SF : Scalar F}.

(** A 1-D array and a 2-D array (a list of rows, all of one length).  A list
    of rows records the width of an array through its rows, so an array of
    no rows is taken to have no columns either; the moment estimator below
    is meant for arrays of at least one row. *)
Definition vector : Type := list F.
Definition matrix : Type := list (list F).

(** What [scipy.linalg.sqrtm] hands back: an array of real [dtype], or one of
    complex [dtype] whose entries are (real, imaginary) pairs.
    [np.iscomplexobj] tells them apart by the [dtype], not by the values. *)
Inductive ndarray : Type :=
| RealArr (a : matrix)
| ComplexArr (a : list (list (F * F))).

Definition nrows {A} (M : list (list A)) : nat := length M.
Definition ncols {A} (M : list (list A)) : nat := length (hd [] M).

(** [M.shape == (r, c)] *)
Definition has_shape {A} (r c : nat) (M : list (list A)) : Prop :=
  length M = r /\ Forall (fun row => length row = c) M.

Definition entry (M : matrix) (i j : nat) : F := nth j (nth i M []) f0.

(** Column [j] and the transpose of a list of rows, [d] standing for an
    entry that a short row lacks (an array has none). *)
Definition col_of {A} (d : A) (j : nat) (M : list (list A)) : list A :=
  map (fun row => nth j row d) M.
Definition transpose_of {A} (d : A) (M : list (list A)) : list (list A) :=
  map (fun j => col_of d j M) (seq 0 (ncols M)).

Definition col (j : nat) (M : matrix) : vector := col_of f0 j M.

(** [M.T] *)
Definition transpose (M : matrix) : matrix := transpose_of f0 M.

(** [a.T] for either [dtype]. *)
Definition nd_transpose (a : ndarray) : ndarray :=
  match a with
  | RealArr R => RealArr (transpose R)
  | ComplexArr C => ComplexArr (transpose_of (f0, f0) C)
  end.

(** [a.shape == (r, c)] for either [dtype]. *)
Definition nd_has_shape (r c : nat) (a : ndarray) : Prop :=
  match a with
  | RealArr R => has_shape r c R
  | ComplexArr C => has_shape r c C
  end.

(** [np.sum] of a 1-D array: left to right from the first entry.  (numpy
    adds long arrays pairwise; in exact arithmetic the order is immaterial,
    and the binary64 examples below add fewer than eight entries, which
    numpy adds in this order.) *)
Definition np_sum (v : vector) : F :=
  match v with
  | [] => f0
  | x :: xs => fold_left fadd xs x
  end.

(** [x.dot(y)] on 1-D arrays: products accumulated left to right from zero.
    (numpy hands the products of [float64] arrays to BLAS, which fixes
    neither the order of the additions nor whether a product is rounded
    before it is added; in exact arithmetic neither matters.) *)
Definition vdot (x y : vector) : F :=
  fold_left (fun acc p => fadd acc (fmul (fst p) (snd p))) (combine x y) f0.

(** [x - y] on 1-D arrays of one shape. *)
Definition vsub (x y : vector) : vector :=
  map (fun p => fsub (fst p) (snd p)) (combine x y).

(** The matrix product: rows of [A] against columns of [B]. *)
Definition matmul (A B : matrix) : matrix :=
  map (fun row => map (fun j => vdot row (col j B)) (seq 0 (ncols B))) A.

(** [A.dot(B)] on 2-D arrays; numpy raises when the inner dimensions differ. *)
Definition np_dot (A B : matrix) : result F matrix :=
  if Nat.eqb (ncols A) (nrows B)
  then Ok (matmul A B)
  else Raise (ValueError "shapes not aligned").

(** [np.eye(n)] *)
Definition np_eye (n : nat) : matrix :=
  map (fun i => map (fun j => if Nat.eqb i j then f1 else f0) (seq 0 n)) (seq 0 n).

(** [M * c] *)
Definition mscale (M : matrix) (c : F) : matrix := map (map (fun x => fmul x c)) M.

(** [A + B] on 2-D arrays of one shape. *)
Definition madd (A B : matrix) : matrix :=
  map (fun p => map (fun q => fadd (fst q) (snd q)) (combine (fst p) (snd p)))
      (combine A B).

(** [np.diagonal(M)] and [np.trace(M)] *)
Definition np_diagonal (M : matrix) : vector :=
  map (fun i => entry M i i) (seq 0 (Nat.min (nrows M) (ncols M))).

Definition np_trace (M : matrix) : F := np_sum (np_diagonal M).

(** [a.real] and [a.imag] of a complex array. *)
Definition creal (a : list (list (F * F))) : matrix := map (map fst) a.
Definition cimag (a : list (list (F * F))) : matrix := map (map snd) a.

(** [np.isfinite(a).all()]: a complex entry is finite when both parts are. *)
Definition np_isfinite_all (a : ndarray) : bool :=
  match a with
  | RealArr R => forallb (forallb fisfinite) R
  | ComplexArr C =>
      forallb (forallb (fun z => fisfinite (fst z) && fisfinite (snd z))) C
  end.

(** One entry of [np.isclose(x, 0, atol=1e-3)]: with the other side [0] the
    relative term [rtol * |0|] vanishes, a non-finite [x] is never close, and
    what is left is [|x| <= 1e-3]. *)
Definition within_atol (x : F) : bool := fisfinite x && fleb (fabs x) f_atol.

(** [np.allclose(v, 0, atol=1e-3)] *)
Definition np_allclose_zero (v : vector) : bool := forallb within_atol v.

(** [np.max] over all entries, in storage order; numpy raises on an empty
    array. *)
Definition np_max (v : vector) : result F F :=
  match v with
  | [] => Raise (ValueError "zero-size array to reduction operation maximum which has no identity")
  | x :: xs => Ok (fold_left fmax xs x)
  end.

(** [np.abs(M)], flattened in storage order. *)
Definition abs_entries (M : matrix) : vector := map fabs (concat M).

End Numpy.

Arguments vector F : clear implicits.
Arguments matrix F : clear implicits.
Arguments ndarray F : clear implicits.

(** The regularised covariance of line 107: [sigma + np.eye(n) * eps]. *)
Definition regularized {F} {SF : Scalar F} (n : nat) (sigma : matrix F) (eps : F) : matrix F :=
  madd sigma (mscale (np_eye n) eps).

(** ** The distance calculator (lines 65-119) *)

Section Frechet.
Context {F : Type} {SF : Scalar F}.

(** What a call does besides returning: the arrays it hands to
    [linalg.sqrtm], in order, and the message line 105 prints (the message
    is fixed up to the [eps] it quotes). *)
Inductive event : Type :=
| SqrtmCall (a : matrix F)
| Printed (eps : F).

(** A computation that raises or returns, with the events it caused. *)
Definition traced (A : Type) : Type := list event * result F A.

Definition tret {A} (a : A) : traced A := ([], Ok a).
Definition traise {A} (e : exn F) : traced A := ([], Raise e).
Definition tell (ev : event) : traced unit := ([ev], Ok tt).
Definition lift {A} (c : result F A) : traced A := ([], c).

Definition tbind {A B} (c : traced A) (k : A -> traced B) : traced B :=
  match c with
  | (log, Ok a) => let (log', r) := k a in (log ++ log', r)
  | (log, Raise e) => (log, Raise e)
  end.

Declare Scope traced_scope.
Delimit Scope traced_scope with traced.
Notation "'let*' x ':=' c 'in' k" := (tbind c (fun x => k))
  (at level 10, x name, c at level 100, k at level 200, only parsing) : traced_scope.

(** [assert cond, msg] *)
Definition assert_ (cond : bool) (msg : string) : traced unit :=
  if cond then tret tt else traise (AssertionError msg).

(** [scipy.linalg.sqrtm], an external routine: given a 2-D array it raises
    or returns an array of real or complex [dtype]. *)
Variable linalg_sqrtm : matrix F -> result F (ndarray F).

Definition call_sqrtm (a : matrix F) : traced (ndarray F) :=
  (let* _ := tell (SqrtmCall a) in lift (linalg_sqrtm a))%traced.

(** Lines 110-114: a complex square root keeps its real part when its
    diagonal is real up to [1e-3], and is refused otherwise. *)
Definition discard_imaginary (covmean : ndarray F) : result F (matrix F) :=
  match covmean with
  | ComplexArr C =>
      if negb (np_allclose_zero (np_diagonal (cimag C)))
      then (let* m := np_max (abs_entries (cimag C)) in Raise (ImaginaryComponent m))%py
      else Ok (creal C)
  | RealArr R => Ok R
  end.

(** Lines 101-107: the square root of the product, and one more of the
    regularised product when the first has a non-finite entry. *)
Definition stabilized_sqrtm (sigma1 sigma2 : matrix F) (eps : F) : traced (ndarray F) :=
  (let* prod := lift (np_dot sigma1 sigma2) in
   let* covmean := call_sqrtm prod in
   if negb (np_isfinite_all covmean)
   then
     let* _ := tell (Printed eps) in
     let n := nrows sigma1 in
     let* prod' := lift (np_dot (regularized n sigma1 eps) (regularized n sigma2 eps)) in
     call_sqrtm prod'
   else tret covmean)%traced.

(** Lines 116-119, on the real square root [covmean]. *)
Definition frechet_formula (mu1 : vector F) (sigma1 : matrix F)
    (mu2 : vector F) (sigma2 : matrix F) (covmean : matrix F) : F :=
  let diff := vsub mu1 mu2 in
  let tr_covmean := np_trace covmean in
  fsub (fadd (fadd (vdot diff diff) (np_trace sigma1)) (np_trace sigma2))
       (fmul (of_Z 2) tr_covmean).

(** [calculate_frechet_distance(mu1, sigma1, mu2, sigma2, eps)], with the
    arguments already 1-D and 2-D arrays (on those [np.atleast_1d] and
    [np.atleast_2d] of lines 87-91 are the identity). *)
Definition calculate_frechet_distance (mu1 : vector F) (sigma1 : matrix F)
    (mu2 : vector F) (sigma2 : matrix F) (eps : F) : traced F :=
  (let* _ := assert_ (Nat.eqb (length mu1) (length mu2))
          "Training and test mean vectors have different lengths" in
   let* _ := assert_ (Nat.eqb (nrows sigma1) (nrows sigma2)
                 && Nat.eqb (ncols sigma1) (ncols sigma2))
          "Training and test covariances have different dimensions" in
   let* covmean := stabilized_sqrtm sigma1 sigma2 eps in
   let* covmean := lift (discard_imaginary covmean) in
   tret (frechet_formula mu1 sigma1 mu2 sigma2 covmean))%traced.

(** The formula as the specification words it, with no stabilisation:
    [||mu1 - mu2||^2 + trace(sigma1) + trace(sigma2)
     - 2 * trace(sqrtm(sigma1 . sigma2))], a real number when the square root
    is a real array. *)
Definition spec_distance (mu1 : vector F) (sigma1 : matrix F)
    (mu2 : vector F) (sigma2 : matrix F) : option F :=
  match np_dot sigma1 sigma2 with
  | Ok prod =>
      match linalg_sqrtm prod with
      | Ok (RealArr R) => Some (frechet_formula mu1 sigma1 mu2 sigma2 R)
      | _ => None
      end
  | Raise _ => None
  end.

End Frechet.

Arguments event F : clear implicits.

(** The arrays a call handed to [linalg.sqrtm], in order. *)
Definition sqrtm_calls {F} (log : list (event F)) : list (matrix F) :=
  flat_map (fun ev => match ev with SqrtmCall a => [a] | Printed _ => [] end) log.

(** ** The moment estimator (lines 140-146) *)

Section Moments.
Context {F : Type} {SF : Scalar F}.

(** [x * w] on 1-D arrays of one shape. *)
Definition vmul (x w : vector F) : vector F :=
  map (fun p => fmul (fst p) (snd p)) (combine x w).

(** [np.mean(act, axis=0)]: per column, the sum over the rows divided by the
    number of rows. *)
Definition np_mean_axis0 (act : matrix F) : vector F :=
  map (fun column => fdiv (np_sum column) (of_Z (Z.of_nat (nrows act))))
      (transpose act).

(** [np.average(act, axis=0, weights=w)]: numpy checks the length of [w],
    refuses weights that sum to zero, and divides the weighted column sums
    by the sum of the weights. *)
Definition np_average_axis0 (act : matrix F) (w : vector F) : result F (vector F) :=
  if negb (Nat.eqb (length w) (nrows act))
  then Raise (ValueError "Length of weights not compatible with specified axis.")
  else
    let scl := np_sum w in
    if feqb scl f0
    then Raise (ZeroDivisionError "Weights sum to zero, can't be normalized")
    else Ok (map (fun column => fdiv (np_sum (vmul column w)) scl) (transpose act)).

(** The normalisation [fact] of [np.cov] with [ddof = 1]: the number of
    observations less one, or with weights
    [w_sum - ddof * sum(w * w) / w_sum]; a non-positive [fact] becomes
    [0.0]. *)
Definition cov_fact (n_obs : nat) (aweights : option (vector F)) : F :=
  match aweights with
  | None =>
      if (Z.of_nat n_obs - 1 <=? 0)%Z then f0 else of_Z (Z.of_nat n_obs - 1)
  | Some w =>
      let w_sum := np_sum w in
      let fact := fsub w_sum (fdiv (fmul (of_Z 1) (np_sum (vmul w w))) w_sum) in
      if fleb fact f0 then f0 else fact
  end.

(** [np.cov(act, rowvar=False, aweights=...)] as numpy 1.x computes it.
    [X] holds one variable per row: it is [act.T], except that an [act] of a
    single row is left as it is.  An [X] without rows gives an empty result
    before the weights are looked at; then come the checks on the weights,
    the (weighted) average of each row, [fact], and
    [dot(X - avg, ((X - avg) * w).T) * (1 / fact)].  The result is kept
    2-D here: the final [c.squeeze()] only changes the 1x1 result of a
    single variable, into a 0-D array, which [np.atleast_2d] of line 91
    turns back; where the array is stored ([np.savez], line 171) the
    squeeze is applied by [cov_squeeze] below. *)
Definition np_cov_rowvar_false (act : matrix F) (aweights : option (vector F))
    : result F (matrix F) :=
  let X := if Nat.eqb (nrows act) 1 then act else transpose act in
  if Nat.eqb (nrows X) 0 then Ok []
  else
    let n_obs := ncols X in
    (let* avg :=
       match aweights with
       | None =>
           Ok (map (fun row => fdiv (np_sum row) (of_Z (Z.of_nat n_obs))) X)
       | Some w =>
           if negb (Nat.eqb (length w) n_obs)
           then Raise (RuntimeError "incompatible numbers of samples and aweights")
           else if existsb (fun x => fltb x f0) w
           then Raise (ValueError "aweights cannot be negative")
           else if feqb (np_sum w) f0
           then Raise (ZeroDivisionError "Weights sum to zero, can't be normalized")
           else Ok (map (fun row => fdiv (np_sum (vmul row w)) (np_sum w)) X)
       end in
     let fact := cov_fact n_obs aweights in
     let Xc := map (fun p => map (fun x => fsub x (snd p)) (fst p)) (combine X avg) in
     let Xw := match aweights with
               | None => Xc
               | Some w => map (fun row => vmul row w) Xc
               end in
     Ok (map (fun ri => map (fun rj => fmul (vdot ri rj) (fdiv (of_Z 1) fact)) Xw) Xc))%py.

(** Lines 140-146 on the collected activations [act], which is [None] when
    the collector saw no batch: [np.mean(None, axis=0)] and
    [np.average(None, axis=0, ...)] both raise. *)
Definition activation_moments (act : option (matrix F)) (weight : option (vector F))
    : result F (vector F * matrix F) :=
  match act, weight with
  | None, None => Raise (ValueError "axis 0 is out of bounds for array of dimension 0")
  | None, Some _ => Raise (IndexError "tuple index out of range")
  | Some a, None =>
      (let mu := np_mean_axis0 a in
       let* sigma := np_cov_rowvar_false a None in
       Ok (mu, sigma))%py
  | Some a, Some w =>
      (let* mu := np_average_axis0 a w in
       let* sigma := np_cov_rowvar_false a (Some w) in
       Ok (mu, sigma))%py
  end.

End Moments.

(** ** The batch activation collector (lines 23-62) *)

Section Collector.
(** [F] only types the exceptions; [Image] is one sample of a batch and [Row]
    its flattened activation, all rows of one width. *)
Context {F Image Row : Type}.

(** The classifier in inference mode, sample by sample: [feature x] is
    [model.feature[feature_layer]] for the sample [x], flattened. *)
Variable feature : Image -> Row.

(** What freshly allocated memory holds: [uninit i] is row [i] of a new
    [np.empty] array. *)
Variable uninit : nat -> Row.

(** [np.empty((images, width))]; a negative [images] is refused.  Memory is
    not modelled: numpy also raises for an array the machine cannot hold. *)
Definition np_empty (images : Z) : result F (list Row) :=
  if (images <? 0)%Z
  then Raise (ValueError "negative dimensions are not allowed")
  else Ok (map uninit (seq 0 (Z.to_nat images))).

(** [a.reshape(batch_size, -1)] on the activations of a batch: the width
    cannot be inferred for an empty batch, and numpy raises. *)
Definition reshape_rows (batch_size : nat) (a : list Row) : result F (list Row) :=
  if Nat.eqb batch_size 0
  then Raise (ValueError "cannot reshape array of size 0 into shape (0,newaxis)")
  else Ok a.

(** [arr[start:stop] = value] for [0 <= start <= stop]: the slice is clipped
    to the array; [value] must have as many rows as the slice, or one row,
    which is then repeated over the slice. *)
Definition assign_rows (arr : list Row) (start stop : nat) (value : list Row)
    : result F (list Row) :=
  let lo := Nat.min start (length arr) in
  let hi := Nat.min stop (length arr) in
  let k := hi - lo in
  if Nat.eqb (length value) k
  then Ok (firstn lo arr ++ value ++ skipn hi arr)
  else
    match value with
    | [row] => Ok (firstn lo arr ++ repeat row k ++ skipn hi arr)
    | _ => Raise (ValueError "could not broadcast input array")
    end.

(** The loop of lines 43-57 over the batches still to come, with the state
    [pred_arr], [end] it has reached.  The progress line of [verbose] is
    left out: it changes no state. *)
Fixpoint get_activations_loop (images : Z) (batches : list (list Image))
    (pred_arr : option (list Row)) (end_ : nat) : result F (option (list Row)) :=
  match batches with
  | [] => Ok pred_arr
  | batch :: rest =>
      let start := end_ in
      let batch_size := length batch in
      let end' := start + batch_size in
      (let* batch_feature := reshape_rows batch_size (map feature batch) in
       let* arr := match pred_arr with
                   | None => np_empty images
                   | Some a => Ok a
                   end in
       let* arr' := assign_rows arr start end' batch_feature in
       get_activations_loop images rest (Some arr') end')%py
  end.

(** [get_activations(image_generator, images, model)], the generator given
    by the finite list of batches it yields. *)
Definition get_activations (image_generator : list (list Image)) (images : Z)
    : result F (option (list Row)) :=
  get_activations_loop images image_generator None 0.

End Collector.

(** [torch.utils.data.DataLoader(data, batch_size=..., drop_last=...)] without
    shuffling: consecutive batches of [batch_size] samples, and the shorter
    rest as a last batch unless [drop_last]. *)
Fixpoint full_batches {A} (n batch_size : nat) (data : list A) : list (list A) :=
  match n with
  | O => []
  | S n' => firstn batch_size data :: full_batches n' batch_size (skipn batch_size data)
  end.

Definition DataLoader {F A} (data : list A) (batch_size : nat) (drop_last : bool)
    : result F (list (list A)) :=
  if Nat.eqb batch_size 0
  then Raise (ValueError "batch_size should be a positive integer value")
  else
    let full := length data / batch_size in
    let rest := skipn (full * batch_size) data in
    Ok (full_batches full batch_size data
        ++ (if drop_last || Nat.eqb (length rest) 0 then [] else [rest])).

(** ** Statistics of a population (lines 122-146) *)

Section Statistics.
Context {F : Type} {SF : Scalar F} {Image : Type}.
Variable feature : Image -> vector F.
Variable uninit : nat -> vector F.

(** [calculate_activation_statistics(image_generator, images, model,
    weight=...)] *)
Definition calculate_activation_statistics (image_generator : list (list Image))
    (images : Z) (weight : option (vector F)) : result F (vector F * matrix F) :=
  (let* act := get_activations feature uninit image_generator images in
   activation_moments act weight)%py.

End Statistics.

(** ** The reference statistics file (lines 157-174) *)

(** An array stored in an archive: 0-D, 1-D or 2-D. *)
Inductive npy (F : Type) : Type :=
| NpyScalar (x : F)
| NpyVector (v : vector F)
| NpyMatrix (m : matrix F).

Arguments NpyScalar {F} x.
Arguments NpyVector {F} v.
Arguments NpyMatrix {F} m.

(** The array [np.cov] returns for the covariance [c] that
    [np_cov_rowvar_false] keeps 2-D: [c.squeeze()] turns the 1x1 covariance
    of a single variable into a 0-D array and leaves a larger one as it
    is. *)
Definition cov_squeeze {F} (c : matrix F) : npy F :=
  match c with
  | [[x]] => NpyScalar x
  | _ => NpyMatrix c
  end.

(** The [.npz] archives on disk by file name; an archive maps the names of
    its arrays to them. *)
Abbreviation disk F := (gmap string (gmap string (npy F))) (only parsing).

Section ReferenceStatistics.
Context {F : Type} {SF : Scalar F} {Image : Type}.
Variable feature : Image -> vector F.
Variable uninit : nat -> vector F.

(** [f'mnist_act_{feature_layer}.npz'] with [feature_layer = 0] *)
Definition stats_file : string := "mnist_act_0.npz".

(** [np.load(path)] *)
Definition np_load (fs : disk F) (path : string) : result F (gmap string (npy F)) :=
  match fs !! path with
  | Some f => Ok f
  | None => Raise (FileNotFoundError path)
  end.

(** [f[key]] *)
Definition getitem (f : gmap string (npy F)) (key : string) : result F (npy F) :=
  match f !! key with
  | Some a => Ok a
  | None => Raise (KeyError key)
  end.

(** [a[:]]: the whole array again; a 0-D array cannot be indexed. *)
Definition getslice_all (a : npy F) : result F (npy F) :=
  match a with
  | NpyScalar _ => Raise (IndexError "too many indices for array")
  | _ => Ok a
  end.

(** [np.savez(path, mu=m, sigma=s)] *)
Definition np_savez_arrays (fs : disk F) (path : string) (m s : npy F) : disk F :=
  <[path := <["mu" := m]> (<["sigma" := s]> ∅)]> fs.

(** The same for a 1-D [m] and a 2-D [s]. *)
Definition np_savez (fs : disk F) (path : string) (m : vector F) (s : matrix F) : disk F :=
  np_savez_arrays fs path (NpyVector m) (NpyMatrix s).

(** The MNIST training images, which lines 163-165 load. *)
Variable mnist_train : list Image.

(** Lines 163-170: the statistics of the reference population, in batches
    of 64 with the short last batch kept. *)
Definition reference_statistics : result F (vector F * matrix F) :=
  (let* data_loader := DataLoader mnist_train 64 false in
   calculate_activation_statistics feature uninit data_loader
     (Z.of_nat (length mnist_train)) None)%py.

(** Lines 157-174 of [MNISTModel.__init__]: the [.npz] archives on disk
    afterwards, and [self.mnist_stats] or the exception.  Line 160 reads
    [f['mu'][:]] and then [f['sigma'][:]].  Only [FileNotFoundError] is
    caught.  The covariance computed at line 168 is the array [np.cov]
    returned, 0-D for a single variable.  The classifier built and loaded at
    lines 151-155 is the parameter [feature], and the training images are
    [mnist_train]: [datasets.MNIST('data', download=True)] of line 163 may
    also write the data set under [data], which is no [.npz] archive and
    not part of [fs]. *)
Definition MNISTModel_init (fs : disk F) : disk F * result F (npy F * npy F) :=
  match np_load fs stats_file with
  | Ok f =>
      (fs, (let* mu := getitem f "mu" in
            let* m_mnist := getslice_all mu in
            let* sigma := getitem f "sigma" in
            let* s_mnist := getslice_all sigma in
            Ok (m_mnist, s_mnist))%py)
  | Raise (FileNotFoundError _) =>
      match reference_statistics with
      | Ok (m_mnist, s_mnist) =>
          (np_savez_arrays fs stats_file (NpyVector m_mnist) (cov_squeeze s_mnist),
           Ok (NpyVector m_mnist, cov_squeeze s_mnist))
      | Raise e => (fs, Raise e)
      end
  | Raise e => (fs, Raise e)
  end.

End ReferenceStatistics.

(** ** Scoring (lines 176-243) *)

Section Scoring.
Context {F : Type} {SF : Scalar F} {Image Latent Noise Mask Sample : Type}.
Variable feature : Image -> vector F.
Variable uninit : nat -> vector F.
Variable linalg_sqrtm : matrix F -> result F (ndarray F).
Variable mnist_train : list Image.

(** [MNISTModel.get_feature(samples)]: one row per sample, by
    [reshape(samples.shape[0], -1)]. *)
Definition get_feature (samples : list Image) : result F (matrix F) :=
  reshape_rows (length samples) (map feature samples).

(** [np.atleast_2d] on a stored array. *)
Definition atleast_2d (a : npy F) : matrix F :=
  match a with
  | NpyScalar x => [[x]]
  | NpyVector v => [v]
  | NpyMatrix m => m
  end.

(** [np.atleast_1d] on a stored array; a 2-D array stays 2-D, for which
    there is no 1-D array to hand on. *)
Definition atleast_1d (a : npy F) : option (vector F) :=
  match a with
  | NpyScalar x => Some [x]
  | NpyVector v => Some v
  | NpyMatrix _ => None
  end.

(** [MNISTModel.fid(features)]: the moments of the features against
    [self.mnist_stats], with the default [eps].  A stored mean that is 2-D
    has another shape than [mu] and fails the first assertion. *)
Definition fid (mnist_stats : npy F * npy F) (features : option (matrix F))
    : result F F :=
  (let* moments := activation_moments features None in
   match atleast_1d (fst mnist_stats) with
   | Some mu2 =>
       snd (calculate_frechet_distance linalg_sqrtm (fst moments) (snd moments)
              mu2 (atleast_2d (snd mnist_stats)) f_eps)
   | None =>
       Raise (AssertionError "Training and test mean vectors have different lengths")
   end)%py.

(** *** Scoring a generator (lines 187-215) *)

(** [normal_ it j] is row [j] of [data_noise] after its refill number [it];
    the generator maps a batch of latent rows to a batch of images. *)
Variable normal_ : nat -> nat -> Latent.
Variable data_generator : list Latent -> list Image.

(** The variables the [while] loop updates. *)
Record generator_state : Type := {
  gen_count : nat;
  gen_batch_size : nat;
  gen_features : option (matrix F)
}.

(** One pass through the body of the loop (lines 197-210). [noise_rows] is
    the number of rows of [data_noise], the [batch_size] of the call. *)
Definition generator_step (n_samples noise_rows it : nat) (st : generator_state)
    : result F generator_state :=
  let count := gen_count st in
  let batch_size := gen_batch_size st in
  let data_noise := map (normal_ it) (seq 0 noise_rows) in
  let samples := data_generator data_noise in
  (let* batch_feature := get_feature samples in
   let* features := match gen_features st with
                    | None => np_empty uninit (Z.of_nat n_samples)
                    | Some a => Ok a
                    end in
   if Nat.ltb n_samples (count + batch_size)
   then
     let batch_size' := n_samples - count in
     let* features' := assign_rows features count (length features)
                         (firstn batch_size' batch_feature) in
     Ok {| gen_count := count + batch_size';
           gen_batch_size := batch_size';
           gen_features := Some features' |}
   else
     let* features' := assign_rows features count (count + batch_size) batch_feature in
     Ok {| gen_count := count + batch_size;
           gen_batch_size := batch_size;
           gen_features := Some features' |})%py.

(** [while count < n_samples: ...], for at most [fuel] passes; [None] when
    the passes run out before the loop ends. *)
Fixpoint generator_loop (fuel n_samples noise_rows it : nat) (st : generator_state)
    : option (result F generator_state) :=
  if Nat.ltb (gen_count st) n_samples
  then
    match fuel with
    | O => None
    | S fuel' =>
        match generator_step n_samples noise_rows it st with
        | Ok st' => generator_loop fuel' n_samples noise_rows (S it) st'
        | Raise e => Some (Raise e)
        end
    end
  else Some (Ok st).

(** The feature matrix the loop of [data_generator_fid] leaves behind.  Every
    pass that does not raise adds at least one sample when [batch_size] is
    positive, so [n_samples] passes are enough. *)
Definition generator_features (n_samples batch_size : nat)
    : option (result F (option (matrix F))) :=
  option_map (rmap gen_features)
    (generator_loop n_samples n_samples batch_size 0
       {| gen_count := 0; gen_batch_size := batch_size; gen_features := None |}).

(** The rows the generator contributes on pass [it], and over [k] passes
    from pass [it] on: what the loop is meant to accumulate. *)
Definition generated_batch (batch_size it : nat) : matrix F :=
  map feature (data_generator (map (normal_ it) (seq 0 batch_size))).

Fixpoint generated_rows (batch_size it k : nat) : matrix F :=
  match k with
  | O => []
  | S k' => generated_batch batch_size it ++ generated_rows batch_size (S it) k'
  end.

(** The buffer while it is being filled: [n] rows, of which [written] are
    set and [rest] are still to come; before the first pass there is no
    buffer yet, and allocating it gives fresh rows only. *)
Definition holds_rows (n : nat) (features : option (matrix F))
    (written rest : matrix F) : Prop :=
  length written + length rest = n
  /\ match features with
     | None => written = [] /\ rest = map uninit (seq 0 n)
     | Some a => a = written ++ rest
     end.

(** [data_generator_fid(data_generator, n_samples, batch_size)]: the disk
    afterwards and the score or exception; [None] for a call that does not
    return. *)
Definition data_generator_fid (fs : disk F) (n_samples batch_size : nat)
    : disk F * option (result F F) :=
  match MNISTModel_init feature uninit mnist_train fs with
  | (fs', Raise e) => (fs', Some (Raise e))
  | (fs', Ok mnist_stats) =>
      (fs', option_map (fun r => rbind r (fid mnist_stats))
              (generator_features n_samples batch_size))
  end.

(** *** Scoring an imputer (lines 218-243) *)

(** A sample of the masked data set carries an image and its mask;
    [uniform_ it j] is row [j] of [impu_noise] after its refill number [it];
    the imputer maps the images, masks and noise of a batch to images. *)
Variable sample_data : Sample -> Image.
Variable sample_mask : Sample -> Mask.
Variable uniform_ : nat -> nat -> Noise.
Variable imputer : list Image -> list Mask -> list Noise -> list Image.

(** The [for] loop of lines 227-238 over the batches still to come. *)
Fixpoint imputer_loop (n_samples batch_size it : nat) (batches : list (list Sample))
    (start : nat) (features : option (matrix F)) : result F (option (matrix F)) :=
  match batches with
  | [] => Ok features
  | batch :: rest =>
      let real_data := map sample_data batch in
      let real_mask := map sample_mask batch in
      let impu_noise := map (uniform_ it) (seq 0 batch_size) in
      let imputed_data := imputer real_data real_mask impu_noise in
      (let* batch_feature := get_feature imputed_data in
       let* arr := match features with
                   | None => np_empty uninit (Z.of_nat n_samples)
                   | Some a => Ok a
                   end in
       let* arr' := assign_rows arr start (start + batch_size) batch_feature in
       imputer_loop n_samples batch_size (S it) rest (start + batch_size) (Some arr'))%py
  end.

(** The feature matrix the loop of [imputer_fid] leaves behind. *)
Definition imputer_features (data : list Sample) (batch_size : nat)
    : result F (option (matrix F)) :=
  (let* data_loader := DataLoader data batch_size true in
   let n_samples := length data_loader * batch_size in
   imputer_loop n_samples batch_size 0 data_loader 0 None)%py.

(** The rows the imputer contributes for the batches still to come, the
    first of them on pass [it]. *)
Fixpoint imputed_rows (batch_size it : nat) (batches : list (list Sample)) : matrix F :=
  match batches with
  | [] => []
  | batch :: rest =>
      map feature (imputer (map sample_data batch) (map sample_mask batch)
                     (map (uniform_ it) (seq 0 batch_size)))
      ++ imputed_rows batch_size (S it) rest
  end.

(** [imputer_fid(imputer, data, batch_size)]: the disk afterwards and the
    score or exception. *)
Definition imputer_fid (fs : disk F) (data : list Sample) (batch_size : nat)
    : disk F * result F F :=
  match MNISTModel_init feature uninit mnist_train fs with
  | (fs', Raise e) => (fs', Raise e)
  | (fs', Ok mnist_stats) =>
      (fs', (let* features := imputer_features data batch_size in
             fid mnist_stats features)%py)
  end.

End Scoring.
(** ** A stand-in for [scipy.linalg.sqrtm] on small binary64 arrays *)

(** [scipy.linalg.sqrtm] refuses non-finite input, brings the array to
    upper-triangular (Schur) form [T], and solves [R * R = T] column by column:
    [R_ii = sqrt(T_ii)] and [R_ij = (T_ij - s) / (R_ii + R_jj)], with [0] for
    [0 / 0]; when a non-zero numerator meets a zero denominator it gives up
    and answers an array filled with NaN.  A negative diagonal entry makes
    the answer complex.  On a 1x1 array and on an upper-triangular 2x2 array
    with a non-negative diagonal the Schur step changes nothing, and the
    routine is the few lines below; other inputs are outside this stand-in. *)
Definition sqrtm_small (a : matrix float) : result float (ndarray float) :=
  if negb (forallb (forallb float_isfinite) a)
  then Raise (ValueError "array must not contain infs or NaNs")
  else
    match a with
    | [[t]] =>
        if PrimFloat.leb 0 t
        then Ok (RealArr [[PrimFloat.sqrt t]])
        else Ok (ComplexArr [[(0%float, PrimFloat.sqrt (PrimFloat.opp t))]])
    | [[t00; t01]; [t10; t11]] =>
        if PrimFloat.eqb t10 0 && PrimFloat.leb 0 t00 && PrimFloat.leb 0 t11
        then
          let r00 := PrimFloat.sqrt t00 in
          let r11 := PrimFloat.sqrt t11 in
          let denom := PrimFloat.add r00 r11 in
          if negb (PrimFloat.eqb denom 0)
          then Ok (RealArr [[r00; PrimFloat.div t01 denom]; [0%float; r11]])
          else if PrimFloat.eqb t01 0
          then Ok (RealArr [[r00; 0%float]; [0%float; r11]])
          else Ok (RealArr [[nan; nan]; [nan; nan]])
        else Raise (ValueError "input outside the stand-in")
    | _ => Raise (ValueError "input outside the stand-in")
    end.

(** The principal square root of a real number as a complex one:
    [np.sqrt] on the diagonal of [T] once it is complex. *)
Definition csqrt (t : float) : float * float :=
  if PrimFloat.leb 0 t
  then (PrimFloat.sqrt t, 0%float)
  else (0%float, PrimFloat.sqrt (PrimFloat.opp t)).

(** The same routine on upper-triangular 2x2 arrays with a negative
    diagonal entry, where it computes in complex arithmetic and answers a
    complex array.  On a diagonal array the entry off the diagonal is
    [0 / (R_00 + R_11) = 0].  With two negative diagonal entries the
    denominator [R_00 + R_11 = i * d] is purely imaginary, and
    [T_01 / (i * d)] has the imaginary part [- T_01 / d], infinite when the
    quotient overflows.  (The routine then multiplies the answer by the
    Schur vectors, the identity here, which may turn further entries of an
    answer with an infinite entry into NaN; such an answer is complex, has
    a non-finite entry and a diagonal that is not real up to [1e-3] either
    way, and nothing else of it is used below.)  Every other
    input is left to [sqrtm_small]. *)
Definition sqrtm_triangular (a : matrix float) : result float (ndarray float) :=
  if negb (forallb (forallb float_isfinite) a)
  then Raise (ValueError "array must not contain infs or NaNs")
  else
    match a with
    | [[t00; t01]; [t10; t11]] =>
        if PrimFloat.eqb t10 0 && (PrimFloat.ltb t00 0 || PrimFloat.ltb t11 0)
        then
          if PrimFloat.eqb t01 0
          then Ok (ComplexArr [[csqrt t00; (0%float, 0%float)];
                               [(0%float, 0%float); csqrt t11]])
          else if PrimFloat.ltb t00 0 && PrimFloat.ltb t11 0
          then
            let d := PrimFloat.add (PrimFloat.sqrt (PrimFloat.opp t00))
                                   (PrimFloat.sqrt (PrimFloat.opp t11)) in
            Ok (ComplexArr [[csqrt t00; (0%float, PrimFloat.opp (PrimFloat.div t01 d))];
                            [(0%float, 0%float); csqrt t11]])
          else Raise (ValueError "input outside the stand-in")
        else sqrtm_small a
    | _ => sqrtm_small a
    end.

(** ** Small collaborators for the examples *)

(** A classifier with two features per sample, [x] and [x * x]; samples are
    integers. *)
Definition toy_feature (x : Z) : vector float := [float_of_Z x; float_of_Z (x * x)].

(** A classifier with a single feature per sample, [x]. *)
Definition toy_single_feature (x : Z) : vector float := [float_of_Z x].

(** Fresh memory that happens to hold NaN. *)
Definition toy_uninit (i : nat) : vector float := [nan; nan].

(** A disk on which the statistics file was saved for a classifier with
    three features: a mean of length 3 and a 3x3 covariance. *)
Definition stale_disk : disk float :=
  np_savez ∅ stats_file [1%float; 1%float; 1%float]
    [[1%float; 0%float; 0%float]; [0%float; 1%float; 0%float]; [0%float; 0%float; 1%float]].

(** A generator and an imputer that hand back what they are given: latent
    rows and samples are integers, the noise of pass [it], row [j], is
    [10 * it + j], and masks and imputation noise carry nothing. *)
Definition toy_normal (it j : nat) : Z := Z.of_nat (10 * it + j).
Definition toy_generator (z : list Z) : list Z := z.
Definition toy_uniform (it j : nat) : unit := tt.
Definition toy_imputer (real_data : list Z) (real_mask : list unit) (noise : list unit)
    : list Z := real_data.
Definition toy_sample_data (x : Z) : Z := x.
Definition toy_sample_mask (x : Z) : unit := tt.

(** ** Exact sums *)

(** The sum of exact rationals, from the right: in exact arithmetic the
    left-to-right sums of the program are equal to it. *)
Definition Qc_sum (v : vector Qc) : Qc := fold_right Qcplus 0%Qc v.

(** A natural number as an exact rational. *)
Definition Qc_of_nat (n : nat) : Qc := Q2Qc (inject_Z (Z.of_nat n)).

(** ** A stand-in for the exact square root *)

(** The identity matrix is its own principal square root; other inputs are
    outside this stand-in. *)
Definition is_identity (a : matrix Qc) : bool :=
  forallb (fun row => Nat.eqb (length row) (nrows a)) a
  && forallb (fun p => forallb (fun q => Qc_eqb (fst q) (snd q))
                         (combine (fst p) (snd p)))
       (combine a (np_eye (nrows a))).

Definition sqrtm_of_identity (a : matrix Qc) : result Qc (ndarray Qc) :=
  if is_identity a
  then Ok (RealArr a)
  else Raise (ValueError "input outside the stand-in").

(** ** Further stand-ins for the examples *)

(** The exact square root of the 1x1 array [[-1]] is the imaginary unit;
    other inputs are outside this stand-in. *)
Definition sqrtm_of_minus_one (a : matrix Qc) : result Qc (ndarray Qc) :=
  match a with
  | [[t]] =>
      if Qc_eqb t (Q2Qc (-1))
      then Ok (ComplexArr [[(Q2Qc 0, Q2Qc 1)]])
      else Raise (ValueError "input outside the stand-in")
  | _ => Raise (ValueError "input outside the stand-in")
  end.

(** ** The collector on a machine with limited memory *)

Section CollectorOn.
Context {F Image Row : Type}.
Variable feature : Image -> Row.

(** [np.empty((images, width))] as the machine at hand answers it: the
    fresh array, or the exception numpy raises, for a negative size as well
    as for an array that the machine cannot hold. *)
Variable allocate : Z -> result F (list Row).

(** The loop of lines 43-57 and [get_activations], as above, with this
    allocation at line 52. *)
Fixpoint get_activations_loop_on (images : Z) (batches : list (list Image))
    (pred_arr : option (list Row)) (end_ : nat) : result F (option (list Row)) :=
  match batches with
  | [] => Ok pred_arr
  | batch :: rest =>
      let start := end_ in
      let batch_size := length batch in
      let end' := start + batch_size in
      (let* batch_feature := reshape_rows batch_size (map feature batch) in
       let* arr := match pred_arr with
                   | None => allocate images
                   | Some a => Ok a
                   end in
       let* arr' := assign_rows arr start end' batch_feature in
       get_activations_loop_on images rest (Some arr') end')%py
  end.

Definition get_activations_on (image_generator : list (list Image)) (images : Z)
    : result F (option (list Row)) :=
  get_activations_loop_on images image_generator None 0.

End CollectorOn.

(** A machine that holds arrays of six rows at most. *)
Definition toy_allocate (images : Z) : result float (list (vector float)) :=
  if (images <? 0)%Z then Raise (ValueError "negative dimensions are not allowed")
  else if (6 <? images)%Z then Raise (ValueError "array is too big")
  else Ok (map toy_uninit (seq 0 (Z.to_nat images))).

(** ** The command-line drivers (lines 246-315) *)

(** A [pathlib] path: the list of its components, so that [p / 'name'] is
    [p ++ ["name"]]. *)
Definition path : Type := list string.

(** [s.split(sep)] for a separator of one character: the pieces between the
    separators, empty pieces included, and [['']] for the empty string. *)
Fixpoint split_on (sep : ascii) (s : string) : list string :=
  match s with
  | EmptyString => [EmptyString]
  | String c rest =>
      if Ascii.eqb c sep then EmptyString :: split_on sep rest
      else
        match split_on sep rest with
        | piece :: pieces => String c piece :: pieces
        | [] => [String c EmptyString]
        end
  end.

(** [fnmatch(name, '*' + suffix)], case sensitive: the name ends with
    [suffix]. *)
Definition ends_with (suffix name : string) : bool :=
  Nat.leb (String.length suffix) (String.length name)
  && String.eqb
       (String.substring (String.length name - String.length suffix)
          (String.length suffix) name)
       suffix.

(** [max(names)] on strings, which Python compares by code point: the first
    of the greatest names, and no value for an empty sequence, where Python
    raises [ValueError]. *)
Definition py_max (names : list string) : option string :=
  match names with
  | [] => None
  | name :: others =>
      Some (fold_left (fun best item => if String.ltb best item then item else best)
              others name)
  end.

(** The attributes of [model['args']] that the drivers read. *)
Record namespace (Prob : Type) : Type := {
  args_generator : string;
  args_imputer : string;
  args_arch : string;
  args_block_len : Z;
  args_mask : string;
  args_obs_prob : Prob;
  args_obs_prob_high : Prob
}.

(** What [torch.load(model_file)] gives: a dictionary, of which the drivers
    read the keys ['args'], ['data_gen'] and ['imputer']; each may be
    missing. *)
Record checkpoint (State Prob : Type) : Type := {
  ckpt_args : option (namespace Prob);
  ckpt_data_gen : option State;
  ckpt_imputer : option State
}.

(** The exceptions of the drivers: those of the scoring functions and of the
    collaborators, and Python's [UnboundLocalError] for a local name that no
    branch has assigned. *)
Inductive driver_exn (F : Type) : Type :=
| UnboundLocalError (name : string)
| Inner (e : exn F).

Arguments UnboundLocalError {F} name.
Arguments Inner {F} e.

Inductive outcome (F A : Type) : Type :=
| Returned (a : A)
| Failed (e : driver_exn F).

Arguments Returned {F A} a.
Arguments Failed {F A} e.

Definition of_result {F A} (r : result F A) : outcome F A :=
  match r with
  | Ok a => Returned a
  | Raise e => Failed (Inner e)
  end.

(** The files the drivers read and write: the [.npz] archives of the working
    directory, and the text files that hold one printed score each. *)
Record world (F : Type) : Type := {
  stats_files : gmap string (gmap string (npy F));
  score_files : gmap path F
}.

Arguments stats_files {F} w.
Arguments score_files {F} w.

(** The defaults of the keyword arguments: [n_samples=60000] and
    [samples=60000] (lines 188 and 246), [batch_size=64] (lines 188, 218,
    246 and 258). *)
Definition default_samples : nat := Z.to_nat 60000.
Definition default_batch_size : nat := 64.

Section Drivers.
Context {F : Type} {SF : Scalar F}.
Context {Image Latent Noise Mask Sample State Prob : Type}.
Variable feature : Image -> vector F.
Variable uninit : nat -> vector F.
Variable linalg_sqrtm : matrix F -> result F (ndarray F).
Variable mnist_train : list Image.
Variable normal_ : nat -> nat -> Latent.
Variable sample_data : Sample -> Image.
Variable sample_mask : Sample -> Mask.
Variable uniform_ : nat -> nat -> Noise.

(** [torch.load(model_file, map_location='cpu')] *)
Variable torch_load : path -> result F (checkpoint State Prob).

(** The generator classes of [mnist_generator]: [G().to(device)] followed by
    [load_state_dict(state)], which gives the generator or raises. *)
Variable ConvDataGenerator : State -> result F (list Latent -> list Image).
Variable FCDataGenerator : State -> result F (list Latent -> list Image).

(** The imputer classes of [mnist_imputer]: [I(arch=hid_lens).to(device)]
    followed by [load_state_dict(state)]. *)
Variable ComplementImputer :
  list Z -> State -> result F (list Image -> list Mask -> list Noise -> list Image).
Variable MaskImputer :
  list Z -> State -> result F (list Image -> list Mask -> list Noise -> list Image).
Variable FixedNoiseDimImputer :
  list Z -> State -> result F (list Image -> list Mask -> list Noise -> list Image).

(** The data sets of [masked_mnist], as the samples they hold. *)
Variable IndepMaskedMNIST : Prob -> Prob -> list Sample.
Variable BlockMaskedMNIST : option Z -> list Sample.

(** Python's [int] on a string. *)
Variable py_int : string -> result F Z.

(** The names of the entries of a directory, none when there is no such
    directory. *)
Variable listdir : path -> list string.

(** [[int(n) for n in pieces]]: the first piece that [int] refuses
    raises. *)
Fixpoint int_list (pieces : list string) : result F (list Z) :=
  match pieces with
  | [] => Ok []
  | n :: rest =>
      (let* z := py_int n in
       let* zs := int_list rest in
       Ok (z :: zs))%py
  end.

(** [pretrained_misgan_fid(model_file, samples, batch_size)] (lines 246-255):
    the disk afterwards and the score or exception; [None] for a call that
    does not return.  Line 255 passes neither [samples] nor [batch_size]
    on, so the scoring runs with its own defaults. *)
Definition pretrained_misgan_fid (model_file : path) (samples batch_size : nat)
    (fs : gmap string (gmap string (npy F)))
    : gmap string (gmap string (npy F)) * option (outcome F F) :=
  match torch_load model_file with
  | Raise e => (fs, Some (Failed (Inner e)))
  | Ok model =>
      match ckpt_args model with
      | None => (fs, Some (Failed (Inner (KeyError "args"))))
      | Some args =>
          let DataGenerator :=
            if String.eqb (args_generator args) "conv" then Some ConvDataGenerator
            else if String.eqb (args_generator args) "fc" then Some FCDataGenerator
            else None in
          match DataGenerator with
          | None => (fs, Some (Failed (UnboundLocalError "DataGenerator")))
          | Some DataGenerator =>
              match ckpt_data_gen model with
              | None => (fs, Some (Failed (Inner (KeyError "data_gen"))))
              | Some state =>
                  match DataGenerator state with
                  | Raise e => (fs, Some (Failed (Inner e)))
                  | Ok data_gen =>
                      let (fs', r) :=
                        data_generator_fid feature uninit linalg_sqrtm mnist_train
                          normal_ data_gen fs default_samples default_batch_size in
                      (fs', option_map of_result r)
                  end
              end
          end
      end
  end.

(** [pretrained_imputer_fid(model_file, save_file, batch_size)] (lines
    258-288): the files afterwards and whether the call returned.  Line 285
    does not pass [batch_size] on.  A checkpoint without the key
    ['imputer'] makes the call return at once. *)
Definition pretrained_imputer_fid (model_file save_file : path) (batch_size : nat)
    (w : world F) : world F * outcome F unit :=
  match torch_load model_file with
  | Raise e => (w, Failed (Inner e))
  | Ok model =>
      match ckpt_imputer model with
      | None => (w, Returned tt)
      | Some state =>
          match ckpt_args model with
          | None => (w, Failed (Inner (KeyError "args")))
          | Some args =>
              let Imputer :=
                if String.eqb (args_imputer args) "comp" then Some ComplementImputer
                else if String.eqb (args_imputer args) "mask" then Some MaskImputer
                else if String.eqb (args_imputer args) "fix" then Some FixedNoiseDimImputer
                else None in
              match int_list (split_on "-"%char (args_arch args)) with
              | Raise e => (w, Failed (Inner e))
              | Ok hid_lens =>
                  match Imputer with
                  | None => (w, Failed (UnboundLocalError "Imputer"))
                  | Some Imputer =>
                      match Imputer hid_lens state with
                      | Raise e => (w, Failed (Inner e))
                      | Ok imputer =>
                          let block_len :=
                            if (args_block_len args =? 0)%Z then None
                            else Some (args_block_len args) in
                          let data :=
                            if String.eqb (args_mask args) "indep"
                            then Some (IndepMaskedMNIST (args_obs_prob args)
                                         (args_obs_prob_high args))
                            else if String.eqb (args_mask args) "block"
                            then Some (BlockMaskedMNIST block_len)
                            else None in
                          match data with
                          | None => (w, Failed (UnboundLocalError "data"))
                          | Some data =>
                              match imputer_fid feature uninit linalg_sqrtm mnist_train
                                      sample_data sample_mask uniform_ imputer
                                      (stats_files w) data default_batch_size with
                              | (fs', Raise e) =>
                                  ({| stats_files := fs'; score_files := score_files w |},
                                   Failed (Inner e))
                              | (fs', Ok fid) =>
                                  ({| stats_files := fs';
                                      score_files := <[save_file := fid]> (score_files w) |},
                                   Returned tt)
                              end
                          end
                      end
                  end
              end
          end
      end
  end.

(** [(root_dir / 'model').glob('*.pth')], by name. *)
Definition glob_pth (root_dir : path) : list string :=
  List.filter (ends_with ".pth") (listdir (root_dir ++ ["model"])).

(** [main()] (lines 291-315) on the parsed arguments [root_dir] and
    [--skip-exist]: the files afterwards and whether the call returned;
    [None] for a call that does not return.  The [ValueError] of [max] on no
    checkpoint is caught and ends the call.  What the drivers print to the
    terminal is left out. *)
Definition main (root_dir : path) (skip_exist : bool) (w : world F)
    : world F * option (outcome F unit) :=
  let fid_file := root_dir ++ ["fid-0.txt"] in
  if skip_exist && bool_decide (is_Some (score_files w !! fid_file))
  then (w, Some (Returned tt))
  else
    match py_max (glob_pth root_dir) with
    | None => (w, Some (Returned tt))
    | Some name =>
        let model_file := root_dir ++ ["model"; name] in
        match pretrained_misgan_fid model_file default_samples default_batch_size
                (stats_files w) with
        | (fs', None) =>
            ({| stats_files := fs'; score_files := score_files w |}, None)
        | (fs', Some (Failed e)) =>
            ({| stats_files := fs'; score_files := score_files w |}, Some (Failed e))
        | (fs', Some (Returned fid)) =>
            let imputer_fid_file := root_dir ++ ["impute-fid-0.txt"] in
            let (w', r) :=
              pretrained_imputer_fid model_file imputer_fid_file default_batch_size
                {| stats_files := fs';
                   score_files := <[fid_file := fid]> (score_files w) |} in
            (w', Some r)
        end
    end.

End Drivers.

(** ** Collaborators of the drivers for the examples *)

(** Decimal digits as Python's [int] reads them; signs, spaces and
    underscores are outside this stand-in. *)
Definition digit_of (c : ascii) : option Z :=
  let n := Z.of_nat (nat_of_ascii c) in
  if ((48 <=? n) && (n <=? 57))%Z then Some (n - 48)%Z else None.

Fixpoint digits_value (acc : Z) (s : string) : option Z :=
  match s with
  | EmptyString => Some acc
  | String c rest =>
      match digit_of c with
      | Some d => digits_value (10 * acc + d) rest
      | None => None
      end
  end.

Definition toy_int (s : string) : result float Z :=
  match s with
  | EmptyString => Raise (ValueError "invalid literal for int() with base 10")
  | _ =>
      match digits_value 0 s with
      | Some z => Ok z
      | None => Raise (ValueError "invalid literal for int() with base 10")
      end
  end.

(** The arguments of a training run, with its kinds of generator, imputer
    and mask. *)
Definition toy_args (generator imputer mask : string) : namespace unit :=
  {| args_generator := generator;
     args_imputer := imputer;
     args_arch := "500-500";
     args_block_len := 0;
     args_mask := mask;
     args_obs_prob := tt;
     args_obs_prob_high := tt |}.

(** A directory [runs/model] with three checkpoints and a text file:
    [0100.pth] holds a convolutional generator and no imputer, [0200.pth] a
    fully connected generator with an imputer, and [99.pth] a generator of
    an unknown kind. *)
Definition toy_listdir (dir : path) : list string :=
  if bool_decide (dir = ["runs"; "model"])
  then ["0100.pth"; "notes.txt"; "99.pth"; "0200.pth"]
  else [].

Definition toy_torch_load (model_file : path) : result float (checkpoint unit unit) :=
  if bool_decide (model_file = ["runs"; "model"; "0100.pth"])
  then Ok {| ckpt_args := Some (toy_args "conv" "comp" "indep");
             ckpt_data_gen := Some tt;
             ckpt_imputer := None |}
  else if bool_decide (model_file = ["runs"; "model"; "0200.pth"])
  then Ok {| ckpt_args := Some (toy_args "fc" "mask" "block");
             ckpt_data_gen := Some tt;
             ckpt_imputer := Some tt |}
  else if bool_decide (model_file = ["runs"; "model"; "99.pth"])
  then Ok {| ckpt_args := Some (toy_args "vae" "comp" "indep");
             ckpt_data_gen := Some tt;
             ckpt_imputer := Some tt |}
  else Raise (FileNotFoundError "No such file or directory").

Definition toy_generator_class (state : unit) : result float (list Z -> list Z) :=
  Ok toy_generator.

Definition toy_imputer_class (arch : list Z) (state : unit)
    : result float (list Z -> list unit -> list unit -> list Z) :=
  Ok toy_imputer.

Definition toy_indep_data (obs_prob obs_prob_high : unit) : list Z := [1; 2; 3]%Z.
Definition toy_block_data (block_len : option Z) : list Z := [4; 5; 6]%Z.

(** No file at all; a run directory that already holds a generator score;
    statistics of two features on disk. *)
Definition empty_world : world float := {| stats_files := ∅; score_files := ∅ |}.

Definition scored_world : world float :=
  {| stats_files := ∅; score_files := <[["runs"; "fid-0.txt"] := 1%float]> ∅ |}.

Definition ready_world : world float :=
  {| stats_files :=
       np_savez ∅ stats_file [0%float; 0%float] [[1%float; 0%float]; [0%float; 1%float]];
     score_files := ∅ |}.

(** ** The moments as sums over the samples *)

(** In exact arithmetic, the mean of feature [j] over the rows of [act], and
    the sum over the rows of the products of the deviations of features [i]
    and [j] from their means: what [np.mean] and [np.cov] compute column by
    column, written sample by sample. *)
Definition sample_mean (act : matrix Qc) (j : nat) : Qc :=
  fdiv (Qc_sum (map (fun r => nth j r f0) act)) (of_Z (Z.of_nat (nrows act))).

Definition sample_products (act : matrix Qc) (i j : nat) : Qc :=
  Qc_sum (map (fun r => Qcmult (fsub (nth i r f0) (sample_mean act i))
                               (fsub (nth j r f0) (sample_mean act j))) act).

(** * Properties *)

(** ** The collector *)

Section CollectorFacts.
Context {F Image Row : Type}.
Variable feature : Image -> Row.
Variable uninit : nat -> Row.

(** Writing as many rows as the slice holds, right behind the rows
    [written] so far, replaces the head of the rest. *)
Lemma assign_rows_behind (written rest value : list Row) :
  length value <= length rest ->
  assign_rows (F:=F) (written ++ rest) (length written)
    (length written + length value) value
  = Ok (written ++ value ++ skipn (length value) rest).
Proof.
  intros Hfit. unfold assign_rows.
  rewrite length_app, !Nat.min_l by lia.
  replace (length written + length value - length written)
    with (length value) by lia.
  rewrite Nat.eqb_refl, take_app_length, drop_app_add.
  reflexivity.
Qed.

(** The loop, entered with a buffer whose first rows are [written], writes
    the remaining batches behind them. *)
Lemma get_activations_loop_fills (images : Z) (batches : list (list Image)) :
  forall (written rest : list Row),
    Forall (fun b => b <> []) batches ->
    length (concat batches) <= length rest ->
    get_activations_loop (F:=F) feature uninit images batches
      (Some (written ++ rest)) (length written)
    = Ok (Some (written ++ map feature (concat batches)
                ++ skipn (length (concat batches)) rest)).
Proof.
  induction batches as [|batch more IH]; intros written rest Hne Hfit.
  - reflexivity.
  - inversion Hne as [|? ? Hb Hmore]; subst.
    cbn [concat] in *. rewrite length_app in Hfit.
    cbn [get_activations_loop]. unfold reshape_rows.
    destruct (Nat.eqb_spec (length batch) 0) as [Hz|_].
    { destruct batch; [congruence | discriminate]. }
    cbn [rbind].
    rewrite <- (length_map feature batch) at 1.
    rewrite assign_rows_behind by (rewrite length_map; lia).
    cbn [rbind].
    replace (length written + length batch)
      with (length (written ++ map feature batch))
      by (now rewrite length_app, length_map).
    rewrite app_assoc, IH; [| assumption | rewrite length_drop, length_map; lia].
    rewrite length_map, drop_drop, map_app, length_app, <- !app_assoc.
    reflexivity.
Qed.

(** With at least one batch, no empty batch and a total that fills the
    buffer, the collector returns the activations of the samples in order. *)
Lemma get_activations_filled (batches : list (list Image)) (images : Z) :
  batches <> [] ->
  Forall (fun b => b <> []) batches ->
  Z.of_nat (length (concat batches)) = images ->
  get_activations (F:=F) feature uninit batches images
  = Ok (Some (map feature (concat batches))).
Proof.
  intros Hsome Hne Htotal.
  destruct batches as [|batch more]; [congruence|].
  inversion Hne as [|? ? Hb Hmore]; subst.
  unfold get_activations. cbn [get_activations_loop]. unfold reshape_rows.
  destruct (Nat.eqb_spec (length batch) 0) as [Hz|_].
  { destruct batch; [congruence | discriminate]. }
  cbn [rbind]. unfold np_empty.
  destruct (Z.ltb_spec (Z.of_nat (length (concat (batch :: more)))) 0) as [Hneg|_];
    [lia|].
  rewrite Nat2Z.id. cbn [rbind concat].
  set (init := map uninit (seq 0 (length (batch ++ concat more)))).
  assert (Hinit : length init = length batch + length (concat more)).
  { unfold init. now rewrite length_map, length_seq, length_app. }
  rewrite <- (length_map feature batch) at 1.
  pose proof (assign_rows_behind [] init (map feature batch)) as Hw.
  cbn [app length Nat.add] in Hw |- *.
  rewrite Hw by (rewrite length_map; lia).
  cbn [rbind].
  rewrite <- (length_map feature batch) at 1.
  rewrite get_activations_loop_fills;
    [| assumption | rewrite length_drop, length_map; lia].
  rewrite drop_drop, map_app, length_map.
  rewrite (drop_ge init) by lia.
  now rewrite app_nil_r.
Qed.

(** Once there is a buffer the loop never ends without one. *)
Lemma get_activations_loop_keeps_buffer (images : Z) (batches : list (list Image)) :
  forall (arr : list Row) (end_ : nat),
    get_activations_loop (F:=F) feature uninit images batches (Some arr) end_ <> Ok None.
Proof.
  induction batches as [|batch more IH]; intros arr end_; cbn [get_activations_loop].
  - discriminate.
  - destruct (reshape_rows (length batch) (map feature batch)) as [batch_feature|e];
      cbn [rbind]; [|discriminate].
    destruct (assign_rows arr end_ (end_ + length batch) batch_feature) as [arr'|e];
      cbn [rbind]; [apply IH | discriminate].
Qed.

(** A first batch that is processed without an exception leaves a
    buffer, so [None] is only returned when there was no batch. *)
Lemma get_activations_None_inv (batches : list (list Image)) (images : Z) :
  get_activations (F:=F) feature uninit batches images = Ok None -> batches = [].
Proof.
  destruct batches as [|batch more]; [reflexivity|].
  unfold get_activations. cbn [get_activations_loop].
  destruct (reshape_rows (length batch) (map feature batch)) as [batch_feature|e];
    cbn [rbind]; [|discriminate].
  destruct (np_empty uninit images) as [arr|e]; cbn [rbind]; [|discriminate].
  destruct (assign_rows arr 0 (0 + length batch) batch_feature) as [arr'|e];
    cbn [rbind]; [|discriminate].
  intros Hnone. now apply get_activations_loop_keeps_buffer in Hnone.
Qed.

End CollectorFacts.

(** C10: a batch source that yields no batch makes the collector return
    [None], not an empty matrix and not an exception, whatever sample count
    was declared; and this is the only way for it to return [None]. *)
Theorem get_activations_no_batch {F Image Row : Type}
    (feature : Image -> Row) (uninit : nat -> Row) (images : Z) :
  get_activations (F:=F) feature uninit [] images = Ok None
  /\ (forall batches : list (list Image),
        get_activations (F:=F) feature uninit batches images = Ok None <-> batches = []).
Proof.
  split; [reflexivity|].
  intros batches. split.
  - apply get_activations_None_inv.
  - now intros ->.
Qed.

(** The collector on no batch, and on one batch of one sample. *)
Lemma get_activations_no_batch_witness :
  get_activations (F:=float) toy_feature toy_uninit [] 5 = Ok None
  /\ get_activations (F:=float) toy_feature toy_uninit [[1%Z]] 5 <> Ok None.
Proof.
  destruct (@get_activations_no_batch float Z (vector float) toy_feature toy_uninit 5%Z)
    as [Hnone Honly].
  split; [exact Hnone|].
  intros Hbatch. apply Honly in Hbatch. discriminate Hbatch.
Defined.

(** C7 (as amended): for a non-empty sequence of non-empty batches whose
    sizes sum to [images], the collector returns a matrix of exactly [images]
    rows, row [i] being the activation of sample [i], and any other such
    chunking of the same samples gives the same matrix. *)
Theorem collector_rows_independent_of_chunking {F Image Row : Type}
    (feature : Image -> Row) (uninit : nat -> Row)
    (batches : list (list Image)) (images : Z) :
  batches <> [] ->
  Forall (fun b => b <> []) batches ->
  Z.of_nat (length (concat batches)) = images ->
  get_activations (F:=F) feature uninit batches images
  = Ok (Some (map feature (concat batches)))
  /\ Z.of_nat (length (map feature (concat batches))) = images
  /\ (forall batches' : list (list Image),
        batches' <> [] ->
        Forall (fun b => b <> []) batches' ->
        concat batches' = concat batches ->
        get_activations (F:=F) feature uninit batches' images
        = get_activations (F:=F) feature uninit batches images).
Proof.
  intros Hsome Hne Htotal. split; [| split].
  - now apply get_activations_filled.
  - now rewrite length_map.
  - intros batches' Hsome' Hne' Hsame.
    rewrite (get_activations_filled feature uninit Hsome Hne Htotal).
    rewrite <- Hsame. apply get_activations_filled; try assumption.
    now rewrite Hsame.
Qed.

(** Three samples in batches of two and one, or of one and two. *)
Lemma collector_rows_independent_of_chunking_witness :
  [[1; 2]; [3]]%Z <> []
  /\ Forall (fun b : list Z => b <> []) [[1; 2]; [3]]%Z
  /\ get_activations (F:=float) toy_feature toy_uninit [[1; 2]; [3]]%Z 3
     = Ok (Some (map toy_feature [1; 2; 3]%Z))
  /\ get_activations (F:=float) toy_feature toy_uninit [[1]; [2; 3]]%Z 3
     = get_activations (F:=float) toy_feature toy_uninit [[1; 2]; [3]]%Z 3.
Proof.
  assert (Hsome : [[1; 2]; [3]]%Z <> []) by discriminate.
  assert (Hne : Forall (fun b : list Z => b <> []) [[1; 2]; [3]]%Z)
    by (repeat constructor; discriminate).
  destruct (@collector_rows_independent_of_chunking float Z (vector float)
              toy_feature toy_uninit [[1; 2]; [3]]%Z 3 Hsome Hne eq_refl)
    as (Hrows & _ & Hchunk).
  split; [exact Hsome | split; [exact Hne | split; [exact Hrows |]]].
  apply Hchunk; [discriminate | repeat constructor; discriminate | reflexivity].
Defined.

(** C7 as stated fails for the empty sequence: its sizes sum to a declared
    total of [0], and the collector returns [None], not a matrix without
    rows.  It also fails when a batch is empty: the sizes one and zero sum
    to the declared total of [1], and [reshape(0, -1)] on the activations of
    the empty batch raises. *)
Lemma collector_empty_sequence_counterexample :
  Z.of_nat (length (concat (@nil (list Z)))) = 0%Z
  /\ get_activations (F:=float) toy_feature toy_uninit [] 0 = Ok None
  /\ Z.of_nat (length (concat [[1%Z]; []])) = 1%Z
  /\ get_activations (F:=float) toy_feature toy_uninit [[1%Z]; []] 1
     = Raise (ValueError "cannot reshape array of size 0 into shape (0,newaxis)").
Proof. repeat split; reflexivity. Qed.

(** ** Shapes *)

Section ShapeFacts.
Context {F : Type} {SF : Scalar F}.

Lemma has_shape_square_dims {A} (n : nat) (M : list (list A)) :
  has_shape n n M -> nrows M = n /\ ncols M = n.
Proof.
  intros [Hrows Hcols]. split; [exact Hrows|].
  unfold ncols. destruct M as [|row M]; [exact Hrows|].
  now inversion Hcols.
Qed.

Lemma np_dot_square (n : nat) (A B : matrix F) :
  has_shape n n A -> has_shape n n B -> np_dot A B = Ok (matmul A B).
Proof.
  intros HA HB. unfold np_dot.
  destruct (has_shape_square_dims HA) as [_ ->].
  destruct (has_shape_square_dims HB) as [-> _].
  now rewrite Nat.eqb_refl.
Qed.

Lemma nrows_regularized (n : nat) (M : matrix F) (eps : F) :
  nrows (regularized n M eps) = Nat.min (nrows M) n.
Proof.
  unfold regularized, madd, mscale, np_eye, nrows.
  now rewrite length_map, length_combine, !length_map, length_seq.
Qed.

Lemma ncols_regularized (M : matrix F) (eps : F) :
  ncols (regularized (nrows M) M eps) = Nat.min (ncols M) (nrows M).
Proof.
  unfold regularized, madd, mscale, np_eye, ncols, nrows.
  destruct M as [|row M]; [reflexivity|].
  cbn [length seq map combine hd fst snd].
  rewrite length_map, length_combine. cbn [length].
  now rewrite !length_map, length_seq.
Qed.

(** When the product of line 101 is defined, so is the one of line 107. *)
Lemma np_dot_regularized (sigma1 sigma2 prod : matrix F) (eps : F) :
  np_dot sigma1 sigma2 = Ok prod ->
  np_dot (regularized (nrows sigma1) sigma1 eps) (regularized (nrows sigma1) sigma2 eps)
  = Ok (matmul (regularized (nrows sigma1) sigma1 eps)
               (regularized (nrows sigma1) sigma2 eps)).
Proof.
  unfold np_dot at 1.
  destruct (Nat.eqb_spec (ncols sigma1) (nrows sigma2)) as [Hinner|]; [|discriminate].
  intros _. unfold np_dot.
  rewrite ncols_regularized, nrows_regularized, Hinner.
  now rewrite Nat.eqb_refl.
Qed.



End ShapeFacts.

(** ** The distance calculator *)

Section FrechetFacts.
Context {F : Type} {SF : Scalar F}.
Variable linalg_sqrtm : matrix F -> result F (ndarray F).

(** A finite first square root is kept: one call, nothing printed. *)
Lemma stabilized_sqrtm_finite (sigma1 sigma2 prod : matrix F) (eps : F) (a : ndarray F) :
  np_dot sigma1 sigma2 = Ok prod ->
  linalg_sqrtm prod = Ok a ->
  np_isfinite_all a = true ->
  stabilized_sqrtm linalg_sqrtm sigma1 sigma2 eps = ([SqrtmCall prod], Ok a).
Proof.
  intros Hdot Hroot Hfin. unfold stabilized_sqrtm, call_sqrtm, lift, tell, tbind, tret.
  now rewrite Hdot, Hroot, Hfin.
Qed.

(** A first square root with a non-finite entry is replaced by the square
    root of the regularised product: one message, one more call. *)
Lemma stabilized_sqrtm_retry (sigma1 sigma2 prod : matrix F) (eps : F) (a : ndarray F) :
  np_dot sigma1 sigma2 = Ok prod ->
  linalg_sqrtm prod = Ok a ->
  np_isfinite_all a = false ->
  let prod' := matmul (regularized (nrows sigma1) sigma1 eps)
                      (regularized (nrows sigma1) sigma2 eps) in
  stabilized_sqrtm linalg_sqrtm sigma1 sigma2 eps
  = ([SqrtmCall prod; Printed eps; SqrtmCall prod'], linalg_sqrtm prod').
Proof.
  intros Hdot Hroot Hfin prod'.
  unfold stabilized_sqrtm, call_sqrtm, lift, tell, tbind, tret.
  rewrite Hdot, Hroot, Hfin. cbn [negb].
  rewrite (np_dot_regularized _ _ eps Hdot). fold prod'.
  now destruct (linalg_sqrtm prod').
Qed.


(** Past the assertions, the call is the stabilised square root followed by
    lines 110-119. *)
Lemma calculate_frechet_distance_checked
    (mu1 : vector F) (sigma1 : matrix F) (mu2 : vector F) (sigma2 : matrix F) (eps : F) :
  length mu1 = length mu2 ->
  nrows sigma1 = nrows sigma2 ->
  ncols sigma1 = ncols sigma2 ->
  calculate_frechet_distance linalg_sqrtm mu1 sigma1 mu2 sigma2 eps
  = (fst (stabilized_sqrtm linalg_sqrtm sigma1 sigma2 eps),
     rbind (snd (stabilized_sqrtm linalg_sqrtm sigma1 sigma2 eps))
       (fun covmean =>
          rmap (frechet_formula mu1 sigma1 mu2 sigma2) (discard_imaginary covmean))).
Proof.
  intros Hmu Hrows Hcols. unfold calculate_frechet_distance, assert_.
  rewrite Hmu, Hrows, Hcols, !Nat.eqb_refl. cbn [andb tbind tret app].
  destruct (stabilized_sqrtm linalg_sqrtm sigma1 sigma2 eps) as [log [covmean|e]];
    cbn [fst snd rbind]; [|reflexivity].
  unfold lift, tbind, tret, rmap.
  destruct (discard_imaginary covmean); cbn [rbind]; now rewrite app_nil_r.
Qed.


End FrechetFacts.
Section ComplexRootFacts.
Context {F : Type} {SF : Scalar F}.

Lemma forallb_false_Exists {A} (p : A -> bool) (l : list A) :
  forallb p l = false <-> Exists (fun x => p x = false) l.
Proof.
  induction l as [|x l IH]; cbn [forallb].
  - split; [discriminate | intros H; inversion H].
  - rewrite andb_false_iff, IH. split.
    + intros [Hx|Hl]; [now left | now right].
    + intros H; inversion H; subst; [now left | now right].
Qed.

Lemma forallb_true_Forall {A} (p : A -> bool) (l : list A) :
  forallb p l = true <-> Forall (fun x => p x = true) l.
Proof. now rewrite forallb_forall, List.Forall_forall. Qed.

(** The two lemmas above for a test that is spelled out as a property. *)
Lemma forallb_true_iff {A} (p : A -> bool) (P : A -> Prop) (l : list A) :
  (forall x, p x = true <-> P x) -> forallb p l = true <-> Forall P l.
Proof.
  intros Hp. induction l as [|x l IH]; cbn [forallb].
  - split; [constructor | reflexivity].
  - rewrite andb_true_iff, Hp, IH. split.
    + intros [Hx Hl]. now constructor.
    + intros H. now inversion H.
Qed.

Lemma forallb_false_iff {A} (p : A -> bool) (Q : A -> Prop) (l : list A) :
  (forall x, p x = false <-> Q x) -> forallb p l = false <-> Exists Q l.
Proof.
  intros Hp. induction l as [|x l IH]; cbn [forallb].
  - split; [discriminate | intros H; inversion H].
  - rewrite andb_false_iff, Hp, IH. split.
    + intros [Hx|Hl]; [now left | now right].
    + intros H; inversion H; subst; [now left | now right].
Qed.

(** [np.allclose(v, 0, atol=1e-3)] holds when every entry is finite and at
    most [1e-3] in magnitude, and fails when some entry is not. *)
Lemma np_allclose_zero_true (v : vector F) :
  np_allclose_zero v = true
  <-> Forall (fun x => fisfinite x = true /\ fleb (fabs x) f_atol = true) v.
Proof.
  apply forallb_true_iff. intros x. unfold within_atol. apply andb_true_iff.
Qed.

Lemma np_allclose_zero_false (v : vector F) :
  np_allclose_zero v = false
  <-> Exists (fun x => fisfinite x = false \/ fleb (fabs x) f_atol = false) v.
Proof.
  apply forallb_false_iff. intros x. unfold within_atol. apply andb_false_iff.
Qed.

(** [np.isfinite(a).all()] entry by entry. *)
Lemma np_isfinite_all_true (a : ndarray F) :
  np_isfinite_all a = true
  <-> match a with
      | RealArr R => Forall (Forall (fun x => fisfinite x = true)) R
      | ComplexArr C =>
          Forall (Forall (fun z => fisfinite (fst z) = true /\ fisfinite (snd z) = true)) C
      end.
Proof.
  destruct a as [R|C]; cbn [np_isfinite_all].
  - apply forallb_true_iff. intros row. now apply forallb_true_iff.
  - apply forallb_true_iff. intros row. apply forallb_true_iff.
    intros z. apply andb_true_iff.
Qed.

Lemma np_isfinite_all_false (a : ndarray F) :
  np_isfinite_all a = false
  <-> match a with
      | RealArr R => Exists (Exists (fun x => fisfinite x = false)) R
      | ComplexArr C =>
          Exists (Exists (fun z => fisfinite (fst z) = false \/ fisfinite (snd z) = false)) C
      end.
Proof.
  destruct a as [R|C]; cbn [np_isfinite_all].
  - apply forallb_false_iff. intros row. now apply forallb_false_iff.
  - apply forallb_false_iff. intros row. apply forallb_false_iff.
    intros z. apply andb_false_iff.
Qed.

(** An array with a diagonal entry has an entry, so [np.max] of its
    magnitudes is defined. *)
Lemma np_max_abs_defined (M : matrix F) :
  np_diagonal M <> [] -> exists m, np_max (abs_entries M) = Ok m.
Proof.
  unfold np_diagonal, nrows, ncols, abs_entries.
  destruct M as [|[|x row] M]; cbn [length hd Nat.min seq map];
    try congruence.
  intros _. cbn [concat app map np_max]. eauto.
Qed.

(** Lines 110-119 on a complex square root, whichever call gave it: the
    real part goes into the formula when the imaginary parts on the
    diagonal are finite and at most [1e-3] in magnitude, and the largest
    imaginary magnitude of the whole array is raised otherwise. *)
Lemma discard_imaginary_complex (mu1 : vector F) (sigma1 : matrix F)
    (mu2 : vector F) (sigma2 : matrix F) (C : list (list (F * F))) :
  (Forall (fun x => fisfinite x = true /\ fleb (fabs x) f_atol = true)
     (np_diagonal (map (map snd) C)) ->
   rmap (frechet_formula mu1 sigma1 mu2 sigma2) (discard_imaginary (ComplexArr C))
   = Ok (fsub (fadd (fadd (vdot (vsub mu1 mu2) (vsub mu1 mu2)) (np_trace sigma1))
                    (np_trace sigma2))
              (fmul (of_Z 2) (np_trace (map (map fst) C)))))
  /\ (Exists (fun x => fisfinite x = false \/ fleb (fabs x) f_atol = false)
        (np_diagonal (map (map snd) C)) ->
      exists m,
        np_max (map fabs (concat (map (map snd) C))) = Ok m
        /\ rmap (frechet_formula mu1 sigma1 mu2 sigma2) (discard_imaginary (ComplexArr C))
           = Raise (ImaginaryComponent m)).
Proof.
  cbn [discard_imaginary]. unfold cimag, creal. split.
  - intros Hclose. apply np_allclose_zero_true in Hclose.
    now rewrite Hclose.
  - intros Hfar.
    destruct (np_max_abs_defined (map (map snd) C)) as [m Hm].
    { intros Hnil. rewrite Hnil in Hfar. inversion Hfar. }
    exists m. split; [exact Hm|].
    apply np_allclose_zero_false in Hfar.
    now rewrite Hfar, Hm.
Qed.

End ComplexRootFacts.

(** C2 (as amended): when [sqrtm(sigma1 . sigma2)] comes back complex with
    finite entries only, the call asks for no other square root, and either
    every imaginary part on the diagonal is at most [1e-3] in magnitude and
    the score is computed from the real part, or some is not and the call
    raises [ValueError] carrying the largest imaginary magnitude among all
    entries of the square root. *)
Theorem complex_root_kept_or_refused {F : Type} {SF : Scalar F}
    (linalg_sqrtm : matrix F -> result F (ndarray F))
    (mu1 : vector F) (sigma1 : matrix F) (mu2 : vector F) (sigma2 : matrix F)
    (eps : F) (prod : matrix F) (C : list (list (F * F))) :
  length mu1 = length mu2 ->
  nrows sigma1 = nrows sigma2 ->
  ncols sigma1 = ncols sigma2 ->
  np_dot sigma1 sigma2 = Ok prod ->
  linalg_sqrtm prod = Ok (ComplexArr C) ->
  Forall (Forall (fun z => fisfinite (fst z) = true /\ fisfinite (snd z) = true)) C ->
  (Forall (fun x => fisfinite x = true /\ fleb (fabs x) f_atol = true)
     (np_diagonal (map (map snd) C)) ->
   calculate_frechet_distance linalg_sqrtm mu1 sigma1 mu2 sigma2 eps
   = ([SqrtmCall prod],
      Ok (fsub (fadd (fadd (vdot (vsub mu1 mu2) (vsub mu1 mu2)) (np_trace sigma1))
                     (np_trace sigma2))
               (fmul (of_Z 2) (np_trace (map (map fst) C))))))
  /\ (Exists (fun x => fisfinite x = false \/ fleb (fabs x) f_atol = false)
        (np_diagonal (map (map snd) C)) ->
      exists m,
        np_max (map fabs (concat (map (map snd) C))) = Ok m
        /\ calculate_frechet_distance linalg_sqrtm mu1 sigma1 mu2 sigma2 eps
           = ([SqrtmCall prod], Raise (ImaginaryComponent m))).
Proof.
  intros Hmu Hrows Hcols Hdot Hroot Hfin.
  apply (np_isfinite_all_true (ComplexArr C)) in Hfin.
  rewrite (calculate_frechet_distance_checked linalg_sqrtm _ _ _ _ eps Hmu Hrows Hcols).
  rewrite (stabilized_sqrtm_finite linalg_sqrtm _ _ eps Hdot Hroot Hfin).
  cbn [fst snd rbind].
  destruct (discard_imaginary_complex mu1 sigma1 mu2 sigma2 C) as [Hkept Hrefused].
  split.
  - intros Hclose. now rewrite (Hkept Hclose).
  - intros Hfar. destruct (Hrefused Hfar) as (m & Hm & Hraise).
    exists m. split; [exact Hm|]. now rewrite Hraise.
Qed.


(** C1 (as amended): for means of one length and covariances of one square
    shape, when [sqrtm(sigma1 . sigma2)] comes back real with finite entries,
    the call asks for no other square root and returns
    [||mu1 - mu2||^2 + trace(sigma1) + trace(sigma2) - 2 * trace(sqrtm(sigma1 . sigma2))],
    which is the value of the unstabilised formula. *)
Theorem frechet_distance_of_finite_real_root {F : Type} {SF : Scalar F}
    (linalg_sqrtm : matrix F -> result F (ndarray F))
    (mu1 : vector F) (sigma1 : matrix F) (mu2 : vector F) (sigma2 : matrix F)
    (eps : F) (n : nat) (R : matrix F) :
  length mu1 = length mu2 ->
  has_shape n n sigma1 ->
  has_shape n n sigma2 ->
  linalg_sqrtm (matmul sigma1 sigma2) = Ok (RealArr R) ->
  np_isfinite_all (RealArr R) = true ->
  calculate_frechet_distance linalg_sqrtm mu1 sigma1 mu2 sigma2 eps
  = ([SqrtmCall (matmul sigma1 sigma2)],
     Ok (fsub (fadd (fadd (vdot (vsub mu1 mu2) (vsub mu1 mu2)) (np_trace sigma1))
                    (np_trace sigma2))
              (fmul (of_Z 2) (np_trace R))))
  /\ spec_distance linalg_sqrtm mu1 sigma1 mu2 sigma2
     = Some (fsub (fadd (fadd (vdot (vsub mu1 mu2) (vsub mu1 mu2)) (np_trace sigma1))
                        (np_trace sigma2))
                  (fmul (of_Z 2) (np_trace R))).
Proof.
  intros Hmu H1 H2 Hroot Hfin.
  pose proof (np_dot_square H1 H2) as Hdot.
  destruct (has_shape_square_dims H1) as [Hr1 Hc1].
  destruct (has_shape_square_dims H2) as [Hr2 Hc2].
  split.
  - rewrite (calculate_frechet_distance_checked linalg_sqrtm _ _ _ _ eps Hmu)
      by congruence.
    now rewrite (stabilized_sqrtm_finite linalg_sqrtm _ _ eps Hdot Hroot Hfin).
  - unfold spec_distance. now rewrite Hdot, Hroot.
Qed.

(** C4 (as amended): after a first square root with a non-finite entry the
    call prints the message, asks once more, on the regularised product, and
    takes that answer as it is, with no test of its entries.  A real answer
    gives a returned score, the formula of lines 116-119 on that answer; a
    complex answer gives the score of its real part when the imaginary
    parts on its diagonal are finite and at most [1e-3] in magnitude, and
    [ValueError] carrying its largest imaginary magnitude otherwise. *)
Theorem retry_answer_taken_unchecked {F : Type} {SF : Scalar F}
    (linalg_sqrtm : matrix F -> result F (ndarray F))
    (mu1 : vector F) (sigma1 : matrix F) (mu2 : vector F) (sigma2 : matrix F)
    (eps : F) (prod : matrix F) (covmean covmean' : ndarray F) :
  length mu1 = length mu2 ->
  nrows sigma1 = nrows sigma2 ->
  ncols sigma1 = ncols sigma2 ->
  np_dot sigma1 sigma2 = Ok prod ->
  linalg_sqrtm prod = Ok covmean ->
  match covmean with
  | RealArr R => Exists (Exists (fun x => fisfinite x = false)) R
  | ComplexArr C =>
      Exists (Exists (fun z => fisfinite (fst z) = false \/ fisfinite (snd z) = false)) C
  end ->
  linalg_sqrtm (matmul (regularized (nrows sigma1) sigma1 eps)
                       (regularized (nrows sigma1) sigma2 eps)) = Ok covmean' ->
  (forall R' : matrix F,
     covmean' = RealArr R' ->
     calculate_frechet_distance linalg_sqrtm mu1 sigma1 mu2 sigma2 eps
     = ([SqrtmCall prod; Printed eps;
         SqrtmCall (matmul (regularized (nrows sigma1) sigma1 eps)
                           (regularized (nrows sigma1) sigma2 eps))],
        Ok (fsub (fadd (fadd (vdot (vsub mu1 mu2) (vsub mu1 mu2)) (np_trace sigma1))
                       (np_trace sigma2))
                 (fmul (of_Z 2) (np_trace R')))))
  /\ (forall C' : list (list (F * F)),
        covmean' = ComplexArr C' ->
        (Forall (fun x => fisfinite x = true /\ fleb (fabs x) f_atol = true)
           (np_diagonal (map (map snd) C')) ->
         calculate_frechet_distance linalg_sqrtm mu1 sigma1 mu2 sigma2 eps
         = ([SqrtmCall prod; Printed eps;
             SqrtmCall (matmul (regularized (nrows sigma1) sigma1 eps)
                               (regularized (nrows sigma1) sigma2 eps))],
            Ok (fsub (fadd (fadd (vdot (vsub mu1 mu2) (vsub mu1 mu2)) (np_trace sigma1))
                           (np_trace sigma2))
                     (fmul (of_Z 2) (np_trace (map (map fst) C'))))))
        /\ (Exists (fun x => fisfinite x = false \/ fleb (fabs x) f_atol = false)
              (np_diagonal (map (map snd) C')) ->
            exists m,
              np_max (map fabs (concat (map (map snd) C'))) = Ok m
              /\ calculate_frechet_distance linalg_sqrtm mu1 sigma1 mu2 sigma2 eps
                 = ([SqrtmCall prod; Printed eps;
                     SqrtmCall (matmul (regularized (nrows sigma1) sigma1 eps)
                                       (regularized (nrows sigma1) sigma2 eps))],
                    Raise (ImaginaryComponent m)))).
Proof.
  intros Hmu Hrows Hcols Hdot Hroot Hfin Hretry.
  apply np_isfinite_all_false in Hfin.
  rewrite (calculate_frechet_distance_checked linalg_sqrtm _ _ _ _ eps Hmu Hrows Hcols).
  rewrite (stabilized_sqrtm_retry linalg_sqrtm _ _ eps Hdot Hroot Hfin).
  cbn [fst snd]. rewrite Hretry. cbn [rbind]. split.
  - intros R' ->. reflexivity.
  - intros C' ->.
    destruct (discard_imaginary_complex mu1 sigma1 mu2 sigma2 C') as [Hkept Hrefused].
    split.
    + intros Hclose. now rewrite (Hkept Hclose).
    + intros Hfar. destruct (Hrefused Hfar) as (m & Hm & Hraise).
      exists m. split; [exact Hm|]. now rewrite Hraise.
Qed.

(** ** The distance calculator on binary64 inputs *)

Local Open Scope float_scope.

(** Complex square roots with finite entries.  The product
    [diag(4, -2^-20)] has the square root [diag(2, 2^-10 j)]: [2^-10] is
    below [1e-3], and the score is computed with the trace [2] of the real
    part.  The square root of [[-2^-20, 1], [0, -2^-20]] has the imaginary
    part [-512] off the diagonal, which is not looked at, and [2^-10] on it:
    the real part, zero, is kept.  The square root of
    [[-25 * 2^-24, 1], [0, -25 * 2^-24]] has [5 * 2^-12], above [1e-3], on
    the diagonal and is refused with the magnitude [409.6] of the entry off
    the diagonal.  The last two are on either side of the tolerance: the
    square root of [diag(-1e-6, -1e-6)] has exactly [0.001] on the diagonal
    and is kept, and the one of the next product has the next binary64
    number on the diagonal and is refused. *)
Lemma complex_root_kept_or_refused_witness :
  sqrtm_triangular [[4; 0]; [0; -0x1p-20]]
  = Ok (ComplexArr [[(2, 0); (0, 0)]; [(0, 0); (0, 0x1p-10)]])
  /\ calculate_frechet_distance sqrtm_triangular
       [0; 0] [[4; 0]; [0; -0x1p-20]] [3; 4] [[1; 0]; [0; 1]] 1e-6
     = ([SqrtmCall [[4; 0]; [0; -0x1p-20]]], Ok 26.999999046325684)
  /\ sqrtm_triangular [[-0x1p-20; 1]; [0; -0x1p-20]]
     = Ok (ComplexArr [[(0, 0x1p-10); (0, -512)]; [(0, 0); (0, 0x1p-10)]])
  /\ calculate_frechet_distance sqrtm_triangular
       [0; 0] [[-0x1p-20; 1]; [0; -0x1p-20]] [0; 0] [[1; 0]; [0; 1]] 1e-6
     = ([SqrtmCall [[-0x1p-20; 1]; [0; -0x1p-20]]], Ok 1.9999980926513672)
  /\ sqrtm_triangular [[-0x19p-24; 1]; [0; -0x19p-24]]
     = Ok (ComplexArr [[(0, 0x5p-12); (0, -409.60000000000002)]; [(0, 0); (0, 0x5p-12)]])
  /\ calculate_frechet_distance sqrtm_triangular
       [0; 0] [[-0x19p-24; 1]; [0; -0x19p-24]] [0; 0] [[1; 0]; [0; 1]] 1e-6
     = ([SqrtmCall [[-0x19p-24; 1]; [0; -0x19p-24]]],
        Raise (ImaginaryComponent 409.60000000000002))
  /\ sqrtm_triangular [[-1e-6; 0]; [0; -1e-6]]
     = Ok (ComplexArr [[(0, 0.001); (0, 0)]; [(0, 0); (0, 0.001)]])
  /\ calculate_frechet_distance sqrtm_triangular
       [0; 0] [[-1e-6; 0]; [0; -1e-6]] [0; 0] [[1; 0]; [0; 1]] 1e-6
     = ([SqrtmCall [[-1e-6; 0]; [0; -1e-6]]], Ok 1.9999979999999999)
  /\ sqrtm_triangular [[-1.0000000000000004e-06; 0]; [0; -1.0000000000000004e-06]]
     = Ok (ComplexArr [[(0, 0.0010000000000000002); (0, 0)];
                       [(0, 0); (0, 0.0010000000000000002)]])
  /\ calculate_frechet_distance sqrtm_triangular
       [0; 0] [[-1.0000000000000004e-06; 0]; [0; -1.0000000000000004e-06]]
       [0; 0] [[1; 0]; [0; 1]] 1e-6
     = ([SqrtmCall [[-1.0000000000000004e-06; 0]; [0; -1.0000000000000004e-06]]],
        Raise (ImaginaryComponent 0.0010000000000000002)).
Proof.
  split; [vm_compute; reflexivity | split].
  { refine (proj1 (@complex_root_kept_or_refused float float64 sqrtm_triangular
                     [0; 0] [[4; 0]; [0; -0x1p-20]] [3; 4] [[1; 0]; [0; 1]] 1e-6
                     [[4; 0]; [0; -0x1p-20]]
                     [[(2, 0); (0, 0)]; [(0, 0); (0, 0x1p-10)]]
                     eq_refl eq_refl eq_refl eq_refl eq_refl _) _);
      repeat constructor. }
  split; [vm_compute; reflexivity | split].
  { refine (proj1 (@complex_root_kept_or_refused float float64 sqrtm_triangular
                     [0; 0] [[-0x1p-20; 1]; [0; -0x1p-20]] [0; 0] [[1; 0]; [0; 1]] 1e-6
                     [[-0x1p-20; 1]; [0; -0x1p-20]]
                     [[(0, 0x1p-10); (0, -512)]; [(0, 0); (0, 0x1p-10)]]
                     eq_refl eq_refl eq_refl eq_refl eq_refl _) _);
      repeat constructor. }
  split; [vm_compute; reflexivity | split].
  { destruct (proj2 (@complex_root_kept_or_refused float float64 sqrtm_triangular
                       [0; 0] [[-0x19p-24; 1]; [0; -0x19p-24]] [0; 0] [[1; 0]; [0; 1]] 1e-6
                       [[-0x19p-24; 1]; [0; -0x19p-24]]
                       [[(0, 0x5p-12); (0, -409.60000000000002)]; [(0, 0); (0, 0x5p-12)]]
                       eq_refl eq_refl eq_refl eq_refl eq_refl
                       ltac:(repeat constructor))
                    ltac:(apply Exists_cons_hd; right; reflexivity))
      as (m & Hm & Hcall).
    vm_compute in Hm. injection Hm as <-. exact Hcall. }
  split; [vm_compute; reflexivity | split].
  { refine (proj1 (@complex_root_kept_or_refused float float64 sqrtm_triangular
                     [0; 0] [[-1e-6; 0]; [0; -1e-6]] [0; 0] [[1; 0]; [0; 1]] 1e-6
                     [[-1e-6; 0]; [0; -1e-6]]
                     [[(0, 0.001); (0, 0)]; [(0, 0); (0, 0.001)]]
                     eq_refl eq_refl eq_refl eq_refl eq_refl _) _);
      repeat constructor. }
  split; [vm_compute; reflexivity |].
  destruct (proj2 (@complex_root_kept_or_refused float float64 sqrtm_triangular
                     [0; 0] [[-1.0000000000000004e-06; 0]; [0; -1.0000000000000004e-06]]
                     [0; 0] [[1; 0]; [0; 1]] 1e-6
                     [[-1.0000000000000004e-06; 0]; [0; -1.0000000000000004e-06]]
                     [[(0, 0.0010000000000000002); (0, 0)];
                      [(0, 0); (0, 0.0010000000000000002)]]
                     eq_refl eq_refl eq_refl eq_refl eq_refl
                     ltac:(repeat constructor))
                  ltac:(apply Exists_cons_hd; right; reflexivity))
    as (m & Hm & Hcall).
  vm_compute in Hm. injection Hm as <-. exact Hcall.
Defined.

(** C2 as stated fails for a complex square root with a non-finite entry.
    The product below has two negative diagonal entries and a large entry
    above them: its square root is complex, with imaginary parts on the
    diagonal that are not within [1e-3] of zero, and the division
    [2e307 / (2 * 0.0316j)] overflows.  By the claim the call fails; it
    prints the message instead, asks for the square root of the regularised
    product, which is real, and returns a score. *)
Lemma nonfinite_complex_root_counterexample :
  matmul [[-1e-7; 2e303]; [0; -1e-7]] [[1e4; 0]; [0; 1e4]]
  = [[-0.001; 2e307]; [0; -0.001]]
  /\ (exists C : list (list (float * float)),
        sqrtm_triangular [[-0.001; 2e307]; [0; -0.001]] = Ok (ComplexArr C)
        /\ np_isfinite_all (ComplexArr C) = false
        /\ np_allclose_zero (np_diagonal (cimag C)) = false)
  /\ calculate_frechet_distance sqrtm_triangular
       [0; 0] [[-1e-7; 2e303]; [0; -1e-7]] [0; 0] [[1e4; 0]; [0; 1e4]] 1e-6
     = ([SqrtmCall [[-0.001; 2e307]; [0; -0.001]]; Printed 1e-6;
         SqrtmCall [[0.0090000000008999999; 2.0000000002000001e+307];
                    [0; 0.0090000000008999999]]],
        Ok 19999.620526480758).
Proof.
  split; [vm_compute; reflexivity | split; [| vm_compute; reflexivity]].
  eexists. split; [vm_compute; reflexivity | split; vm_compute; reflexivity].
Qed.


(** Means [(0, 0)] and [(3, 4)] with identity covariances: the score is
    [25]. *)
Lemma frechet_distance_of_finite_real_root_witness :
  has_shape 2 2 [[1; 0]; [0; 1]]
  /\ sqrtm_small (matmul [[1; 0]; [0; 1]] [[1; 0]; [0; 1]]) = Ok (RealArr [[1; 0]; [0; 1]])
  /\ calculate_frechet_distance sqrtm_small [0; 0] [[1; 0]; [0; 1]] [3; 4] [[1; 0]; [0; 1]] 1e-6
     = ([SqrtmCall [[1; 0]; [0; 1]]], Ok 25).
Proof.
  assert (Hshape : has_shape 2 2 [[1; 0]; [0; 1]])
    by (split; [reflexivity | repeat constructor]).
  assert (Hroot : sqrtm_small (matmul [[1; 0]; [0; 1]] [[1; 0]; [0; 1]])
                  = Ok (RealArr [[1; 0]; [0; 1]]))
    by (vm_compute; reflexivity).
  split; [exact Hshape | split; [exact Hroot |]].
  exact (proj1 (@frechet_distance_of_finite_real_root float float64 sqrtm_small
                  [0; 0] [[1; 0]; [0; 1]] [3; 4] [[1; 0]; [0; 1]] 1e-6 2 _
                  eq_refl Hshape Hshape Hroot eq_refl)).
Defined.

(** C1 as stated fails where the stabilisation steps in.  Both covariances
    below are symmetric and positive semi-definite, the first of rank one:
    [2^-200 * (1, 2^-400)^T (1, 2^-400)].  Three entries of their product
    underflow to zero, which leaves a product without a square root: the
    first answer is filled with NaN, so that the unstabilised formula is NaN,
    and the call returns the score of the regularised product, which is
    negative. *)
Lemma singular_product_counterexample :
  matmul [[0x1p-200; 0x1p-600]; [0x1p-600; 0x1p-1000]]
         [[0x1p-1000; -0x1p-600]; [-0x1p-600; 0x1p-100]]
  = [[0; 0x1p-700 - 0x1p-800]; [0; 0]]
  /\ sqrtm_small [[0; 0x1p-700 - 0x1p-800]; [0; 0]] = Ok (RealArr [[nan; nan]; [nan; nan]])
  /\ snd (calculate_frechet_distance sqrtm_small
            [0; 0] [[0x1p-200; 0x1p-600]; [0x1p-600; 0x1p-1000]]
            [0; 0] [[0x1p-1000; -0x1p-600]; [-0x1p-600; 0x1p-100]] 1e-6)
     = Ok (-3.9999999999999998e-06)
  /\ spec_distance sqrtm_small
       [0; 0] [[0x1p-200; 0x1p-600]; [0x1p-600; 0x1p-1000]]
       [0; 0] [[0x1p-1000; -0x1p-600]; [-0x1p-600; 0x1p-100]] = Some nan.
Proof. repeat split; vm_compute; reflexivity. Qed.

(** The singular product again.  With the default [eps] the retry answers
    a real array, and the score is computed from it.  With [eps = 2^-20]
    and the second covariance [-(1/4 + 2^-20) * I] the regularised product
    is [[-2^-22, -1/4], [0, -2^-22]], whose square root is complex with
    [2^-11] on the diagonal: its real part, zero, is kept.  With the second
    covariance [-(16 + 2^-20) * I] the regularised product is
    [[-2^-16, -16], [0, -2^-16]], whose square root has [2^-8] on the
    diagonal and is refused. *)
Lemma retry_answer_taken_unchecked_witness :
  sqrtm_small [[0; 1]; [0; 0]] = Ok (RealArr [[nan; nan]; [nan; nan]])
  /\ calculate_frechet_distance sqrtm_small
       [0; 0] [[0; 1]; [0; 0]] [0; 0] [[1; 0]; [0; 1]] 1e-6
     = ([SqrtmCall [[0; 1]; [0; 0]]; Printed 1e-6;
         SqrtmCall [[1.0000009999999998e-06; 1.0000009999999999];
                    [0; 1.0000009999999998e-06]]],
        Ok 1.9959999980000005)
  /\ calculate_frechet_distance sqrtm_triangular
       [0; 0] [[0; 1]; [0; 0]]
       [0; 0] [[-(0x1p-2 + 0x1p-20); 0]; [0; -(0x1p-2 + 0x1p-20)]] 0x1p-20
     = ([SqrtmCall [[0; -(0x1p-2 + 0x1p-20)]; [0; 0]]; Printed 0x1p-20;
         SqrtmCall [[-0x1p-22; -0x1p-2]; [0; -0x1p-22]]],
        Ok (-(0x1p-1 + 0x1p-19)))
  /\ calculate_frechet_distance sqrtm_triangular
       [0; 0] [[0; 1]; [0; 0]]
       [0; 0] [[-(16 + 0x1p-20); 0]; [0; -(16 + 0x1p-20)]] 0x1p-20
     = ([SqrtmCall [[0; -(16 + 0x1p-20)]; [0; 0]]; Printed 0x1p-20;
         SqrtmCall [[-0x1p-16; -16]; [0; -0x1p-16]]],
        Raise (ImaginaryComponent 2048)).
Proof.
  split; [reflexivity | split; [| split]].
  - refine (proj1 (@retry_answer_taken_unchecked float float64 sqrtm_small
                     [0; 0] [[0; 1]; [0; 0]] [0; 0] [[1; 0]; [0; 1]] 1e-6
                     [[0; 1]; [0; 0]] (RealArr [[nan; nan]; [nan; nan]])
                     (RealArr [[0.0010000004999998749; 500.00024999993752];
                               [0; 0.0010000004999998749]])
                     eq_refl eq_refl eq_refl eq_refl eq_refl
                     ltac:(apply Exists_cons_hd, Exists_cons_hd; reflexivity) _) _ eq_refl).
    vm_compute; reflexivity.
  - refine (proj1 (proj2 (@retry_answer_taken_unchecked float float64 sqrtm_triangular
                     [0; 0] [[0; 1]; [0; 0]]
                     [0; 0] [[-(0x1p-2 + 0x1p-20); 0]; [0; -(0x1p-2 + 0x1p-20)]] 0x1p-20
                     [[0; -(0x1p-2 + 0x1p-20)]; [0; 0]] (RealArr [[nan; nan]; [nan; nan]])
                     (ComplexArr [[(0, 0x1p-11); (0, 256)]; [(0, 0); (0, 0x1p-11)]])
                     eq_refl eq_refl eq_refl _ _
                     ltac:(apply Exists_cons_hd, Exists_cons_hd; reflexivity) _) _ eq_refl) _).
    + vm_compute; reflexivity.
    + vm_compute; reflexivity.
    + vm_compute; reflexivity.
    + repeat constructor.
  - destruct (proj2 (proj2 (@retry_answer_taken_unchecked float float64 sqrtm_triangular
                     [0; 0] [[0; 1]; [0; 0]]
                     [0; 0] [[-(16 + 0x1p-20); 0]; [0; -(16 + 0x1p-20)]] 0x1p-20
                     [[0; -(16 + 0x1p-20)]; [0; 0]] (RealArr [[nan; nan]; [nan; nan]])
                     (ComplexArr [[(0, 0x1p-8); (0, 2048)]; [(0, 0); (0, 0x1p-8)]])
                     eq_refl eq_refl eq_refl
                     ltac:(vm_compute; reflexivity) ltac:(vm_compute; reflexivity)
                     ltac:(apply Exists_cons_hd, Exists_cons_hd; reflexivity)
                     ltac:(vm_compute; reflexivity)) _ eq_refl)
                  ltac:(apply Exists_cons_hd; right; reflexivity))
      as (m & Hm & Hcall).
    vm_compute in Hm. injection Hm as <-. exact Hcall.
Defined.

(** C4 as stated fails when the retry fails too: both products below are
    singular, both square roots are filled with NaN, and the call returns
    NaN instead of raising. *)
Lemma failed_retry_counterexample :
  sqrtm_calls (fst (calculate_frechet_distance sqrtm_small
                      [0; 0] [[0; 1]; [0; 0]] [0; 0] [[-1e-6; 1]; [0; -1e-6]] 1e-6))
  = [[[0; -1e-6]; [0; 0]]; [[0; 1e-6]; [0; 0]]]
  /\ sqrtm_small [[0; -1e-6]; [0; 0]] = Ok (RealArr [[nan; nan]; [nan; nan]])
  /\ sqrtm_small [[0; 1e-6]; [0; 0]] = Ok (RealArr [[nan; nan]; [nan; nan]])
  /\ snd (calculate_frechet_distance sqrtm_small
            [0; 0] [[0; 1]; [0; 0]] [0; 0] [[-1e-6; 1]; [0; -1e-6]] 1e-6)
     = Ok nan.
Proof. repeat split; vm_compute; reflexivity. Qed.

Local Close Scope float_scope.

(** ** The reference statistics file *)

Section ReferenceStatisticsFacts.
Context {F : Type} {SF : Scalar F} {Image : Type}.
Variable feature : Image -> vector F.
Variable uninit : nat -> vector F.
Variable mnist_train : list Image.



(** Without the file the statistics are computed from the reference
    population and saved, the covariance as [np.cov] returned it. *)
Lemma MNISTModel_init_recomputes (fs : disk F) (m : vector F) (s : matrix F) :
  fs !! stats_file = None ->
  reference_statistics feature uninit mnist_train = Ok (m, s) ->
  MNISTModel_init feature uninit mnist_train fs
  = (np_savez_arrays fs stats_file (NpyVector m) (cov_squeeze s),
     Ok (NpyVector m, cov_squeeze s)).
Proof.
  intros Hfile Hstats. unfold MNISTModel_init, np_load.
  now rewrite Hfile, Hstats.
Qed.

(** What [np.savez] wrote is what the next call reads: it loads a 1-D mean
    with a covariance of one or two dimensions, and raises on a 0-D
    covariance. *)
Lemma MNISTModel_init_after_savez (fs : disk F) (m : vector F) (s : npy F) :
  MNISTModel_init feature uninit mnist_train (np_savez_arrays fs stats_file (NpyVector m) s)
  = (np_savez_arrays fs stats_file (NpyVector m) s,
     match s with
     | NpyScalar _ => Raise (IndexError "too many indices for array")
     | _ => Ok (NpyVector m, s)
     end).
Proof.
  unfold MNISTModel_init, np_load, getitem, np_savez_arrays.
  rewrite lookup_insert_eq, lookup_insert_eq. cbn [rbind getslice_all].
  rewrite lookup_insert_ne by discriminate. rewrite lookup_insert_eq.
  now destruct s.
Qed.

Lemma MNISTModel_init_after_save (fs : disk F) (m : vector F) (s : matrix F) :
  MNISTModel_init feature uninit mnist_train (np_savez fs stats_file m s)
  = (np_savez fs stats_file m s, Ok (NpyVector m, NpyMatrix s)).
Proof. unfold np_savez. now rewrite MNISTModel_init_after_savez. Qed.


End ReferenceStatisticsFacts.


Local Open Scope float_scope.



Local Close Scope float_scope.


(** ** The scoring loops *)

Section BufferFacts.
Context {F : Type}.
Variable uninit : nat -> vector F.

(** Allocating when there is no buffer yet, or taking the one there is,
    gives the written rows followed by the rest. *)
Lemma holds_rows_buffer (n : nat) (features : option (matrix F))
    (written rest : matrix F) :
  holds_rows uninit n features written rest ->
  match features with
  | None => np_empty uninit (Z.of_nat n)
  | Some a => Ok a
  end = Ok (F:=F) (written ++ rest).
Proof.
  intros [_ Hbuf]. destruct features as [a|].
  - now subst a.
  - destruct Hbuf as [-> ->]. unfold np_empty.
    destruct (Z.ltb_spec (Z.of_nat n) 0) as [Hneg|_]; [lia|].
    now rewrite Nat2Z.id.
Qed.

(** Writing up to the end of the buffer. *)
Lemma assign_rows_to_end (written rest value : matrix F) :
  length value = length rest ->
  assign_rows (F:=F) (written ++ rest) (length written)
    (length (written ++ rest)) value
  = Ok (written ++ value).
Proof.
  intros Hlen. rewrite length_app, <- Hlen.
  rewrite assign_rows_behind by lia.
  now rewrite drop_ge, app_nil_r by lia.
Qed.

End BufferFacts.

Section GeneratorFacts.
Context {F Image Latent : Type}.
Variable feature : Image -> vector F.
Variable uninit : nat -> vector F.
Variable normal_ : nat -> nat -> Latent.
Variable data_generator : list Latent -> list Image.
Variables n_samples batch_size : nat.

Hypothesis batch_size_positive : 0 < batch_size.
Hypothesis generator_keeps_rows : forall z, length (data_generator z) = length z.

Lemma length_generated_batch (it : nat) :
  length (generated_batch feature normal_ data_generator batch_size it) = batch_size.
Proof.
  unfold generated_batch.
  now rewrite length_map, generator_keeps_rows, length_map, length_seq.
Qed.

Lemma length_generated_rows (it k : nat) :
  length (generated_rows feature normal_ data_generator batch_size it k)
  = k * batch_size.
Proof.
  revert it. induction k as [|k IH]; intros it; cbn [generated_rows]; [reflexivity|].
  rewrite length_app, length_generated_batch, IH. lia.
Qed.

Lemma get_feature_generated (it : nat) :
  get_feature (F:=F) feature (data_generator (map (normal_ it) (seq 0 batch_size)))
  = Ok (generated_batch feature normal_ data_generator batch_size it).
Proof.
  unfold get_feature, reshape_rows.
  rewrite generator_keeps_rows, length_map, length_seq.
  destruct (Nat.eqb_spec batch_size 0) as [Hz|_]; [lia | reflexivity].
Qed.

(** A pass with room for a whole batch writes the batch. *)
Lemma generator_step_whole (it : nat) (features : option (matrix F))
    (written rest : matrix F) :
  holds_rows uninit n_samples features written rest ->
  batch_size <= length rest ->
  generator_step feature uninit normal_ data_generator n_samples batch_size it
    {| gen_count := length written; gen_batch_size := batch_size;
       gen_features := features |}
  = Ok {| gen_count := length written + batch_size;
          gen_batch_size := batch_size;
          gen_features :=
            Some ((written ++ generated_batch feature normal_ data_generator batch_size it)
                  ++ skipn batch_size rest) |}.
Proof.
  intros Hbuf Hroom. unfold generator_step. cbn [gen_count gen_batch_size gen_features].
  rewrite get_feature_generated. cbn [rbind].
  rewrite (holds_rows_buffer Hbuf). cbn [rbind].
  destruct Hbuf as [Hn _].
  destruct (Nat.ltb_spec n_samples (length written + batch_size)) as [Hlt|_]; [lia|].
  rewrite <- (length_generated_batch it) at 1.
  rewrite assign_rows_behind by (rewrite length_generated_batch; lia).
  cbn [rbind]. now rewrite length_generated_batch, <- app_assoc.
Qed.

(** A pass with less room than a batch writes the head of the batch and
    fills the buffer. *)
Lemma generator_step_truncated (it : nat) (features : option (matrix F))
    (written rest : matrix F) :
  holds_rows uninit n_samples features written rest ->
  length rest < batch_size ->
  generator_step feature uninit normal_ data_generator n_samples batch_size it
    {| gen_count := length written; gen_batch_size := batch_size;
       gen_features := features |}
  = Ok {| gen_count := n_samples;
          gen_batch_size := length rest;
          gen_features :=
            Some (written
                  ++ firstn (length rest)
                       (generated_batch feature normal_ data_generator batch_size it)) |}.
Proof.
  intros Hbuf Hroom. unfold generator_step. cbn [gen_count gen_batch_size gen_features].
  rewrite get_feature_generated. cbn [rbind].
  rewrite (holds_rows_buffer Hbuf). cbn [rbind].
  destruct Hbuf as [Hn _].
  destruct (Nat.ltb_spec n_samples (length written + batch_size)) as [_|Hge]; [|lia].
  replace (n_samples - length written) with (length rest) by lia.
  rewrite assign_rows_to_end
    by (rewrite length_take, length_generated_batch; lia).
  cbn [rbind]. do 2 f_equal. lia.
Qed.

(** The loop fills what is left of the buffer with the head of the rows
    generated from pass [it] on; [length rest] passes are enough. *)
Lemma generator_loop_fills (fuel : nat) :
  forall (it k : nat) (features : option (matrix F)) (written rest : matrix F),
    holds_rows uninit n_samples features written rest ->
    length rest <= fuel ->
    length rest <= k * batch_size ->
    option_map (rmap gen_features)
      (generator_loop feature uninit normal_ data_generator fuel n_samples batch_size it
         {| gen_count := length written; gen_batch_size := batch_size;
            gen_features := features |})
    = Some (Ok (match rest with
                | [] => features
                | _ => Some (written
                             ++ firstn (length rest)
                                  (generated_rows feature normal_ data_generator
                                     batch_size it k))
                end)).
Proof.
  induction fuel as [|fuel IH]; intros it k features written rest Hbuf Hfuel Hk.
  - destruct rest; [|cbn in Hfuel; lia].
    destruct Hbuf as [Hn _]. cbn [length] in Hn.
    cbn [generator_loop gen_count].
    destruct (Nat.ltb_spec (length written) n_samples); [lia | reflexivity].
  - cbn [generator_loop gen_count].
    destruct (Nat.ltb_spec (length written) n_samples) as [Hlt|Hge].
    2:{ destruct rest; [reflexivity|]. destruct Hbuf as [Hn _]. cbn [length] in Hn. lia. }
    assert (Hrest : rest <> []).
    { intros ->. destruct Hbuf as [Hn _]. cbn [length] in Hn. lia. }
    destruct k as [|k].
    { destruct rest; [congruence | cbn in Hk; lia]. }
    cbn [generated_rows].
    destruct (Nat.le_gt_cases batch_size (length rest)) as [Hwhole|Htrunc].
    + rewrite (generator_step_whole it Hbuf Hwhole).
      replace (length written + batch_size)
        with (length (written
                      ++ generated_batch feature normal_ data_generator batch_size it))
        by (now rewrite length_app, length_generated_batch).
      rewrite (IH (S it) k _
                 (written ++ generated_batch feature normal_ data_generator batch_size it)
                 (skipn batch_size rest)); cycle 1.
      * split; [|reflexivity]. destruct Hbuf as [Hn _].
        rewrite length_app, length_drop, length_generated_batch. lia.
      * rewrite length_drop. lia.
      * rewrite length_drop. cbn [Nat.mul] in Hk. lia.
      * destruct rest as [|r rest]; [congruence|].
        do 2 f_equal.
        rewrite (take_app (generated_batch feature normal_ data_generator batch_size it)),
          length_generated_batch.
        rewrite (take_ge (generated_batch feature normal_ data_generator batch_size it))
          by (rewrite length_generated_batch; exact Hwhole).
        destruct (skipn batch_size (r :: rest)) as [|r' rest'] eqn:Hdrop.
        -- assert (Hlen : length (r :: rest) = batch_size).
           { apply (f_equal (@length _)) in Hdrop.
             rewrite length_drop in Hdrop. cbn [length] in *. lia. }
           rewrite Hlen, Nat.sub_diag, take_0, !app_nil_r.
           reflexivity.
        -- rewrite <- Hdrop, length_drop, <- app_assoc. reflexivity.
    + rewrite (generator_step_truncated it Hbuf Htrunc).
      destruct fuel as [|fuel']; cbn [generator_loop gen_count];
        rewrite Nat.ltb_irrefl; cbn [option_map rmap rbind gen_features].
      * destruct rest; [congruence|].
        rewrite take_app_le by (rewrite length_generated_batch; lia). reflexivity.
      * destruct rest; [congruence|].
        rewrite take_app_le by (rewrite length_generated_batch; lia). reflexivity.
Qed.

(** With a positive budget the loop leaves exactly [n_samples] rows: the
    head of the generated rows, the last batch cut to fit. *)
Lemma generator_features_full :
  0 < n_samples ->
  generator_features feature uninit normal_ data_generator n_samples batch_size
  = Some (Ok (Some (firstn n_samples
                      (generated_rows feature normal_ data_generator
                         batch_size 0 n_samples)))).
Proof.
  intros Hpos. unfold generator_features.
  pose proof (@generator_loop_fills n_samples 0 n_samples None []
                (map uninit (seq 0 n_samples))) as Hloop.
  cbn [length app] in Hloop.
  rewrite length_map, length_seq in Hloop.
  rewrite Hloop; [| split; [now rewrite length_map, length_seq | now split] | lia | nia].
  destruct n_samples; [lia | reflexivity].
Qed.

End GeneratorFacts.

Section DataLoaderFacts.
Context {A : Type}.

Lemma length_full_batches (k batch_size : nat) (data : list A) :
  length (full_batches k batch_size data) = k.
Proof.
  revert data. induction k as [|k IH]; intros data; cbn [full_batches length];
    [reflexivity | now rewrite IH].
Qed.

Lemma full_batches_sizes (k batch_size : nat) (data : list A) :
  k * batch_size <= length data ->
  Forall (fun b => length b = batch_size) (full_batches k batch_size data).
Proof.
  revert data. induction k as [|k IH]; intros data Hroom; cbn [full_batches];
    constructor.
  - rewrite length_take. cbn [Nat.mul] in Hroom. lia.
  - apply IH. rewrite length_drop. cbn [Nat.mul] in Hroom. lia.
Qed.

Lemma concat_full_batches (k batch_size : nat) (data : list A) :
  concat (full_batches k batch_size data) = firstn (k * batch_size) data.
Proof.
  revert data. induction k as [|k IH]; intros data; cbn [full_batches concat Nat.mul];
    [reflexivity|].
  now rewrite IH, take_take_drop.
Qed.

(** With [drop_last] the loader yields the whole batches only. *)
Lemma DataLoader_drop_last {F} (data : list A) (batch_size : nat) :
  0 < batch_size ->
  DataLoader (F:=F) data batch_size true
  = Ok (full_batches (length data / batch_size) batch_size data).
Proof.
  intros Hpos. unfold DataLoader.
  destruct (Nat.eqb_spec batch_size 0) as [Hz|_]; [lia|].
  cbn [orb]. now rewrite app_nil_r.
Qed.

End DataLoaderFacts.

Section ImputerFacts.
Context {F Image Noise Mask Sample : Type}.
Variable feature : Image -> vector F.
Variable uninit : nat -> vector F.
Variable sample_data : Sample -> Image.
Variable sample_mask : Sample -> Mask.
Variable uniform_ : nat -> nat -> Noise.
Variable imputer : list Image -> list Mask -> list Noise -> list Image.
Variable batch_size : nat.

Hypothesis batch_size_positive : 0 < batch_size.
Hypothesis imputer_keeps_rows :
  forall real_data real_mask noise, length (imputer real_data real_mask noise) = length real_data.

Lemma length_imputed_rows (it : nat) (batches : list (list Sample)) :
  Forall (fun b => length b = batch_size) batches ->
  length (imputed_rows feature sample_data sample_mask uniform_ imputer
            batch_size it batches)
  = length batches * batch_size.
Proof.
  intros Hsizes. revert it.
  induction Hsizes as [|batch more Hb _ IH]; intros it; cbn [imputed_rows length Nat.mul];
    [reflexivity|].
  now rewrite length_app, !length_map, imputer_keeps_rows, length_map, Hb, IH.
Qed.

(** The loop writes the imputed batches behind the rows written so far. *)
Lemma imputer_loop_fills (n_samples : nat) (batches : list (list Sample)) :
  forall (it : nat) (features : option (matrix F)) (written rest : matrix F),
    holds_rows uninit n_samples features written rest ->
    Forall (fun b => length b = batch_size) batches ->
    length batches * batch_size <= length rest ->
    imputer_loop feature uninit sample_data sample_mask uniform_ imputer
      n_samples batch_size it batches (length written) features
    = Ok (match batches with
          | [] => features
          | _ => Some (written
                       ++ imputed_rows feature sample_data sample_mask uniform_ imputer
                            batch_size it batches
                       ++ skipn (length batches * batch_size) rest)
          end).
Proof.
  induction batches as [|batch more IH]; intros it features written rest Hbuf Hsizes Hroom;
    [reflexivity|].
  inversion Hsizes as [|? ? Hb Hmore]; subst.
  cbn [length Nat.mul] in Hroom.
  cbn [imputer_loop imputed_rows].
  set (bf := map feature
               (imputer (map sample_data batch) (map sample_mask batch)
                  (map (uniform_ it) (seq 0 (length batch))))).
  assert (Hbf : @length (list F) bf = length batch).
  { unfold bf. now rewrite length_map, imputer_keeps_rows, length_map. }
  unfold get_feature, reshape_rows.
  rewrite imputer_keeps_rows, length_map.
  destruct (Nat.eqb_spec (length batch) 0) as [Hz|_]; [lia|].
  cbn [rbind]. fold bf.
  rewrite (holds_rows_buffer Hbuf). cbn [rbind].
  rewrite <- Hbf at 1.
  rewrite assign_rows_behind by lia.
  cbn [rbind]. rewrite Hbf.
  replace (length written + length batch) with (length (written ++ bf))
    by (rewrite length_app; lia).
  rewrite app_assoc.
  rewrite (IH (S it) _ (written ++ bf) (skipn (length batch) rest)); cycle 1.
  - split; [|reflexivity]. destruct Hbuf as [Hn _].
    rewrite length_app, length_drop. lia.
  - assumption.
  - rewrite length_drop. lia.
  - f_equal. destruct more as [|b more].
    + cbn [imputed_rows length Nat.mul].
      now rewrite !app_nil_r, Nat.add_0_r, <- app_assoc.
    + rewrite drop_drop, <- !app_assoc. cbn [length Nat.mul]. reflexivity.
Qed.

(** The loop of [imputer_fid] leaves the rows of the whole batches, and no
    buffer when the data hold no whole batch. *)
Lemma imputer_features_whole_batches (data : list Sample) :
  imputer_features (F:=F) feature uninit sample_data sample_mask uniform_ imputer
    data batch_size
  = Ok (if Nat.eqb (length data / batch_size) 0 then None
        else Some (imputed_rows feature sample_data sample_mask uniform_ imputer
                     batch_size 0
                     (full_batches (length data / batch_size) batch_size data))).
Proof.
  unfold imputer_features.
  rewrite (DataLoader_drop_last data batch_size_positive). cbn [rbind].
  rewrite length_full_batches.
  set (k := length data / batch_size).
  assert (Hk : k * batch_size <= length data).
  { unfold k. rewrite Nat.mul_comm. apply Nat.Div0.mul_div_le. }
  pose proof (@imputer_loop_fills (k * batch_size) (full_batches k batch_size data) 0 None []
                (map uninit (seq 0 (k * batch_size)))) as Hloop.
  cbn [length app] in Hloop. rewrite Hloop; cycle 1.
  - split; [now rewrite length_map, length_seq | now split].
  - now apply full_batches_sizes.
  - now rewrite length_full_batches, length_map, length_seq.
  - f_equal. destruct k as [|k]; [reflexivity|].
    cbn [full_batches Nat.eqb].
    rewrite (drop_ge (map uninit _)); [now rewrite app_nil_r|].
    rewrite length_map, length_seq. cbn [length].
    now rewrite length_full_batches.
Qed.

End ImputerFacts.

(** C8 (as amended): with a positive sample budget and batch size, a
    generator and an imputer that return one image per row they are given,
    and reference statistics at hand, neither loop ends early.  The
    generator loop leaves exactly [n_samples] rows, the head of the rows it
    generated with the last batch cut to fit, and the score is computed from
    them.  The imputation loop leaves the rows of the whole batches of the
    population, [(len(data) // batch_size) * batch_size] of them, which are
    its first samples in order, and the score is computed from those; the
    samples of a short last batch are not used. *)
Theorem scoring_loops_fill_their_buffers {F : Type} {SF : Scalar F}
    {Image Latent Noise Mask Sample : Type}
    (feature : Image -> vector F) (uninit : nat -> vector F)
    (linalg_sqrtm : matrix F -> result F (ndarray F)) (mnist_train : list Image)
    (normal_ : nat -> nat -> Latent) (data_generator : list Latent -> list Image)
    (sample_data : Sample -> Image) (sample_mask : Sample -> Mask)
    (uniform_ : nat -> nat -> Noise)
    (imputer : list Image -> list Mask -> list Noise -> list Image)
    (fs fs' : disk F) (mnist_stats : npy F * npy F)
    (n_samples batch_size : nat) (data : list Sample) :
  0 < n_samples ->
  0 < batch_size ->
  (forall z, length (data_generator z) = length z) ->
  (forall real_data real_mask noise,
     length (imputer real_data real_mask noise) = length real_data) ->
  MNISTModel_init feature uninit mnist_train fs = (fs', Ok mnist_stats) ->
  let generated :=
    firstn n_samples
      (generated_rows feature normal_ data_generator batch_size 0 n_samples) in
  let whole := length data / batch_size in
  let imputed :=
    imputed_rows feature sample_data sample_mask uniform_ imputer batch_size 0
      (full_batches whole batch_size data) in
  (generator_features feature uninit normal_ data_generator n_samples batch_size
   = Some (Ok (Some generated))
   /\ length generated = n_samples
   /\ data_generator_fid feature uninit linalg_sqrtm mnist_train normal_ data_generator
        fs n_samples batch_size
      = (fs', Some (fid linalg_sqrtm mnist_stats (Some generated))))
  /\ (imputer_features (F:=F) feature uninit sample_data sample_mask uniform_ imputer
        data batch_size
      = Ok (if Nat.eqb whole 0 then None else Some imputed)
      /\ length imputed = whole * batch_size
      /\ concat (full_batches whole batch_size data) = firstn (whole * batch_size) data
      /\ imputer_fid feature uninit linalg_sqrtm mnist_train sample_data sample_mask
           uniform_ imputer fs data batch_size
         = (fs', fid linalg_sqrtm mnist_stats
                   (if Nat.eqb whole 0 then None else Some imputed))).
Proof.
  intros Hn Hb Hgen Himp Hinit generated whole imputed.
  assert (Hwhole : whole * batch_size <= length data).
  { unfold whole. rewrite Nat.mul_comm. apply Nat.Div0.mul_div_le. }
  pose proof (generator_features_full feature uninit normal_ data_generator
                Hb Hgen Hn) as Hfeatures.
  pose proof (imputer_features_whole_batches feature uninit sample_data sample_mask
                uniform_ imputer Hb Himp data) as Himputed.
  split; [split; [| split] | split; [| split; [| split]]].
  - exact Hfeatures.
  - unfold generated.
    rewrite length_take, (length_generated_rows feature normal_ data_generator Hb Hgen).
    nia.
  - unfold data_generator_fid. rewrite Hinit, Hfeatures. reflexivity.
  - exact Himputed.
  - unfold imputed.
    rewrite (length_imputed_rows feature sample_data sample_mask uniform_ imputer Himp).
    + now rewrite length_full_batches.
    + now apply full_batches_sizes.
  - apply concat_full_batches.
  - unfold imputer_fid. rewrite Hinit, Himputed. reflexivity.
Qed.

Local Open Scope float_scope.

(** Three generated samples in batches of two, and five samples to impute
    in batches of two. *)
Lemma scoring_loops_fill_their_buffers_witness :
  generator_features (F:=float) toy_feature toy_uninit toy_normal toy_generator 3 2
  = Some (Ok (Some [toy_feature 0; toy_feature 1; toy_feature 10]))
  /\ imputer_features (F:=float) toy_feature toy_uninit toy_sample_data toy_sample_mask
       toy_uniform toy_imputer [1; 2; 3; 4; 5]%Z 2
     = Ok (Some [toy_feature 1; toy_feature 2; toy_feature 3; toy_feature 4]).
Proof.
  destruct (@scoring_loops_fill_their_buffers float float64 Z Z unit unit Z
              toy_feature toy_uninit sqrtm_small [1; 2; 3]%Z
              toy_normal toy_generator toy_sample_data toy_sample_mask
              toy_uniform toy_imputer
              ∅ _ _ 3%nat 2%nat [1; 2; 3; 4; 5]%Z
              ltac:(lia) ltac:(lia) (fun z => eq_refl) (fun d m z => eq_refl) eq_refl)
    as [[Hgenerated _] [Himputed _]].
  split; [exact Hgenerated | exact Himputed].
Defined.

(** C8 as stated fails for the imputation path when the batch size does not
    divide the population: of three samples in batches of two, the loop
    leaves two rows, and the third sample is never imputed. *)
Lemma imputer_drops_short_batch_counterexample :
  length [1; 2; 3]%Z = 3%nat
  /\ imputer_features (F:=float) toy_feature toy_uninit toy_sample_data toy_sample_mask
       toy_uniform toy_imputer [1; 2; 3]%Z 2
     = Ok (Some [toy_feature 1; toy_feature 2]).
Proof. split; reflexivity. Qed.

Local Close Scope float_scope.

(** ** Exact arithmetic *)

(** The operations of the [exact] instance are those of [Qc]. *)
Ltac exact_ops :=
  change (@fadd Qc exact) with Qcplus in *;
  change (@fsub Qc exact) with Qcminus in *;
  change (@fmul Qc exact) with Qcmult in *;
  change (@fdiv Qc exact) with Qcdiv in *;
  change (@f0 Qc exact) with (Q2Qc 0) in *;
  change (@f1 Qc exact) with (Q2Qc 1) in *;
  change (@fleb Qc exact) with Qc_leb in *;
  change (@feqb Qc exact) with Qc_eqb in *.

Section ExactFacts.
Local Open Scope Qc_scope.

Lemma fold_left_Qcplus (g : Qc -> Qc) (l : list Qc) (a : Qc) :
  fold_left (fun acc x => acc + g x) l a = a + Qc_sum (map g l).
Proof.
  revert a. induction l as [|x l IH]; intros a; cbn [fold_left map Qc_sum fold_right].
  - ring.
  - rewrite IH. unfold Qc_sum. ring.
Qed.

Lemma np_sum_exact (v : vector Qc) : np_sum v = Qc_sum v.
Proof.
  destruct v as [|x v]; [reflexivity|]. cbn [np_sum]. exact_ops.
  rewrite (fold_left_Qcplus (fun x => x)), map_id.
  reflexivity.
Qed.

Lemma vdot_exact (x y : vector Qc) :
  vdot x y = Qc_sum (map (fun p => fst p * snd p) (combine x y)).
Proof.
  unfold vdot. exact_ops.
  generalize (combine x y) as l. intros l.
  assert (H : forall a, fold_left (fun acc p => acc + fst p * snd p) l a
                        = a + Qc_sum (map (fun p => fst p * snd p) l)).
  { induction l as [|p l IH]; intros a; cbn [fold_left map Qc_sum fold_right].
    - ring.
    - rewrite IH. unfold Qc_sum. ring. }
  rewrite H. ring.
Qed.

Lemma vdot_comm (x y : vector Qc) : vdot x y = vdot y x.
Proof.
  rewrite !vdot_exact. revert y.
  induction x as [|a x IH]; intros [|b y]; cbn [combine map Qc_sum fold_right fst snd];
    try reflexivity.
  unfold Qc_sum in IH. rewrite IH. ring.
Qed.

Lemma Qc_sum_scale (c : Qc) (l : list Qc) :
  Qc_sum (map (fun x => x * c) l) = Qc_sum l * c.
Proof.
  induction l as [|x l IH]; cbn [map Qc_sum fold_right]; [ring|].
  unfold Qc_sum in IH. rewrite IH. ring.
Qed.

Lemma Qc_of_nat_S (n : nat) : Qc_of_nat (S n) = Qc_of_nat n + 1.
Proof.
  unfold Qc_of_nat, Qcplus. apply Q2Qc_eq_iff.
  rewrite Nat2Z.inj_succ, <- Z.add_1_r, inject_Z_plus.
  cbn [this Q2Qc]. now rewrite !Qred_correct.
Qed.

Lemma Qc_of_nat_pos (n : nat) : (0 < n)%nat -> 0 < Qc_of_nat n.
Proof.
  intros Hn. unfold Qclt, Qc_of_nat. cbn [this Q2Qc].
  rewrite !Qred_correct. unfold Qlt. cbn. lia.
Qed.

Lemma Qc_sum_repeat (c : Qc) (n : nat) : Qc_sum (repeat c n) = Qc_of_nat n * c.
Proof.
  induction n as [|n IH]; cbn [repeat Qc_sum fold_right].
  - change (Qc_of_nat 0) with (Q2Qc 0). ring.
  - unfold Qc_sum in IH. rewrite IH, Qc_of_nat_S. ring.
Qed.

Lemma vmul_repeat (c : Qc) (n : nat) (x : vector Qc) :
  (length x <= n)%nat -> vmul x (repeat c n) = map (fun a => a * c) x.
Proof.
  revert n. induction x as [|a x IH]; intros n Hlen; [reflexivity|].
  destruct n as [|n]; [cbn in Hlen; lia|].
  cbn [vmul repeat combine map fst snd]. exact_ops.
  f_equal. apply IH. cbn in Hlen. lia.
Qed.

Lemma vdot_scale_r (c : Qc) (x y : vector Qc) :
  vdot x (map (fun a => a * c) y) = vdot x y * c.
Proof.
  rewrite !vdot_exact. revert y.
  induction x as [|a x IH]; intros [|b y]; cbn [combine map Qc_sum fold_right fst snd];
    try ring.
  unfold Qc_sum in IH. rewrite IH. ring.
Qed.

Lemma Qc_leb_false (x : Qc) : 0 < x -> Qc_leb x 0 = false.
Proof.
  intros Hpos. unfold Qc_leb.
  destruct (Qle_bool _ _) eqn:Hle; [|reflexivity].
  apply Qle_bool_iff in Hle. exfalso.
  exact (Qclt_not_le _ _ Hpos Hle).
Qed.

Lemma Qc_eqb_false (x : Qc) : x <> 0 -> Qc_eqb x 0 = false.
Proof.
  intros Hne. unfold Qc_eqb.
  destruct (Qeq_bool _ _) eqn:Heq; [|reflexivity].
  apply Qeq_bool_iff in Heq. exfalso. apply Hne.
  now apply Qc_is_canon.
Qed.

Lemma Qc_pos_nonzero (x : Qc) : 0 < x -> x <> 0.
Proof. intros Hpos Heq. subst x. exact (Qclt_not_le _ _ Hpos (Qcle_refl _)). Qed.

Lemma Qc_mul_pos (x y : Qc) : 0 < x -> 0 < y -> 0 < x * y.
Proof.
  intros Hx Hy. rewrite <- (Qcmult_0_l y).
  now apply Qcmult_lt_compat_r.
Qed.

End ExactFacts.

(** ** Uniform weights in exact arithmetic *)

Section ExactMoments.
Local Open Scope Qc_scope.
Variable c : Qc.
Variable N : nat.
Hypothesis c_positive : 0 < c.
Hypothesis two_samples : (2 <= N)%nat.

Lemma In_transpose_length (M : matrix Qc) (column : vector Qc) :
  In column (transpose M) -> length column = nrows M.
Proof.
  unfold transpose, transpose_of. rewrite in_map_iff.
  intros (j & <- & _). unfold col_of, nrows. apply length_map.
Qed.

Lemma ncols_transpose (M : matrix Qc) :
  transpose M <> [] -> ncols (transpose M) = nrows M.
Proof.
  intros Hne. unfold ncols.
  destruct (transpose M) as [|column X] eqn:HX; [congruence|].
  apply In_transpose_length. rewrite HX. now left.
Qed.

Lemma uniform_sum_nonzero : Qc_of_nat N * c <> 0.
Proof.
  apply Qc_pos_nonzero, Qc_mul_pos; [apply Qc_of_nat_pos; lia | exact c_positive].
Qed.

(** The weighted average of [N] numbers with the weight [c] on each is
    their mean. *)
Lemma uniform_average (x : vector Qc) :
  length x = N ->
  fdiv (np_sum (vmul x (repeat c N))) (np_sum (repeat c N))
  = fdiv (np_sum x) (of_Z (Z.of_nat N)).
Proof.
  intros Hlen. exact_ops.
  change (@of_Z Qc exact (Z.of_nat N)) with (Qc_of_nat N).
  rewrite !np_sum_exact, vmul_repeat, Qc_sum_scale, Qc_sum_repeat by lia.
  pose proof (Qc_pos_nonzero c_positive) as Hc.
  assert (HN : Qc_of_nat N <> 0) by (apply Qc_pos_nonzero, Qc_of_nat_pos; lia).
  field. now split.
Qed.

Lemma np_average_uniform (act : matrix Qc) :
  nrows act = N ->
  np_average_axis0 act (repeat c N) = Ok (np_mean_axis0 act).
Proof.
  intros Hrows. unfold np_average_axis0, np_mean_axis0.
  rewrite repeat_length, Hrows, Nat.eqb_refl. cbn [negb].
  exact_ops. rewrite np_sum_exact, Qc_sum_repeat.
  rewrite (Qc_eqb_false uniform_sum_nonzero).
  f_equal. apply map_ext_in. intros column Hin.
  rewrite <- Qc_sum_repeat, <- (np_sum_exact (repeat c N)).
  apply (uniform_average column).
  rewrite (In_transpose_length _ _ Hin). exact Hrows.
Qed.

(** The normalisation of [np.cov]: [N - 1] without weights, and [c] times
    that with the weight [c] on each sample. *)
Lemma cov_fact_unweighted : cov_fact N None = Qc_of_nat (N - 1).
Proof.
  unfold cov_fact.
  destruct (Z.leb_spec (Z.of_nat N - 1) 0) as [Hle|_]; [lia|].
  unfold Qc_of_nat. cbn [of_Z exact]. do 2 f_equal. lia.
Qed.

Lemma cov_fact_uniform : cov_fact N (Some (repeat c N)) = Qc_of_nat (N - 1) * c.
Proof.
  unfold cov_fact. exact_ops.
  change (@of_Z Qc exact 1) with (Q2Qc 1).
  rewrite !np_sum_exact, vmul_repeat, Qc_sum_scale, Qc_sum_repeat
    by (rewrite repeat_length; lia).
  assert (HN : Qc_of_nat N = Qc_of_nat (N - 1) + 1).
  { rewrite <- Qc_of_nat_S. f_equal. lia. }
  rewrite HN.
  assert (Hm : 0 < Qc_of_nat (N - 1)) by (apply Qc_of_nat_pos; lia).
  pose proof (Qc_pos_nonzero c_positive) as Hc.
  assert (Hsum : Qc_of_nat (N - 1) + 1 <> 0).
  { rewrite <- Qc_of_nat_S. apply Qc_pos_nonzero, Qc_of_nat_pos. lia. }
  assert (Hfact : (Qc_of_nat (N - 1) + 1) * c
                  - 1 * ((Qc_of_nat (N - 1) + 1) * c * c) / ((Qc_of_nat (N - 1) + 1) * c)
                  = Qc_of_nat (N - 1) * c)
    by (field; now split).
  rewrite Hfact.
  now rewrite (Qc_leb_false (Qc_mul_pos Hm c_positive)).
Qed.

Lemma existsb_repeat_false {A} (p : A -> bool) (a : A) (n : nat) :
  p a = false -> existsb p (repeat a n) = false.
Proof.
  intros Hp. induction n as [|n IH]; cbn [repeat existsb]; [reflexivity|].
  now rewrite Hp, IH.
Qed.

Lemma np_cov_uniform (act : matrix Qc) :
  nrows act = N ->
  np_cov_rowvar_false act (Some (repeat c N)) = np_cov_rowvar_false act None.
Proof.
  intros Hrows. unfold np_cov_rowvar_false.
  rewrite Hrows.
  destruct (Nat.eqb_spec N 1) as [H1|_]; [lia|].
  destruct (Nat.eqb_spec (nrows (transpose act)) 0) as [_|HX]; [reflexivity|].
  assert (Hcols : ncols (transpose act) = N).
  { rewrite ncols_transpose; [exact Hrows|].
    intros Hnil. rewrite Hnil in HX. now apply HX. }
  rewrite Hcols, repeat_length, Nat.eqb_refl. cbn [negb].
  rewrite existsb_repeat_false; cycle 1.
  { unfold fltb. exact_ops. now rewrite (Qc_leb_false c_positive). }
  exact_ops. rewrite (np_sum_exact (repeat c N)), Qc_sum_repeat.
  rewrite (Qc_eqb_false uniform_sum_nonzero).
  rewrite <- Qc_sum_repeat, <- (np_sum_exact (repeat c N)).
  assert (Havg : map (fun row => Qcdiv (np_sum (vmul row (repeat c N))) (np_sum (repeat c N)))
                   (transpose act)
                 = map (fun row => Qcdiv (np_sum row) (of_Z (Z.of_nat N))) (transpose act)).
  { apply map_ext_in. intros row Hin.
    apply (uniform_average row).
    rewrite (In_transpose_length _ _ Hin). exact Hrows. }
  rewrite Havg. cbn [rbind].
  rewrite cov_fact_uniform, cov_fact_unweighted.
  set (avg := map (fun row => Qcdiv (np_sum row) (of_Z (Z.of_nat N))) (transpose act)).
  set (Xc := map (fun p : list Qc * Qc => map (fun x => Qcminus x (snd p)) (fst p))
               (combine (transpose act) avg)).
  assert (HXc : forall row, In row Xc -> length row = N).
  { intros row Hin. unfold Xc in Hin. apply in_map_iff in Hin.
    destruct Hin as ([row' a] & <- & Hin). cbn [fst snd].
    rewrite length_map. apply in_combine_l in Hin.
    rewrite (In_transpose_length _ _ Hin). exact Hrows. }
  f_equal. apply map_ext_in. intros ri _.
  rewrite map_map. apply map_ext_in. intros rj Hrj.
  rewrite vmul_repeat by (rewrite (HXc rj Hrj); lia).
  rewrite vdot_scale_r.
  change (@of_Z Qc exact 1) with (Q2Qc 1).
  assert (Hm : Qc_of_nat (N - 1) <> 0) by (apply Qc_pos_nonzero, Qc_of_nat_pos; lia).
  pose proof (Qc_pos_nonzero c_positive) as Hc.
  field. now split.
Qed.

End ExactMoments.

(** C6 (as amended): in exact arithmetic, for a feature matrix of at least
    two rows and a weight vector with one and the same positive weight on
    every row, the weighted mean vector and covariance matrix are those of
    the unweighted estimation, on the matrix itself and through
    [calculate_activation_statistics]. *)
Theorem uniform_weights_match_unweighted (act : matrix Qc) (c : Qc) :
  (2 <= nrows act)%nat ->
  (0 < c)%Qc ->
  activation_moments (Some act) (Some (repeat c (nrows act)))
  = activation_moments (Some act) None
  /\ (forall (Image : Type) (feature : Image -> vector Qc) (uninit : nat -> vector Qc)
        (image_generator : list (list Image)) (images : Z),
        get_activations (F:=Qc) feature uninit image_generator images = Ok (Some act) ->
        calculate_activation_statistics feature uninit image_generator images
          (Some (repeat c (nrows act)))
        = calculate_activation_statistics feature uninit image_generator images None).
Proof.
  intros Hrows Hc.
  assert (Hmoments : activation_moments (Some act) (Some (repeat c (nrows act)))
                     = activation_moments (Some act) None).
  { unfold activation_moments.
    rewrite (@np_average_uniform c (nrows act) Hc Hrows act eq_refl).
    cbn [rbind]. f_equal.
    exact (@np_cov_uniform c (nrows act) Hc Hrows act eq_refl). }
  split; [exact Hmoments|].
  intros Image feature uninit image_generator images Hact.
  unfold calculate_activation_statistics. rewrite Hact. exact Hmoments.
Qed.

(** Three samples of two features, each with the weight [1/10]. *)
Lemma uniform_weights_match_unweighted_witness :
  (2 <= nrows (map (map (@of_Z Qc exact)) [[1; 2]; [3; 4]; [5; 6]]%Z))%nat
  /\ (0 < Q2Qc (1 # 10))%Qc
  /\ activation_moments (Some (map (map (@of_Z Qc exact)) [[1; 2]; [3; 4]; [5; 6]]%Z))
       (Some (repeat (Q2Qc (1 # 10)) 3))
     = activation_moments (Some (map (map (@of_Z Qc exact)) [[1; 2]; [3; 4]; [5; 6]]%Z))
         None.
Proof.
  assert (Hrows : (2 <= nrows (map (map (@of_Z Qc exact)) [[1; 2]; [3; 4]; [5; 6]]%Z))%nat)
    by (cbn; lia).
  assert (Hc : (0 < Q2Qc (1 # 10))%Qc) by reflexivity.
  split; [exact Hrows | split; [exact Hc |]].
  exact (proj1 (uniform_weights_match_unweighted
                  (map (map (@of_Z Qc exact)) [[1; 2]; [3; 4]; [5; 6]]%Z) Hrows Hc)).
Defined.

(** C6 as stated fails in two ways.  For a single sample of two features
    [np.cov(act, rowvar=False)] leaves [act] untransposed and takes the two
    features for two observations of one variable: without weights it
    answers their variance, and with one weight it refuses the weight
    vector, in exact arithmetic as well.  On binary64 the two estimations
    differ: for three samples of two features with the weight 0.1 on each,
    the weighted column sum 0.9 divided by the weight sum
    0.30000000000000004 is not 3; and for two samples with the weight
    [1e-200] on each, the products of the weights underflow in the
    normalisation of [np.cov], which halves the covariance. *)
Lemma uniform_weights_counterexample :
  activation_moments (Some (map (map (@of_Z Qc exact)) [[1; 2]]%Z)) (Some [@of_Z Qc exact 1])
  = Raise (RuntimeError "incompatible numbers of samples and aweights")
  /\ activation_moments (Some (map (map (@of_Z Qc exact)) [[1; 2]]%Z)) None
     = Ok (map (@of_Z Qc exact) [1; 2]%Z, [[Q2Qc (1 # 2)]])
  /\ rmap fst (activation_moments (Some [[1; 2]; [3; 4]; [5; 6]]%float)
                 (Some [0.1; 0.1; 0.1]%float))
     = Ok [2.9999999999999996; 4]%float
  /\ rmap fst (activation_moments (Some [[1; 2]; [3; 4]; [5; 6]]%float) None)
     = Ok [3; 4]%float
  /\ PrimFloat.eqb 2.9999999999999996 3 = false
  /\ activation_moments (Some [[1; 2]; [3; 4]]%float) (Some [1e-200; 1e-200]%float)
     = Ok ([2; 3]%float, [[1; 1]; [1; 1]]%float)
  /\ activation_moments (Some [[1; 2]; [3; 4]]%float) None
     = Ok ([2; 3]%float, [[2; 2]; [2; 2]]%float).
Proof. repeat split; vm_compute; reflexivity. Qed.

(** ** Transposition *)

Section TransposeFacts.
Context {A : Type}.
Variable d : A.

Lemma nth_nil_default (i : nat) : nth i (@nil A) d = d.
Proof. now destruct i. Qed.

Lemma nth_map_seq {B} (g : nat -> B) (n j : nat) (b : B) :
  j < n -> nth j (map g (seq 0 n)) b = g j.
Proof.
  intros Hj. rewrite (nth_indep _ b (g 0)) by (now rewrite length_map, length_seq).
  rewrite (map_nth g (seq 0 n) 0 j), seq_nth by exact Hj.
  reflexivity.
Qed.

Lemma nth_col_of (M : list (list A)) (i j : nat) :
  j < length M -> nth j (col_of d i M) d = nth i (nth j M []) d.
Proof.
  intros Hj. unfold col_of.
  rewrite (nth_indep _ d (nth i [] d)) by (now rewrite length_map).
  apply (map_nth (fun row => nth i row d)).
Qed.

Lemma nth_transpose_of (n : nat) (M : list (list A)) (i : nat) :
  has_shape n n M -> i < n -> nth i (transpose_of d M) [] = col_of d i M.
Proof.
  intros HM Hi. unfold transpose_of.
  destruct (has_shape_square_dims HM) as [_ ->].
  now apply (nth_map_seq (fun j => col_of d j M)).
Qed.

(** Entry [(i, j)] of the transpose is entry [(j, i)]. *)
Lemma entry_transpose_of (n : nat) (M : list (list A)) (i j : nat) :
  has_shape n n M -> i < n -> j < n ->
  nth j (nth i (transpose_of d M) []) d = nth i (nth j M []) d.
Proof.
  intros HM Hi Hj. rewrite (nth_transpose_of HM Hi).
  apply nth_col_of. destruct HM as [-> _]. exact Hj.
Qed.

Lemma has_shape_transpose_of (n : nat) (M : list (list A)) :
  has_shape n n M -> has_shape n n (transpose_of d M).
Proof.
  intros HM. destruct (has_shape_square_dims HM) as [Hrows Hcols].
  unfold transpose_of. rewrite Hcols. split.
  - now rewrite length_map, length_seq.
  - apply List.Forall_forall. intros column Hin.
    apply in_map_iff in Hin. destruct Hin as (j & <- & _).
    unfold col_of. now rewrite length_map.
Qed.

(** The transpose holds the same entries. *)
Lemma In_concat_transpose_of (n : nat) (M : list (list A)) (x : A) :
  has_shape n n M -> In x (concat (transpose_of d M)) <-> In x (concat M).
Proof.
  intros HM. destruct (has_shape_square_dims HM) as [Hrows Hcols].
  destruct HM as [_ Hwidth]. rewrite List.Forall_forall in Hwidth.
  rewrite !in_concat. unfold transpose_of. rewrite Hcols. split.
  - intros (column & Hcolumn & Hx).
    apply in_map_iff in Hcolumn. destruct Hcolumn as (j & <- & Hj).
    apply in_seq in Hj. unfold col_of in Hx. apply in_map_iff in Hx.
    destruct Hx as (row & <- & Hrow).
    exists row. split; [exact Hrow|].
    apply nth_In. rewrite (Hwidth row Hrow). lia.
  - intros (row & Hrow & Hx).
    destruct (In_nth _ _ d Hx) as (j & Hj & <-).
    exists (col_of d j M). split.
    + apply (in_map (fun j => col_of d j M)).
      apply in_seq. rewrite (Hwidth row Hrow) in Hj. lia.
    + unfold col_of. now apply (in_map (fun r => nth j r d)).
Qed.

End TransposeFacts.

Section ArrayTransposeFacts.
Context {F : Type} {SF : Scalar F}.

Lemma np_diagonal_transpose (n : nat) (M : matrix F) :
  has_shape n n M -> np_diagonal (transpose M) = np_diagonal M.
Proof.
  intros HM. unfold np_diagonal.
  destruct (has_shape_square_dims HM) as [-> ->].
  destruct (has_shape_square_dims (has_shape_transpose_of f0 HM)) as [H1 H2].
  unfold transpose. rewrite H1, H2, Nat.min_id.
  apply map_ext_in. intros i Hi. apply in_seq in Hi.
  unfold entry. apply entry_transpose_of with (n := n); [exact HM | lia | lia].
Qed.

Lemma np_trace_transpose (n : nat) (M : matrix F) :
  has_shape n n M -> np_trace (transpose M) = np_trace M.
Proof. intros HM. unfold np_trace. now rewrite (np_diagonal_transpose HM). Qed.

Lemma cimag_transpose (C : list (list (F * F))) :
  cimag (transpose_of (f0, f0) C) = transpose (cimag C).
Proof.
  unfold cimag, transpose, transpose_of, col_of, ncols.
  rewrite !map_map.
  replace (length (hd [] (map (map snd) C))) with (length (hd [] C))
    by (destruct C; [reflexivity | cbn [map hd]; now rewrite length_map]).
  apply map_ext. intros j. rewrite !map_map.
  apply map_ext. intros row.
  symmetry. apply (map_nth snd row (f0, f0) j).
Qed.

Lemma creal_transpose (C : list (list (F * F))) :
  creal (transpose_of (f0, f0) C) = transpose (creal C).
Proof.
  unfold creal, transpose, transpose_of, col_of, ncols.
  rewrite !map_map.
  replace (length (hd [] (map (map fst) C))) with (length (hd [] C))
    by (destruct C; [reflexivity | cbn [map hd]; now rewrite length_map]).
  apply map_ext. intros j. rewrite !map_map.
  apply map_ext. intros row.
  symmetry. apply (map_nth fst row (f0, f0) j).
Qed.

Lemma has_shape_map {A B} (g : A -> B) (r c : nat) (M : list (list A)) :
  has_shape r c M -> has_shape r c (map (map g) M).
Proof.
  intros [Hrows Hwidth]. split; [now rewrite length_map|].
  rewrite List.Forall_forall in Hwidth |- *.
  intros row' Hin. apply in_map_iff in Hin. destruct Hin as (row & <- & Hrow).
  rewrite length_map. now apply Hwidth.
Qed.

End ArrayTransposeFacts.

(** ** Symmetry of the distance in exact arithmetic *)

Section ExactSymmetry.
Local Open Scope Qc_scope.

(** Exact rationals are all finite, so the stabilisation never steps in. *)
Lemma np_isfinite_all_exact (a : ndarray Qc) : np_isfinite_all a = true.
Proof.
  destruct a as [R|C]; cbn [np_isfinite_all];
    apply forallb_forall; intros row _; apply forallb_forall; now intros x _.
Qed.

Lemma stabilized_sqrtm_exact (linalg_sqrtm : matrix Qc -> result Qc (ndarray Qc))
    (sigma1 sigma2 prod : matrix Qc) (eps : Qc) :
  np_dot sigma1 sigma2 = Ok prod ->
  stabilized_sqrtm linalg_sqrtm sigma1 sigma2 eps = ([SqrtmCall prod], linalg_sqrtm prod).
Proof.
  intros Hdot. unfold stabilized_sqrtm, call_sqrtm, lift, tell, tbind, tret.
  rewrite Hdot. destruct (linalg_sqrtm prod) as [a|e]; [|reflexivity].
  now rewrite np_isfinite_all_exact.
Qed.

(** The rows of a symmetric matrix are its columns. *)
Lemma map_rows_symmetric {B} (g : vector Qc -> B) (n : nat) (M : matrix Qc) :
  has_shape n n M -> transpose M = M ->
  map g M = map (fun i => g (col i M)) (seq 0 n).
Proof.
  intros HM Hsym. rewrite <- Hsym at 1.
  unfold transpose, transpose_of.
  destruct (has_shape_square_dims HM) as [_ ->].
  now rewrite map_map.
Qed.

(** For symmetric [A] and [B], [B . A] is the transpose of [A . B]. *)
Lemma matmul_symmetric_swap (n : nat) (A B : matrix Qc) :
  has_shape n n A -> has_shape n n B ->
  transpose A = A -> transpose B = B ->
  matmul B A = transpose (matmul A B).
Proof.
  intros HA HB HsymA HsymB.
  destruct (has_shape_square_dims HA) as [HrA HcA].
  destruct (has_shape_square_dims HB) as [HrB HcB].
  destruct n as [|n'].
  { destruct A; [|discriminate]. destruct B; [|discriminate]. reflexivity. }
  set (n := S n') in *.
  assert (Hprod : ncols (matmul A B) = n).
  { unfold matmul, ncols. destruct A as [|row A]; [discriminate|].
    cbn [map hd]. fold (ncols B). now rewrite length_map, length_seq. }
  unfold transpose, transpose_of. rewrite Hprod.
  unfold matmul at 1. rewrite HcA.
  rewrite (map_rows_symmetric _ HB HsymB).
  apply map_ext_in. intros i Hi. apply in_seq in Hi.
  unfold col_of, matmul. rewrite map_map, HcB.
  rewrite (map_rows_symmetric _ HA HsymA).
  apply map_ext_in. intros j Hj. apply in_seq in Hj.
  rewrite (nth_map_seq (fun j' => vdot (col j A) (col j' B))) by lia.
  apply vdot_comm.
Qed.

Lemma vdot_vsub_swap (mu1 mu2 : vector Qc) :
  vdot (vsub mu2 mu1) (vsub mu2 mu1) = vdot (vsub mu1 mu2) (vsub mu1 mu2).
Proof.
  rewrite !vdot_exact. unfold vsub. exact_ops. revert mu2.
  induction mu1 as [|a mu1 IH]; intros [|b mu2];
    cbn [combine map Qc_sum fold_right fst snd]; try reflexivity.
  unfold Qc_sum in IH. rewrite IH. ring.
Qed.

Lemma frechet_formula_swap (n : nat) (mu1 mu2 : vector Qc) (sigma1 sigma2 R : matrix Qc) :
  has_shape n n R ->
  frechet_formula mu2 sigma2 mu1 sigma1 (transpose R)
  = frechet_formula mu1 sigma1 mu2 sigma2 R.
Proof.
  intros HR. unfold frechet_formula.
  rewrite (np_trace_transpose HR), vdot_vsub_swap. exact_ops. ring.
Qed.

(** [Qc_max] is the larger of two. *)
Lemma Qc_max_cases (x y : Qc) :
  (Qc_max x y = x \/ Qc_max x y = y) /\ x <= Qc_max x y /\ y <= Qc_max x y.
Proof.
  unfold Qc_max, Qc_leb. destruct (Qle_bool x y) eqn:Hle.
  - apply Qle_bool_iff in Hle. repeat split; [now right | exact Hle | apply Qcle_refl].
  - assert (Hlt : y < x).
    { apply Qcnot_le_lt. intros H. apply Qle_bool_iff in H.
      unfold Qcle in *. congruence. }
    repeat split; [now left | apply Qcle_refl | now apply Qclt_le_weak].
Qed.

Lemma fold_max_spec (xs : list Qc) :
  forall x : Qc,
    In (fold_left Qc_max xs x) (x :: xs)
    /\ forall y, In y (x :: xs) -> y <= fold_left Qc_max xs x.
Proof.
  induction xs as [|a xs IH]; intros x; cbn [fold_left].
  - split; [now left|]. intros y [<-|[]]. apply Qcle_refl.
  - destruct (IH (Qc_max x a)) as [Hin Hmax].
    destruct (Qc_max_cases x a) as (Hcase & Hx & Ha).
    split.
    + destruct Hin as [Heq|Hin].
      * rewrite <- Heq. destruct Hcase as [->| ->]; [now left | right; now left].
      * right. now right.
    + intros y [<-|[<-|Hy]].
      * eapply Qcle_trans; [exact Hx|]. apply Hmax. now left.
      * eapply Qcle_trans; [exact Ha|]. apply Hmax. now left.
      * apply Hmax. now right.
Qed.

(** [np.max] only depends on which entries there are. *)
Lemma np_max_same_entries (l1 l2 : vector Qc) :
  (forall x, In x l1 <-> In x l2) -> np_max l1 = np_max l2.
Proof.
  intros Hsame.
  destruct l1 as [|x1 l1], l2 as [|x2 l2]; cbn [np_max]; try reflexivity.
  - exfalso. apply (proj2 (Hsame x2)). now left.
  - exfalso. apply (proj1 (Hsame x1)). now left.
  - f_equal. change (@fmax Qc exact) with Qc_max.
    destruct (fold_max_spec l1 x1) as [Hin1 Hmax1].
    destruct (fold_max_spec l2 x2) as [Hin2 Hmax2].
    apply Qcle_antisym.
    + apply Hmax2. now apply Hsame.
    + apply Hmax1. now apply Hsame.
Qed.

(** Lines 110-119 give the same on the transposed square root with the
    two populations swapped. *)
Lemma discard_imaginary_transpose (n : nat) (mu1 mu2 : vector Qc)
    (sigma1 sigma2 : matrix Qc) (a : ndarray Qc) :
  nd_has_shape n n a ->
  rmap (frechet_formula mu2 sigma2 mu1 sigma1) (discard_imaginary (nd_transpose a))
  = rmap (frechet_formula mu1 sigma1 mu2 sigma2) (discard_imaginary a).
Proof.
  intros Ha. destruct a as [R|C]; cbn [nd_has_shape nd_transpose discard_imaginary] in *.
  - unfold rmap. cbn [rbind]. now rewrite (frechet_formula_swap _ _ _ _ Ha).
  - pose proof (has_shape_map snd Ha) as Himag. fold (cimag C) in Himag.
    pose proof (has_shape_map fst Ha) as Hreal. fold (creal C) in Hreal.
    rewrite cimag_transpose, (np_diagonal_transpose Himag).
    destruct (np_allclose_zero (np_diagonal (cimag C))); cbn [negb].
    + unfold rmap. cbn [rbind].
      now rewrite creal_transpose, (frechet_formula_swap _ _ _ _ Hreal).
    + rewrite (np_max_same_entries (abs_entries (transpose (cimag C)))
                 (abs_entries (cimag C))).
      * now destruct (np_max (abs_entries (cimag C))).
      * intros x. unfold abs_entries. rewrite !in_map_iff.
        split; intros (y & Hy & Hin); exists y; (split; [exact Hy|]);
          now apply (In_concat_transpose_of (Q2Qc 0) y Himag).
Qed.

End ExactSymmetry.

(** C5 (as amended): in exact arithmetic, for two moment pairs whose
    covariance matrices are symmetric and of one square shape, and a
    square-root routine that answers the transposed product with the
    transposed answer of the same shape, the two orders of the arguments
    give the same score or the same exception. *)
Theorem frechet_distance_symmetric_exact
    (linalg_sqrtm : matrix Qc -> result Qc (ndarray Qc))
    (mu1 : vector Qc) (sigma1 : matrix Qc) (mu2 : vector Qc) (sigma2 : matrix Qc)
    (eps : Qc) (n : nat) :
  has_shape n n sigma1 ->
  has_shape n n sigma2 ->
  transpose sigma1 = sigma1 ->
  transpose sigma2 = sigma2 ->
  (forall a, linalg_sqrtm (matmul sigma1 sigma2) = Ok a -> nd_has_shape n n a) ->
  linalg_sqrtm (transpose (matmul sigma1 sigma2))
  = rmap nd_transpose (linalg_sqrtm (matmul sigma1 sigma2)) ->
  snd (calculate_frechet_distance linalg_sqrtm mu1 sigma1 mu2 sigma2 eps)
  = snd (calculate_frechet_distance linalg_sqrtm mu2 sigma2 mu1 sigma1 eps).
Proof.
  intros H1 H2 Hsym1 Hsym2 Hshape Htranspose.
  destruct (has_shape_square_dims H1) as [Hr1 Hc1].
  destruct (has_shape_square_dims H2) as [Hr2 Hc2].
  destruct (Nat.eqb_spec (length mu1) (length mu2)) as [Hmu|Hmu].
  - rewrite (calculate_frechet_distance_checked linalg_sqrtm mu1 sigma1 mu2 sigma2 eps)
      by congruence.
    rewrite (calculate_frechet_distance_checked linalg_sqrtm mu2 sigma2 mu1 sigma1 eps)
      by congruence.
    rewrite (@stabilized_sqrtm_exact linalg_sqrtm _ _ _ eps (np_dot_square H1 H2)).
    rewrite (@stabilized_sqrtm_exact linalg_sqrtm _ _ _ eps (np_dot_square H2 H1)).
    cbn [snd].
    rewrite (matmul_symmetric_swap H1 H2 Hsym1 Hsym2), Htranspose.
    destruct (linalg_sqrtm (matmul sigma1 sigma2)) as [a|e]; [|reflexivity].
    cbn [rmap rbind]. symmetry.
    apply (@discard_imaginary_transpose n mu1 mu2 sigma1 sigma2 a (Hshape a eq_refl)).
  - unfold calculate_frechet_distance, assert_.
    destruct (Nat.eqb_spec (length mu1) (length mu2)) as [|_]; [congruence|].
    destruct (Nat.eqb_spec (length mu2) (length mu1)) as [|_]; [congruence|].
    reflexivity.
Qed.

(** Means [(0, 0)] and [(3, 4)] with identity covariances, in both
    orders. *)
Lemma frechet_distance_symmetric_exact_witness :
  has_shape 2 2 (@np_eye Qc exact 2)
  /\ transpose (@np_eye Qc exact 2) = np_eye 2
  /\ sqrtm_of_identity (transpose (matmul (np_eye 2) (np_eye 2)))
     = rmap nd_transpose (sqrtm_of_identity (matmul (np_eye 2) (np_eye 2)))
  /\ snd (calculate_frechet_distance sqrtm_of_identity
            (map of_Z [0; 0]%Z) (np_eye 2) (map of_Z [3; 4]%Z) (np_eye 2) f_eps)
     = snd (calculate_frechet_distance sqrtm_of_identity
              (map of_Z [3; 4]%Z) (np_eye 2) (map of_Z [0; 0]%Z) (np_eye 2) f_eps).
Proof.
  assert (Hshape : has_shape 2 2 (@np_eye Qc exact 2))
    by (split; [reflexivity | repeat constructor]).
  assert (Hsym : transpose (@np_eye Qc exact 2) = np_eye 2) by reflexivity.
  assert (Htranspose :
            sqrtm_of_identity (transpose (matmul (np_eye 2) (np_eye 2)))
            = rmap nd_transpose (sqrtm_of_identity (matmul (np_eye 2) (np_eye 2))))
    by (vm_compute; reflexivity).
  assert (Hroot : forall a, sqrtm_of_identity (matmul (np_eye 2) (np_eye 2)) = Ok a ->
                            nd_has_shape 2 2 a).
  { intros a Ha. vm_compute in Ha. injection Ha as <-.
    split; [reflexivity | repeat constructor]. }
  split; [exact Hshape | split; [exact Hsym | split; [exact Htranspose |]]].
  exact (frechet_distance_symmetric_exact sqrtm_of_identity
           (map of_Z [0; 0]%Z) (map of_Z [3; 4]%Z) f_eps
           Hshape Hshape Hsym Hsym Hroot Htranspose).
Defined.

Local Open Scope float_scope.

(** C5 as stated fails on binary64 by rounding: the score adds the trace of
    the first covariance before that of the second, and with variances
    [2^53] and [1] the two orders of the arguments round differently. *)
Lemma symmetry_rounding_counterexample :
  snd (calculate_frechet_distance sqrtm_small [1] [[9007199254740992]] [0] [[1]] 1e-6)
  = Ok 9007199064928461
  /\ snd (calculate_frechet_distance sqrtm_small [0] [[1]] [1] [[9007199254740992]] 1e-6)
     = Ok 9007199064928463
  /\ PrimFloat.eqb 9007199064928461 9007199064928463 = false.
Proof. repeat split; vm_compute; reflexivity. Qed.

Local Close Scope float_scope.

(** * Further properties of the pipeline *)

(** ** The distance calculator: refused inputs and the role of [eps] *)

(** X1: the shapes are checked before anything is computed.  Means of
    different lengths fail the first assertion, covariances of different
    shapes the second, and covariances of one shape that is not square make
    the product of line 101 raise; in all three cases the square root is
    never asked for and nothing is printed. *)
Theorem frechet_distance_refuses_bad_shapes {F : Type} {SF : Scalar F}
    (linalg_sqrtm : matrix F -> result F (ndarray F))
    (mu1 : vector F) (sigma1 : matrix F) (mu2 : vector F) (sigma2 : matrix F) (eps : F) :
  (length mu1 <> length mu2 ->
   calculate_frechet_distance linalg_sqrtm mu1 sigma1 mu2 sigma2 eps
   = ([], Raise (AssertionError "Training and test mean vectors have different lengths")))
  /\ (length mu1 = length mu2 ->
      nrows sigma1 <> nrows sigma2 \/ ncols sigma1 <> ncols sigma2 ->
      calculate_frechet_distance linalg_sqrtm mu1 sigma1 mu2 sigma2 eps
      = ([], Raise (AssertionError
                      "Training and test covariances have different dimensions")))
  /\ (length mu1 = length mu2 ->
      nrows sigma1 = nrows sigma2 ->
      ncols sigma1 = ncols sigma2 ->
      ncols sigma1 <> nrows sigma1 ->
      calculate_frechet_distance linalg_sqrtm mu1 sigma1 mu2 sigma2 eps
      = ([], Raise (ValueError "shapes not aligned"))).
Proof.
  unfold calculate_frechet_distance, assert_. split; [| split].
  - intros Hmu. now destruct (Nat.eqb_spec (length mu1) (length mu2)).
  - intros -> Hshape. rewrite Nat.eqb_refl. cbn [tbind tret app].
    destruct (Nat.eqb_spec (nrows sigma1) (nrows sigma2)) as [Hr|Hr];
      destruct (Nat.eqb_spec (ncols sigma1) (ncols sigma2)) as [Hc|Hc];
      cbn [andb]; try reflexivity.
    destruct Hshape; contradiction.
  - intros -> Hrows Hcols Hsquare. rewrite Hrows, Hcols, !Nat.eqb_refl.
    cbn [andb tbind tret app]. unfold stabilized_sqrtm, np_dot, lift, tbind.
    destruct (Nat.eqb_spec (ncols sigma1) (nrows sigma2)) as [Heq|_];
      [congruence | reflexivity].
Qed.

Local Open Scope float_scope.

(** Means of lengths one and two; covariances of shapes 1x1 and 2x2; two
    covariances of shape 1x2. *)
Lemma frechet_distance_refuses_bad_shapes_witness :
  calculate_frechet_distance sqrtm_small [0] [[1]] [0; 0] [[1]] 1e-6
  = ([], Raise (AssertionError "Training and test mean vectors have different lengths"))
  /\ calculate_frechet_distance sqrtm_small [0] [[1]] [0] [[1; 0]; [0; 1]] 1e-6
     = ([], Raise (AssertionError
                     "Training and test covariances have different dimensions"))
  /\ calculate_frechet_distance sqrtm_small [0] [[1; 2]] [0] [[3; 4]] 1e-6
     = ([], Raise (ValueError "shapes not aligned")).
Proof.
  split; [| split].
  - apply (@frechet_distance_refuses_bad_shapes float float64 sqrtm_small
             [0] [[1]] [0; 0] [[1]] 1e-6).
    discriminate.
  - apply (@frechet_distance_refuses_bad_shapes float float64 sqrtm_small
             [0] [[1]] [0] [[1; 0]; [0; 1]] 1e-6); [reflexivity|].
    left. discriminate.
  - apply (@frechet_distance_refuses_bad_shapes float float64 sqrtm_small
             [0] [[1; 2]] [0] [[3; 4]] 1e-6); try reflexivity.
    discriminate.
Defined.

Local Close Scope float_scope.

(** X2: an exception of [linalg.sqrtm] is not a reason to retry.  When the
    first call raises, the exception leaves the distance calculator after
    that one call, with nothing printed; when the first answer has a
    non-finite entry and the call on the regularised product raises, that
    exception leaves it. *)
Theorem sqrtm_exception_propagates {F : Type} {SF : Scalar F}
    (linalg_sqrtm : matrix F -> result F (ndarray F))
    (mu1 : vector F) (sigma1 : matrix F) (mu2 : vector F) (sigma2 : matrix F)
    (eps : F) (prod : matrix F) :
  length mu1 = length mu2 ->
  nrows sigma1 = nrows sigma2 ->
  ncols sigma1 = ncols sigma2 ->
  np_dot sigma1 sigma2 = Ok prod ->
  (forall e, linalg_sqrtm prod = Raise e ->
     calculate_frechet_distance linalg_sqrtm mu1 sigma1 mu2 sigma2 eps
     = ([SqrtmCall prod], Raise e))
  /\ (forall a e,
        linalg_sqrtm prod = Ok a ->
        np_isfinite_all a = false ->
        linalg_sqrtm (matmul (regularized (nrows sigma1) sigma1 eps)
                             (regularized (nrows sigma1) sigma2 eps)) = Raise e ->
        calculate_frechet_distance linalg_sqrtm mu1 sigma1 mu2 sigma2 eps
        = ([SqrtmCall prod; Printed eps;
            SqrtmCall (matmul (regularized (nrows sigma1) sigma1 eps)
                              (regularized (nrows sigma1) sigma2 eps))],
           Raise e)).
Proof.
  intros Hmu Hrows Hcols Hdot.
  rewrite (calculate_frechet_distance_checked linalg_sqrtm _ _ _ _ eps Hmu Hrows Hcols).
  split.
  - intros e Hroot.
    unfold stabilized_sqrtm, call_sqrtm, lift, tell, tbind.
    now rewrite Hdot, Hroot.
  - intros a e Hroot Hfin Hretry.
    rewrite (stabilized_sqrtm_retry linalg_sqrtm _ _ eps Hdot Hroot Hfin).
    cbn [fst snd]. now rewrite Hretry.
Qed.

Local Open Scope float_scope.

(** A covariance with a NaN entry, as [np.cov] gives for a single sample:
    the square-root routine refuses the product. *)
Lemma sqrtm_exception_propagates_witness :
  np_dot [[nan]] [[1]] = Ok [[nan]]
  /\ sqrtm_small [[nan]] = Raise (ValueError "array must not contain infs or NaNs")
  /\ calculate_frechet_distance sqrtm_small [0] [[nan]] [0] [[1]] 1e-6
     = ([SqrtmCall [[nan]]], Raise (ValueError "array must not contain infs or NaNs")).
Proof.
  assert (Hdot : np_dot [[nan]] [[1]] = Ok [[nan]]) by (vm_compute; reflexivity).
  assert (Hroot : sqrtm_small [[nan]]
                  = Raise (ValueError "array must not contain infs or NaNs"))
    by reflexivity.
  split; [exact Hdot | split; [exact Hroot |]].
  exact (proj1 (@sqrtm_exception_propagates float float64 sqrtm_small
                  [0] [[nan]] [0] [[1]] 1e-6 [[nan]] eq_refl eq_refl eq_refl Hdot)
               _ Hroot).
Defined.

Local Close Scope float_scope.

(** X3: [eps] only matters to the retry.  When the first square root has
    finite entries only, the call does and returns the same whatever [eps]
    it was given. *)
Theorem eps_unused_without_retry {F : Type} {SF : Scalar F}
    (linalg_sqrtm : matrix F -> result F (ndarray F))
    (mu1 : vector F) (sigma1 : matrix F) (mu2 : vector F) (sigma2 : matrix F)
    (eps eps' : F) (prod : matrix F) (a : ndarray F) :
  np_dot sigma1 sigma2 = Ok prod ->
  linalg_sqrtm prod = Ok a ->
  np_isfinite_all a = true ->
  calculate_frechet_distance linalg_sqrtm mu1 sigma1 mu2 sigma2 eps
  = calculate_frechet_distance linalg_sqrtm mu1 sigma1 mu2 sigma2 eps'.
Proof.
  intros Hdot Hroot Hfin. unfold calculate_frechet_distance.
  now rewrite !(stabilized_sqrtm_finite linalg_sqrtm _ _ _ Hdot Hroot Hfin).
Qed.

Local Open Scope float_scope.

(** Identity covariances, with the default [eps] and with [eps = 1]. *)
Lemma eps_unused_without_retry_witness :
  sqrtm_small [[1; 0]; [0; 1]] = Ok (RealArr [[1; 0]; [0; 1]])
  /\ calculate_frechet_distance sqrtm_small [0; 0] [[1; 0]; [0; 1]] [3; 4] [[1; 0]; [0; 1]] 1e-6
     = calculate_frechet_distance sqrtm_small [0; 0] [[1; 0]; [0; 1]] [3; 4] [[1; 0]; [0; 1]] 1.
Proof.
  assert (Hroot : sqrtm_small [[1; 0]; [0; 1]] = Ok (RealArr [[1; 0]; [0; 1]]))
    by (vm_compute; reflexivity).
  split; [exact Hroot|].
  apply (@eps_unused_without_retry float float64 sqrtm_small
           [0; 0] [[1; 0]; [0; 1]] [3; 4] [[1; 0]; [0; 1]] 1e-6 1
           [[1; 0]; [0; 1]] (RealArr [[1; 0]; [0; 1]]));
    [vm_compute; reflexivity | exact Hroot | reflexivity].
Defined.

Local Close Scope float_scope.

(** ** The distance calculator in exact arithmetic *)

Section ExactDistanceFacts.
Local Open Scope Qc_scope.

Lemma vdot_vsub_self (mu : vector Qc) : vdot (vsub mu mu) (vsub mu mu) = 0.
Proof.
  rewrite vdot_exact. unfold vsub. exact_ops.
  induction mu as [|a mu IH]; cbn [combine map Qc_sum fold_right fst snd];
    [reflexivity|].
  unfold Qc_sum in IH. rewrite IH. ring.
Qed.

End ExactDistanceFacts.

Local Open Scope Qc_scope.

(** X4: a population scores zero against itself.  In exact arithmetic, for
    a square covariance whose product with itself has the covariance as its
    (real) square root, the distance of a moment pair to itself is [0]. *)
Theorem identical_moments_score_zero
    (linalg_sqrtm : matrix Qc -> result Qc (ndarray Qc))
    (mu : vector Qc) (sigma : matrix Qc) (eps : Qc) (n : nat) :
  has_shape n n sigma ->
  linalg_sqrtm (matmul sigma sigma) = Ok (RealArr sigma) ->
  snd (calculate_frechet_distance linalg_sqrtm mu sigma mu sigma eps) = Ok (Q2Qc 0).
Proof.
  intros Hshape Hroot.
  rewrite (calculate_frechet_distance_checked linalg_sqrtm mu sigma mu sigma eps)
    by reflexivity.
  rewrite (@stabilized_sqrtm_exact linalg_sqrtm _ _ _ eps (np_dot_square Hshape Hshape)).
  cbn [snd]. rewrite Hroot. cbn [rbind discard_imaginary rmap]. f_equal.
  unfold frechet_formula. rewrite vdot_vsub_self. exact_ops.
  replace (@of_Z Qc exact 2) with (1 + 1) by (apply Qc_is_canon; reflexivity).
  change (Q2Qc 0) with 0. ring.
Qed.

(** The mean [(3, 4)] with the identity covariance. *)
Lemma identical_moments_score_zero_witness :
  has_shape 2 2 (@np_eye Qc exact 2)
  /\ sqrtm_of_identity (matmul (np_eye 2) (np_eye 2)) = Ok (RealArr (np_eye 2))
  /\ snd (calculate_frechet_distance sqrtm_of_identity
            (map of_Z [3; 4]%Z) (np_eye 2) (map of_Z [3; 4]%Z) (np_eye 2) f_eps)
     = Ok (Q2Qc 0).
Proof.
  assert (Hshape : has_shape 2 2 (@np_eye Qc exact 2))
    by (split; [reflexivity | repeat constructor]).
  assert (Hroot : sqrtm_of_identity (matmul (np_eye 2) (np_eye 2))
                  = Ok (RealArr (@np_eye Qc exact 2)))
    by (vm_compute; reflexivity).
  split; [exact Hshape | split; [exact Hroot |]].
  exact (identical_moments_score_zero sqrtm_of_identity
           (map of_Z [3; 4]%Z) f_eps Hshape Hroot).
Defined.

Local Close Scope Qc_scope.

Section RefusedRootFacts.
Local Open Scope Qc_scope.

(** An entry that differs from the default was found in the list. *)
Lemma nth_not_default_In {A} (l : list A) (i : nat) (d : A) :
  nth i l d <> d -> In (nth i l d) l.
Proof.
  intros Hnth. destruct (Nat.lt_ge_cases i (length l)) as [Hlt|Hge].
  - now apply nth_In.
  - now rewrite nth_overflow in Hnth.
Qed.

Lemma Qc_abs_zero : Qc_abs 0 = 0.
Proof. reflexivity. Qed.

(** A diagonal entry beyond the tolerance is an entry of the array. *)
Lemma far_diagonal_entry (M : matrix Qc) (x : Qc) :
  In x (np_diagonal M) -> within_atol x = false ->
  In (Qc_abs x) (abs_entries M) /\ Q2Qc (1 # 1000) < Qc_abs x.
Proof.
  intros Hin Hfar.
  assert (Hlt : Q2Qc (1 # 1000) < Qc_abs x).
  { unfold within_atol in Hfar. cbn [fisfinite exact andb] in Hfar.
    change (@fleb Qc exact) with Qc_leb in Hfar.
    change (@fabs Qc exact) with Qc_abs in Hfar.
    change (@f_atol Qc exact) with (Q2Qc (1 # 1000)) in Hfar.
    apply Qcnot_le_lt. intros Hle. apply Qle_bool_iff in Hle.
    unfold Qc_leb in Hfar. unfold Qcle in *. congruence. }
  split; [|exact Hlt].
  unfold np_diagonal in Hin. apply in_map_iff in Hin as (i & <- & _).
  unfold abs_entries. apply in_map. unfold entry.
  assert (Hx : nth i (nth i M []) (@f0 Qc exact) <> @f0 Qc exact).
  { intros Hz. unfold entry in Hlt. rewrite Hz in Hlt. now vm_compute in Hlt. }
  apply nth_not_default_In in Hx.
  apply in_concat. exists (nth i M []). split; [|exact Hx].
  apply nth_not_default_In. intros Hnil. rewrite Hnil in Hx.
  destruct i; exact Hx.
Qed.

End RefusedRootFacts.

Local Open Scope Qc_scope.

(** X5: the magnitude a refusal reports.  In exact arithmetic, when the call
    refuses a complex square root with [ValueError('Imaginary component m')],
    [m] is the magnitude of one of the imaginary parts of the array, no
    imaginary part is larger in magnitude, and [m] is beyond the tolerance
    [1e-3]. *)
Theorem refused_magnitude_exceeds_tolerance
    (linalg_sqrtm : matrix Qc -> result Qc (ndarray Qc))
    (mu1 : vector Qc) (sigma1 : matrix Qc) (mu2 : vector Qc) (sigma2 : matrix Qc)
    (eps : Qc) (log : list (event Qc)) (C : list (list (Qc * Qc))) (m : Qc) :
  length mu1 = length mu2 ->
  nrows sigma1 = nrows sigma2 ->
  ncols sigma1 = ncols sigma2 ->
  stabilized_sqrtm linalg_sqrtm sigma1 sigma2 eps = (log, Ok (ComplexArr C)) ->
  snd (calculate_frechet_distance linalg_sqrtm mu1 sigma1 mu2 sigma2 eps)
  = Raise (ImaginaryComponent m) ->
  In m (abs_entries (cimag C))
  /\ (forall x, In x (abs_entries (cimag C)) -> x <= m)
  /\ Q2Qc (1 # 1000) < m.
Proof.
  intros Hmu Hrows Hcols Hroot.
  rewrite (calculate_frechet_distance_checked linalg_sqrtm _ _ _ _ eps Hmu Hrows Hcols).
  rewrite Hroot. cbn [fst snd rbind discard_imaginary].
  destruct (np_allclose_zero (np_diagonal (cimag C))) eqn:Hclose; cbn [negb];
    [discriminate|].
  apply forallb_false_Exists in Hclose. apply List.Exists_exists in Hclose as (x & Hin & Hfar).
  destruct (far_diagonal_entry _ _ Hin Hfar) as [Hentry Hlt].
  destruct (abs_entries (cimag C)) as [|y ys] eqn:Habs; [destruct Hentry|].
  cbn [np_max rbind rmap]. change (@fmax Qc exact) with Qc_max.
  intros Hm. injection Hm as <-.
  destruct (fold_max_spec ys y) as [Hattained Hmax].
  split; [exact Hattained | split; [exact Hmax |]].
  eapply Qclt_le_trans; [exact Hlt | now apply Hmax].
Qed.

(** Variances [1] and [-1]: the square root of the product is the imaginary
    unit, and the call reports the magnitude [1]. *)
Lemma refused_magnitude_exceeds_tolerance_witness :
  stabilized_sqrtm sqrtm_of_minus_one [[Q2Qc 1]] [[Q2Qc (-1)]] f_eps
  = ([SqrtmCall [[Q2Qc (-1)]]], Ok (ComplexArr [[(Q2Qc 0, Q2Qc 1)]]))
  /\ snd (calculate_frechet_distance sqrtm_of_minus_one
            [Q2Qc 0] [[Q2Qc 1]] [Q2Qc 0] [[Q2Qc (-1)]] f_eps)
     = Raise (ImaginaryComponent (Q2Qc 1))
  /\ Q2Qc (1 # 1000) < Q2Qc 1.
Proof.
  assert (Hroot : stabilized_sqrtm sqrtm_of_minus_one [[Q2Qc 1]] [[Q2Qc (-1)]] f_eps
                  = ([SqrtmCall [[Q2Qc (-1)]]], Ok (ComplexArr [[(Q2Qc 0, Q2Qc 1)]])))
    by (vm_compute; reflexivity).
  assert (Hraise : snd (calculate_frechet_distance sqrtm_of_minus_one
                          [Q2Qc 0] [[Q2Qc 1]] [Q2Qc 0] [[Q2Qc (-1)]] f_eps)
                   = Raise (ImaginaryComponent (Q2Qc 1)))
    by (vm_compute; reflexivity).
  split; [exact Hroot | split; [exact Hraise |]].
  exact (proj2 (proj2 (@refused_magnitude_exceeds_tolerance sqrtm_of_minus_one
                         [Q2Qc 0] [[Q2Qc 1]] [Q2Qc 0] [[Q2Qc (-1)]] f_eps _ _ _
                         eq_refl eq_refl eq_refl Hroot Hraise))).
Defined.

Local Close Scope Qc_scope.

(** ** The collector and the declared number of images *)

Section CollectorCountFacts.
Context {F Image Row : Type}.
Variable feature : Image -> Row.
Variable uninit : nat -> Row.

(** The fresh rows from row [k] on. *)
Lemma skipn_np_empty (n k : nat) :
  skipn k (map uninit (seq 0 n)) = map uninit (seq k (n - k)).
Proof. now rewrite skipn_map, skipn_seq. Qed.

(** The loop over two runs of batches is the loop over the first followed
    by the loop over the second, which starts where the first ended. *)
Lemma get_activations_loop_app (images : Z) (pre post : list (list Image)) :
  forall (pred_arr : option (list Row)) (end_ : nat),
    get_activations_loop (F:=F) feature uninit images (pre ++ post) pred_arr end_
    = rbind (get_activations_loop feature uninit images pre pred_arr end_)
        (fun arr => get_activations_loop feature uninit images post arr
                      (end_ + length (concat pre))).
Proof.
  induction pre as [|batch pre IH]; intros pred_arr end_.
  - cbn [app get_activations_loop rbind concat length]. now rewrite Nat.add_0_r.
  - cbn [app get_activations_loop concat].
    destruct (reshape_rows (length batch) (map feature batch)) as [bf|e];
      cbn [rbind]; [|reflexivity].
    destruct (match pred_arr with
              | Some a => Ok a
              | None => np_empty uninit images
              end) as [arr|e]; cbn [rbind]; [|reflexivity].
    destruct (assign_rows arr end_ (end_ + length batch) bf) as [arr'|e];
      cbn [rbind]; [|reflexivity].
    rewrite IH, length_app. now rewrite Nat.add_assoc.
Qed.

(** With room to spare the collector writes the activations at the head of
    the fresh array and leaves the other rows as they were allocated. *)
Lemma get_activations_padded (batches : list (list Image)) (images : Z) :
  batches <> [] ->
  Forall (fun b => b <> []) batches ->
  (Z.of_nat (length (concat batches)) <= images)%Z ->
  get_activations (F:=F) feature uninit batches images
  = Ok (Some (map feature (concat batches)
              ++ map uninit (seq (length (concat batches))
                               (Z.to_nat images - length (concat batches))))).
Proof.
  intros Hsome Hne Htotal.
  destruct batches as [|batch more]; [congruence|].
  inversion Hne as [|? ? Hb Hmore]; subst.
  unfold get_activations. cbn [get_activations_loop]. unfold reshape_rows.
  destruct (Nat.eqb_spec (length batch) 0) as [Hz|_].
  { destruct batch; [congruence | discriminate]. }
  cbn [rbind]. unfold np_empty.
  destruct (Z.ltb_spec images 0) as [Hneg|_]; [lia|].
  cbn [rbind concat] in *. rewrite length_app in *.
  set (n := Z.to_nat images). assert (Hn : length batch + length (concat more) <= n) by lia.
  set (init := map uninit (seq 0 n)).
  assert (Hinit : length init = n).
  { unfold init. now rewrite length_map, length_seq. }
  rewrite <- (length_map feature batch) at 1.
  pose proof (assign_rows_behind (F:=F) [] init (map feature batch)) as Hw.
  cbn [app length Nat.add] in Hw |- *.
  rewrite Hw by (rewrite length_map; lia).
  cbn [rbind].
  rewrite <- (length_map feature batch) at 1.
  rewrite get_activations_loop_fills;
    [| assumption | rewrite length_drop, length_map; lia].
  rewrite drop_drop, map_app, length_map, <- app_assoc.
  unfold init. rewrite skipn_np_empty. reflexivity.
Qed.

(** A value of two rows or more that does not fit the rows left is
    refused. *)
Lemma assign_rows_overflow (arr value : list Row) (start : nat) :
  start <= length arr ->
  length arr < start + length value ->
  2 <= length value ->
  assign_rows (F:=F) arr start (start + length value) value
  = Raise (ValueError "could not broadcast input array").
Proof.
  intros Hstart Hover Htwo. unfold assign_rows.
  rewrite (Nat.min_l start), (Nat.min_r (start + length value)) by lia.
  destruct (Nat.eqb_spec (length value) (length arr - start)) as [Heq|_]; [lia|].
  destruct value as [|r [|r' value]]; cbn [length] in Htwo; [lia | lia | reflexivity].
Qed.

(** A value of one row written past the end of the array changes
    nothing. *)
Lemma assign_rows_past_end (arr : list Row) (row : Row) (start : nat) :
  length arr <= start ->
  assign_rows (F:=F) arr start (start + 1) [row] = Ok arr.
Proof.
  intros Hpast. unfold assign_rows.
  rewrite !Nat.min_r by lia. rewrite Nat.sub_diag. cbn [length Nat.eqb repeat app].
  now rewrite firstn_skipn.
Qed.

(** On a full array the loop over batches of one sample changes
    nothing. *)
Lemma get_activations_loop_past_end (images : Z) (post : list (list Image)) :
  forall (arr : list Row) (end_ : nat),
    Forall (fun b => length b = 1) post ->
    length arr <= end_ ->
    get_activations_loop (F:=F) feature uninit images post (Some arr) end_
    = Ok (Some arr).
Proof.
  induction post as [|batch post IH]; intros arr end_ Hone Hpast; [reflexivity|].
  inversion Hone as [|? ? Hb Hpost]; subst.
  destruct batch as [|x [|x' batch]]; try discriminate Hb.
  cbn [get_activations_loop length map]. unfold reshape_rows. cbn [Nat.eqb rbind].
  rewrite assign_rows_past_end by exact Hpast. cbn [rbind].
  apply IH; [assumption | lia].
Qed.

End CollectorCountFacts.

Section CollectorOnFacts.
Context {F Image Row : Type}.
Variable feature : Image -> Row.
Variable allocate : Z -> result F (list Row).

(** Once there is a buffer nothing is allocated any more: the loop writes
    the remaining batches behind the rows [written] so far. *)
Lemma get_activations_loop_on_fills (images : Z) (batches : list (list Image)) :
  forall (written rest : list Row),
    Forall (fun b => b <> []) batches ->
    length (concat batches) <= length rest ->
    get_activations_loop_on (F:=F) feature allocate images batches
      (Some (written ++ rest)) (length written)
    = Ok (Some (written ++ map feature (concat batches)
                ++ skipn (length (concat batches)) rest)).
Proof.
  induction batches as [|batch more IH]; intros written rest Hne Hfit.
  - reflexivity.
  - inversion Hne as [|? ? Hb Hmore]; subst.
    cbn [concat] in *. rewrite length_app in Hfit.
    cbn [get_activations_loop_on]. unfold reshape_rows.
    destruct (Nat.eqb_spec (length batch) 0) as [Hz|_].
    { destruct batch; [congruence | discriminate]. }
    cbn [rbind].
    rewrite <- (length_map feature batch) at 1.
    rewrite assign_rows_behind by (rewrite length_map; lia).
    cbn [rbind].
    replace (length written + length batch)
      with (length (written ++ map feature batch))
      by (now rewrite length_app, length_map).
    rewrite app_assoc, IH; [| assumption | rewrite length_drop, length_map; lia].
    rewrite length_map, drop_drop, map_app, length_app, <- !app_assoc.
    reflexivity.
Qed.

End CollectorOnFacts.

(** With an [np.empty] that refuses negative sizes only, the collector on
    a machine is [get_activations]. *)
Lemma get_activations_loop_on_np_empty {F Image Row : Type}
    (feature : Image -> Row) (uninit : nat -> Row) (images : Z)
    (batches : list (list Image)) :
  forall (pred_arr : option (list Row)) (end_ : nat),
    get_activations_loop_on (F:=F) feature (np_empty uninit) images batches pred_arr end_
    = get_activations_loop feature uninit images batches pred_arr end_.
Proof.
  induction batches as [|batch more IH]; intros pred_arr end_; [reflexivity|].
  cbn [get_activations_loop_on get_activations_loop].
  destruct (reshape_rows (length batch) (map feature batch)) as [bf|e];
    cbn [rbind]; [|reflexivity].
  destruct (match pred_arr with
            | Some a => Ok a
            | None => np_empty uninit images
            end) as [arr|e]; cbn [rbind]; [|reflexivity].
  destruct (assign_rows arr end_ (end_ + length batch) bf) as [arr'|e];
    cbn [rbind]; [apply IH | reflexivity].
Qed.

(** X6: a declared count larger than the number of samples.  For a non-empty
    sequence of non-empty batches, when [np.empty] answers an array with
    room for all samples, the collector returns that array with the
    activations of the samples, in order, written over its first rows; the
    rows behind them still hold whatever was allocated.  When [np.empty]
    raises, for an array the machine cannot hold as for a negative count,
    the collector raises that exception. *)
Theorem collector_pads_with_fresh_rows {F Image Row : Type}
    (feature : Image -> Row) (allocate : Z -> result F (list Row))
    (batches : list (list Image)) (images : Z) :
  batches <> [] ->
  Forall (fun b => b <> []) batches ->
  (forall fresh : list Row,
     allocate images = Ok fresh ->
     length (concat batches) <= length fresh ->
     get_activations_on feature allocate batches images
     = Ok (Some (map feature (concat batches)
                 ++ skipn (length (concat batches)) fresh)))
  /\ (forall e : exn F,
        allocate images = Raise e ->
        get_activations_on feature allocate batches images = Raise e)
  /\ (forall uninit : nat -> Row,
        get_activations_on (F:=F) feature (np_empty uninit) batches images
        = get_activations feature uninit batches images).
Proof.
  intros Hsome Hne.
  destruct batches as [|batch more]; [congruence|].
  inversion Hne as [|? ? Hb Hmore]; subst.
  assert (Hlen : Nat.eqb (length batch) 0 = false).
  { destruct batch; [congruence | reflexivity]. }
  split; [| split].
  - intros fresh Halloc Hfit. cbn [concat] in *. rewrite length_app in *.
    unfold get_activations_on. cbn [get_activations_loop_on]. unfold reshape_rows.
    rewrite Hlen, Halloc. cbn [rbind].
    rewrite <- (length_map feature batch) at 1.
    pose proof (assign_rows_behind (F:=F) [] fresh (map feature batch)) as Hw.
    cbn [app length Nat.add] in Hw |- *.
    rewrite Hw by (rewrite length_map; lia).
    cbn [rbind].
    rewrite <- (length_map feature batch) at 1.
    rewrite get_activations_loop_on_fills;
      [| assumption | rewrite length_drop, length_map; lia].
    now rewrite drop_drop, map_app, length_map, <- app_assoc.
  - intros e Halloc.
    unfold get_activations_on. cbn [get_activations_loop_on]. unfold reshape_rows.
    now rewrite Hlen, Halloc.
  - intros uninit. apply get_activations_loop_on_np_empty.
Qed.

(** Three samples in two batches on a machine that holds six rows: with a
    declared count of five the last two rows are fresh; a declared count of
    [2^62] is refused. *)
Lemma collector_pads_with_fresh_rows_witness :
  get_activations_on toy_feature toy_allocate [[1; 2]; [3]]%Z 5
  = Ok (Some [toy_feature 1; toy_feature 2; toy_feature 3; toy_uninit 3; toy_uninit 4])
  /\ get_activations_on toy_feature toy_allocate [[1; 2]; [3]]%Z (2 ^ 62)
     = Raise (ValueError "array is too big").
Proof.
  destruct (@collector_pads_with_fresh_rows float Z (vector float)
              toy_feature toy_allocate [[1; 2]; [3]]%Z 5
              ltac:(discriminate) ltac:(repeat constructor; discriminate))
    as (Hfresh & _ & _).
  destruct (@collector_pads_with_fresh_rows float Z (vector float)
              toy_feature toy_allocate [[1; 2]; [3]]%Z (2 ^ 62)
              ltac:(discriminate) ltac:(repeat constructor; discriminate))
    as (_ & Hraise & _).
  split.
  - refine (Hfresh (map toy_uninit (seq 0 5)) eq_refl _). cbn. lia.
  - exact (Hraise _ eq_refl).
Defined.

(** X7: a declared count smaller than the number of samples.  When the
    batches [pre] fit into [images] rows and the next batch, of two samples
    or more, does not fit into the rows left, writing that batch raises
    [ValueError]; a negative [images] is refused when the array is allocated,
    at the first batch. *)
Theorem collector_refuses_overflowing_batch {F Image Row : Type}
    (feature : Image -> Row) (uninit : nat -> Row)
    (pre : list (list Image)) (batch : list Image) (post : list (list Image))
    (images : Z) :
  Forall (fun b => b <> []) pre ->
  batch <> [] ->
  ((0 <= images)%Z ->
   (Z.of_nat (length (concat pre)) <= images)%Z ->
   (images < Z.of_nat (length (concat pre) + length batch))%Z ->
   2 <= length batch ->
   get_activations (F:=F) feature uninit (pre ++ batch :: post) images
   = Raise (ValueError "could not broadcast input array"))
  /\ ((images < 0)%Z ->
      get_activations (F:=F) feature uninit (pre ++ batch :: post) images
      = Raise (ValueError "negative dimensions are not allowed")).
Proof.
  intros Hne Hb.
  assert (Hreshape : reshape_rows (F:=F) (length batch) (map feature batch)
                     = Ok (map feature batch)).
  { unfold reshape_rows. destruct batch; [congruence | reflexivity]. }
  split.
  - intros Hpos Hfit Hover Htwo.
    unfold get_activations. rewrite get_activations_loop_app. cbn [Nat.add].
    destruct pre as [|first pre].
    + cbn [get_activations_loop rbind concat length] in *.
      rewrite Hreshape. cbn [rbind]. unfold np_empty.
      destruct (Z.ltb_spec images 0) as [Hneg|_]; [lia|]. cbn [rbind].
      rewrite <- (length_map feature batch) at 1.
      rewrite (assign_rows_overflow (F:=F));
        rewrite ?length_map, ?length_seq; [reflexivity | lia | lia | lia].
    + fold (get_activations (F:=F) feature uninit (first :: pre) images).
      rewrite (get_activations_padded (F:=F) feature uninit (batches:=first :: pre))
        by (assumption || discriminate).
      cbn [rbind get_activations_loop]. rewrite Hreshape. cbn [rbind].
      rewrite <- (length_map feature batch) at 1.
      rewrite (assign_rows_overflow (F:=F));
        rewrite ?length_app, ?length_map, ?length_seq; [reflexivity | lia | lia | lia].
  - intros Hneg. unfold get_activations.
    destruct pre as [|first pre].
    + cbn [app get_activations_loop]. rewrite Hreshape. cbn [rbind]. unfold np_empty.
      destruct (Z.ltb_spec images 0) as [_|Hpos]; [reflexivity | lia].
    + inversion Hne as [|? ? Hfirst _]; subst.
      cbn [app get_activations_loop]. unfold reshape_rows.
      destruct first; [congruence|]. cbn [length Nat.eqb rbind]. unfold np_empty.
      destruct (Z.ltb_spec images 0) as [_|Hpos]; [reflexivity | lia].
Qed.

(** Four samples in two batches of two with a declared count of three, and
    with a declared count of [-1]. *)
Lemma collector_refuses_overflowing_batch_witness :
  get_activations (F:=float) toy_feature toy_uninit [[1; 2]; [3; 4]]%Z 3
  = Raise (ValueError "could not broadcast input array")
  /\ get_activations (F:=float) toy_feature toy_uninit [[1; 2]; [3; 4]]%Z (-1)
     = Raise (ValueError "negative dimensions are not allowed").
Proof.
  split.
  - apply (proj1 (@collector_refuses_overflowing_batch float Z (vector float)
                    toy_feature toy_uninit [[1; 2]]%Z [3; 4]%Z [] 3
                    ltac:(repeat constructor; discriminate) ltac:(discriminate)));
      cbn; lia.
  - apply (proj2 (@collector_refuses_overflowing_batch float Z (vector float)
                    toy_feature toy_uninit [[1; 2]]%Z [3; 4]%Z [] (-1)
                    ltac:(repeat constructor; discriminate) ltac:(discriminate))).
    lia.
Defined.

(** X8: samples beyond the declared count, one at a time.  Once the batches
    [pre] have filled the [images] rows, batches of a single sample are
    written to an empty slice, into which the one row is broadcast: they
    raise nothing and leave no trace in the result. *)
Theorem collector_drops_single_samples_past_count {F Image Row : Type}
    (feature : Image -> Row) (uninit : nat -> Row)
    (pre post : list (list Image)) (images : Z) :
  pre <> [] ->
  Forall (fun b => b <> []) pre ->
  Z.of_nat (length (concat pre)) = images ->
  Forall (fun b => length b = 1) post ->
  get_activations (F:=F) feature uninit (pre ++ post) images
  = Ok (Some (map feature (concat pre))).
Proof.
  intros Hsome Hne Htotal Hone.
  unfold get_activations. rewrite get_activations_loop_app.
  fold (get_activations (F:=F) feature uninit pre images).
  rewrite (get_activations_filled feature uninit Hsome Hne Htotal).
  cbn [rbind Nat.add].
  apply get_activations_loop_past_end; [assumption | now rewrite length_map].
Qed.

(** Two samples fill the declared count of two; two more arrive one by
    one. *)
Lemma collector_drops_single_samples_past_count_witness :
  get_activations (F:=float) toy_feature toy_uninit ([[1; 2]] ++ [[3]; [4]])%Z 2
  = Ok (Some (map toy_feature [1; 2]%Z)).
Proof.
  apply (@collector_drops_single_samples_past_count float Z (vector float)
           toy_feature toy_uninit [[1; 2]]%Z [[3]; [4]]%Z 2);
    [discriminate | repeat constructor; discriminate | reflexivity
    | repeat constructor].
Defined.

(** ** The reference statistics *)

Section KeepLastFacts.
Context {A : Type}.

(** Without [drop_last] the loader yields every sample once, in order, in
    batches none of which is empty. *)
Lemma DataLoader_keep_last {F} (data : list A) (batch_size : nat) :
  0 < batch_size ->
  exists batches,
    DataLoader (F:=F) data batch_size false = Ok batches
    /\ concat batches = data
    /\ Forall (fun b => b <> []) batches
    /\ (data <> [] -> batches <> []).
Proof.
  intros Hpos. unfold DataLoader.
  destruct (Nat.eqb_spec batch_size 0) as [Hz|_]; [lia|].
  cbn [orb].
  set (full := length data / batch_size).
  assert (Hfull : full * batch_size <= length data).
  { unfold full. rewrite Nat.mul_comm. apply Nat.Div0.mul_div_le. }
  set (rest := skipn (full * batch_size) data).
  eexists. split; [reflexivity|]. split; [| split].
  - rewrite concat_app, concat_full_batches.
    destruct (Nat.eqb_spec (length rest) 0) as [Hrest|_]; cbn [concat].
    + apply length_zero_iff_nil in Hrest. fold rest.
      rewrite <- (firstn_skipn (full * batch_size) data) at 2.
      fold rest. now rewrite Hrest.
    + rewrite app_nil_r. apply firstn_skipn.
  - apply Forall_app. split.
    + pose proof (full_batches_sizes full batch_size data Hfull) as Hsizes.
      induction Hsizes as [|b bs Hb _ IH]; constructor; [|exact IH].
      intros ->. cbn [length] in Hb. lia.
    + destruct (Nat.eqb_spec (length rest) 0) as [|Hrest]; constructor; [|constructor].
      intros Hnil. now rewrite Hnil in Hrest.
  - intros Hdata Hnil. apply app_eq_nil in Hnil as [Hwhole Hlast].
    apply (f_equal (@length _)) in Hwhole. rewrite length_full_batches in Hwhole.
    cbn [length] in Hwhole.
    destruct (Nat.eqb_spec (length rest) 0) as [Hrest|_]; [|discriminate].
    unfold rest in Hrest. rewrite length_drop, Hwhole in Hrest.
    cbn [Nat.mul] in Hrest. rewrite Nat.sub_0_r in Hrest.
    now apply length_zero_iff_nil in Hrest.
Qed.

End KeepLastFacts.

(** X9: the reference statistics cover the whole reference population.  When
    the statistics are computed (lines 163-170), every training image goes
    through the classifier once, in the order of the data set, the short
    last batch included, and the statistics are the unweighted moments of
    these activations; with no training image there is no array to take
    moments of, and the computation raises. *)
Theorem reference_statistics_over_all_images {F : Type} {SF : Scalar F} {Image : Type}
    (feature : Image -> vector F) (uninit : nat -> vector F)
    (mnist_train : list Image) :
  (mnist_train <> [] ->
   reference_statistics feature uninit mnist_train
   = activation_moments (Some (map feature mnist_train)) None)
  /\ (mnist_train = [] ->
      exists e, reference_statistics feature uninit mnist_train = Raise e).
Proof.
  unfold reference_statistics, calculate_activation_statistics.
  destruct (@DataLoader_keep_last Image F mnist_train 64 ltac:(lia))
    as (batches & -> & Hconcat & Hne & Hsome).
  cbn [rbind]. split.
  - intros Hdata.
    rewrite (get_activations_filled feature uninit (Hsome Hdata) Hne)
      by now rewrite Hconcat.
    cbn [rbind]. now rewrite Hconcat.
  - intros ->. destruct batches as [|b batches].
    + cbn. eauto.
    + inversion Hne; subst. destruct b; [congruence | discriminate].
Qed.

Local Open Scope float_scope.

(** A reference population of three samples. *)
Lemma reference_statistics_over_all_images_witness :
  reference_statistics toy_feature toy_uninit [1; 2; 3]%Z
  = activation_moments (Some [toy_feature 1; toy_feature 2; toy_feature 3]) None.
Proof.
  apply (@reference_statistics_over_all_images float float64 Z
           toy_feature toy_uninit [1; 2; 3]%Z).
  discriminate.
Defined.

Local Close Scope float_scope.

(** X10: what constructing the model does to the [.npz] archives on disk.
    No archive other than the statistics file is ever written; a statistics
    file that is there is never rewritten, whether it can be used or not;
    and a construction that raises has written no archive.  (The data set
    that line 163 may download is no archive and is not covered.) *)
Theorem MNISTModel_init_writes_only_missing_statistics
    {F : Type} {SF : Scalar F} {Image : Type}
    (feature : Image -> vector F) (uninit : nat -> vector F)
    (mnist_train : list Image) (fs : disk F) :
  (forall path : string,
     path <> stats_file ->
     fst (MNISTModel_init feature uninit mnist_train fs) !! path = fs !! path)
  /\ (is_Some (fs !! stats_file) ->
      fst (MNISTModel_init feature uninit mnist_train fs) = fs)
  /\ (forall e,
        snd (MNISTModel_init feature uninit mnist_train fs) = Raise e ->
        fst (MNISTModel_init feature uninit mnist_train fs) = fs).
Proof.
  unfold MNISTModel_init, np_load.
  destruct (fs !! stats_file) as [f|] eqn:Hfile.
  - cbn [fst snd]. repeat split; reflexivity.
  - destruct (reference_statistics feature uninit mnist_train) as [[m s]|e'];
      cbn [fst snd].
    + split; [| split].
      * intros path Hpath. unfold np_savez_arrays. now rewrite lookup_insert_ne.
      * intros [f Hf]. discriminate Hf.
      * intros e He. discriminate He.
    + repeat split; reflexivity.
Qed.

Local Open Scope float_scope.

(** A disk with a statistics file of the wrong dimensions and another
    archive: both stay as they are. *)
Lemma MNISTModel_init_writes_only_missing_statistics_witness :
  "mnist.pth" <> stats_file
  /\ is_Some (<["mnist.pth" := ∅]> stale_disk !! stats_file)
  /\ fst (MNISTModel_init toy_feature toy_uninit [1; 2; 3]%Z
            (<["mnist.pth" := ∅]> stale_disk))
     = <["mnist.pth" := ∅]> stale_disk.
Proof.
  assert (Hother : "mnist.pth" <> stats_file) by discriminate.
  assert (Hfile : is_Some (<["mnist.pth" := ∅]> stale_disk !! stats_file)).
  { rewrite lookup_insert_ne by exact Hother. unfold stale_disk, np_savez, np_savez_arrays.
    rewrite lookup_insert_eq. eauto. }
  split; [exact Hother | split; [exact Hfile |]].
  exact (proj1 (proj2 (@MNISTModel_init_writes_only_missing_statistics float float64 Z
                         toy_feature toy_uninit [1; 2; 3]%Z
                         (<["mnist.pth" := ∅]> stale_disk)))
               Hfile).
Defined.

Local Close Scope float_scope.

(** X11: constructing the model twice.  After a construction that returned
    statistics with a covariance of one dimension at least, a second
    construction on the disk the first one left returns the same statistics
    and leaves the disk as it is, whether the first one loaded them or
    computed and saved them.  A construction that returned a 0-D covariance
    has computed it, for a single variable, and saved it as it is: the
    second construction raises [IndexError] at [f['sigma'][:]]. *)
Theorem MNISTModel_init_idempotent {F : Type} {SF : Scalar F} {Image : Type}
    (feature : Image -> vector F) (uninit : nat -> vector F)
    (mnist_train : list Image) (fs fs' : disk F) (mnist_stats : npy F * npy F) :
  MNISTModel_init feature uninit mnist_train fs = (fs', Ok mnist_stats) ->
  ((forall x, snd mnist_stats <> NpyScalar x) ->
   MNISTModel_init feature uninit mnist_train fs' = (fs', Ok mnist_stats))
  /\ (forall x : F,
        snd mnist_stats = NpyScalar x ->
        fs !! stats_file = None
        /\ MNISTModel_init feature uninit mnist_train fs'
           = (fs', Raise (IndexError "too many indices for array"))).
Proof.
  intros Hinit. pose proof Hinit as Hfirst.
  unfold MNISTModel_init, np_load in Hinit.
  destruct (fs !! stats_file) as [f|] eqn:Hfile.
  - injection Hinit as <- Hstats. split; [intros _; exact Hfirst|].
    intros x Hx. exfalso. unfold getitem in Hstats.
    destruct (f !! "mu") as [[?| |]|]; cbn [rbind getslice_all] in Hstats;
      try discriminate Hstats;
      (destruct (f !! "sigma") as [[?| |]|]; cbn [rbind getslice_all] in Hstats;
       try discriminate Hstats);
      injection Hstats as <-; discriminate Hx.
  - destruct (reference_statistics feature uninit mnist_train) as [[m s]|e];
      [|discriminate Hinit].
    injection Hinit as <- <-. cbn [snd].
    rewrite MNISTModel_init_after_savez. split.
    + intros Hs. destruct (cov_squeeze s) as [x| |]; [now destruct (Hs x) | |];
        reflexivity.
    + intros x ->. now split.
Qed.

Local Open Scope float_scope.

(** An empty disk.  With the classifier of two features the first
    construction computes and saves, and the second loads.  With a
    classifier of one feature the first construction returns the variance
    as a 0-D array, and the second raises. *)
Lemma MNISTModel_init_idempotent_witness :
  MNISTModel_init toy_feature toy_uninit [1; 3]%Z ∅
  = (np_savez ∅ stats_file [2; 5] [[2; 8]; [8; 32]],
     Ok (NpyVector [2; 5], NpyMatrix [[2; 8]; [8; 32]]))
  /\ MNISTModel_init toy_feature toy_uninit [1; 3]%Z
       (np_savez ∅ stats_file [2; 5] [[2; 8]; [8; 32]])
     = (np_savez ∅ stats_file [2; 5] [[2; 8]; [8; 32]],
        Ok (NpyVector [2; 5], NpyMatrix [[2; 8]; [8; 32]]))
  /\ MNISTModel_init toy_single_feature toy_uninit [1; 2; 3]%Z ∅
     = (np_savez_arrays ∅ stats_file (NpyVector [2]) (NpyScalar 1),
        Ok (NpyVector [2], NpyScalar 1))
  /\ MNISTModel_init toy_single_feature toy_uninit [1; 2; 3]%Z
       (np_savez_arrays ∅ stats_file (NpyVector [2]) (NpyScalar 1))
     = (np_savez_arrays ∅ stats_file (NpyVector [2]) (NpyScalar 1),
        Raise (IndexError "too many indices for array")).
Proof.
  assert (Htwo : MNISTModel_init toy_feature toy_uninit [1; 3]%Z ∅
                 = (np_savez ∅ stats_file [2; 5] [[2; 8]; [8; 32]],
                    Ok (NpyVector [2; 5], NpyMatrix [[2; 8]; [8; 32]]))).
  { apply (@MNISTModel_init_recomputes float float64 Z toy_feature toy_uninit
             [1; 3]%Z ∅ [2; 5] [[2; 8]; [8; 32]]);
      [reflexivity | vm_compute; reflexivity]. }
  assert (Hone : MNISTModel_init toy_single_feature toy_uninit [1; 2; 3]%Z ∅
                 = (np_savez_arrays ∅ stats_file (NpyVector [2]) (NpyScalar 1),
                    Ok (NpyVector [2], NpyScalar 1))).
  { apply (@MNISTModel_init_recomputes float float64 Z toy_single_feature toy_uninit
             [1; 2; 3]%Z ∅ [2] [[1]]);
      [reflexivity | vm_compute; reflexivity]. }
  split; [exact Htwo | split; [| split; [exact Hone |]]].
  - apply (proj1 (@MNISTModel_init_idempotent float float64 Z toy_feature toy_uninit
                    [1; 3]%Z ∅ _ _ Htwo)).
    discriminate.
  - exact (proj2 (proj2 (@MNISTModel_init_idempotent float float64 Z toy_single_feature
                           toy_uninit [1; 2; 3]%Z ∅ _ _ Hone) 1 eq_refl)).
Defined.

Local Close Scope float_scope.

(** ** Scoring: what is and is not scored *)

Section WholeBatchFacts.
Context {A : Type}.

(** The whole batches of a population do not depend on what follows
    them. *)
Lemma full_batches_app (k batch_size : nat) (data tail : list A) :
  k * batch_size <= length data ->
  full_batches k batch_size (data ++ tail) = full_batches k batch_size data.
Proof.
  revert data. induction k as [|k IH]; intros data Hroom; cbn [full_batches];
    [reflexivity|].
  cbn [Nat.mul] in Hroom.
  rewrite take_app_le, drop_app_le by lia.
  rewrite IH by (rewrite length_drop; lia).
  reflexivity.
Qed.

Lemma whole_batches_with_tail (k batch_size : nat) (data tail : list A) :
  length data = k * batch_size ->
  length tail < batch_size ->
  length (data ++ tail) / batch_size = k /\ length data / batch_size = k.
Proof.
  intros Hdata Htail. split; symmetry.
  - apply (Nat.div_unique _ _ _ (length tail)); [exact Htail|].
    rewrite length_app. lia.
  - apply (Nat.div_unique _ _ _ 0); lia.
Qed.

End WholeBatchFacts.

(** X12: the imputation score does not see a short last batch.  For a
    population of whole batches, appending fewer samples than a batch holds
    changes neither the score nor what the call does to the disk. *)
Theorem imputer_fid_ignores_short_tail {F : Type} {SF : Scalar F}
    {Image Noise Mask Sample : Type}
    (feature : Image -> vector F) (uninit : nat -> vector F)
    (linalg_sqrtm : matrix F -> result F (ndarray F)) (mnist_train : list Image)
    (sample_data : Sample -> Image) (sample_mask : Sample -> Mask)
    (uniform_ : nat -> nat -> Noise)
    (imputer : list Image -> list Mask -> list Noise -> list Image)
    (fs : disk F) (data tail : list Sample) (batch_size k : nat) :
  length data = k * batch_size ->
  length tail < batch_size ->
  imputer_fid feature uninit linalg_sqrtm mnist_train sample_data sample_mask
    uniform_ imputer fs (data ++ tail) batch_size
  = imputer_fid feature uninit linalg_sqrtm mnist_train sample_data sample_mask
      uniform_ imputer fs data batch_size.
Proof.
  intros Hdata Htail.
  assert (Hpos : 0 < batch_size) by lia.
  destruct (@whole_batches_with_tail Sample k batch_size data tail Hdata Htail)
    as [Hwith Hwithout].
  unfold imputer_fid, imputer_features.
  rewrite !(DataLoader_drop_last _ Hpos), Hwith, Hwithout.
  rewrite full_batches_app by lia.
  reflexivity.
Qed.

Local Open Scope float_scope.

(** Four samples in batches of two, and a fifth. *)
Lemma imputer_fid_ignores_short_tail_witness :
  imputer_fid toy_feature toy_uninit sqrtm_small [1; 2; 3]%Z toy_sample_data
    toy_sample_mask toy_uniform toy_imputer ∅ ([1; 2; 3; 4] ++ [5])%Z 2
  = imputer_fid toy_feature toy_uninit sqrtm_small [1; 2; 3]%Z toy_sample_data
      toy_sample_mask toy_uniform toy_imputer ∅ [1; 2; 3; 4]%Z 2.
Proof.
  apply (@imputer_fid_ignores_short_tail float float64 Z unit unit Z
           toy_feature toy_uninit sqrtm_small [1; 2; 3]%Z toy_sample_data
           toy_sample_mask toy_uniform toy_imputer ∅ [1; 2; 3; 4]%Z [5]%Z 2 2);
    [reflexivity | cbn; lia].
Defined.

Local Close Scope float_scope.

(** X13: scoring with nothing to score.  Once the reference statistics are
    at hand, a generator budget of zero samples and a population smaller
    than one batch leave no feature array, and the score raises instead of
    returning; a batch size of zero is refused by the loader on the
    imputation path and, on the generator path, ends the loop at its first
    pass with the [ValueError] of [reshape(0, -1)] rather than letting it
    spin. *)
Theorem scoring_without_rows_raises {F : Type} {SF : Scalar F}
    {Image Latent Noise Mask Sample : Type}
    (feature : Image -> vector F) (uninit : nat -> vector F)
    (linalg_sqrtm : matrix F -> result F (ndarray F)) (mnist_train : list Image)
    (normal_ : nat -> nat -> Latent) (data_generator : list Latent -> list Image)
    (sample_data : Sample -> Image) (sample_mask : Sample -> Mask)
    (uniform_ : nat -> nat -> Noise)
    (imputer : list Image -> list Mask -> list Noise -> list Image)
    (fs fs' : disk F) (mnist_stats : npy F * npy F) :
  MNISTModel_init feature uninit mnist_train fs = (fs', Ok mnist_stats) ->
  (forall batch_size,
     exists e,
       data_generator_fid feature uninit linalg_sqrtm mnist_train normal_ data_generator
         fs 0 batch_size
       = (fs', Some (Raise e)))
  /\ (forall (data : list Sample) (batch_size : nat),
        0 < batch_size ->
        length data < batch_size ->
        exists e,
          imputer_fid feature uninit linalg_sqrtm mnist_train sample_data sample_mask
            uniform_ imputer fs data batch_size
          = (fs', Raise e))
  /\ (forall data : list Sample,
        imputer_fid feature uninit linalg_sqrtm mnist_train sample_data sample_mask
          uniform_ imputer fs data 0
        = (fs', Raise (ValueError "batch_size should be a positive integer value")))
  /\ (forall n_samples,
        0 < n_samples ->
        data_generator [] = [] ->
        data_generator_fid feature uninit linalg_sqrtm mnist_train normal_ data_generator
          fs n_samples 0
        = (fs', Some (Raise (ValueError
                               "cannot reshape array of size 0 into shape (0,newaxis)")))).
Proof.
  intros Hinit. split; [| split; [| split]].
  - intros batch_size. unfold data_generator_fid. rewrite Hinit.
    cbn. eauto.
  - intros data batch_size Hpos Hshort.
    unfold imputer_fid, imputer_features. rewrite Hinit.
    rewrite (DataLoader_drop_last _ Hpos), Nat.div_small by exact Hshort.
    cbn. eauto.
  - intros data. unfold imputer_fid, imputer_features, DataLoader. rewrite Hinit.
    reflexivity.
  - intros n_samples Hpos Hempty. unfold data_generator_fid. rewrite Hinit.
    unfold generator_features.
    destruct n_samples as [|n]; [lia|].
    cbn [generator_loop gen_count Nat.ltb Nat.leb].
    unfold generator_step. cbn [seq map]. rewrite Hempty.
    reflexivity.
Qed.

Local Open Scope float_scope.

(** The toy collaborators on a disk that holds statistics of two
    features. *)
Lemma scoring_without_rows_raises_witness :
  (exists e,
     data_generator_fid toy_feature toy_uninit sqrtm_small [1; 2; 3]%Z
       toy_normal toy_generator
       (np_savez ∅ stats_file [0; 0] [[1; 0]; [0; 1]]) 0 64
     = (np_savez ∅ stats_file [0; 0] [[1; 0]; [0; 1]], Some (Raise e)))
  /\ (exists e,
        imputer_fid toy_feature toy_uninit sqrtm_small [1; 2; 3]%Z toy_sample_data
          toy_sample_mask toy_uniform toy_imputer
          (np_savez ∅ stats_file [0; 0] [[1; 0]; [0; 1]]) [1; 2; 3]%Z 64
        = (np_savez ∅ stats_file [0; 0] [[1; 0]; [0; 1]], Raise e)).
Proof.
  destruct (@scoring_without_rows_raises float float64 Z Z unit unit Z
              toy_feature toy_uninit sqrtm_small [1; 2; 3]%Z toy_normal toy_generator
              toy_sample_data toy_sample_mask toy_uniform toy_imputer
              (np_savez ∅ stats_file [0; 0] [[1; 0]; [0; 1]]) _ _
              (MNISTModel_init_after_save toy_feature toy_uninit [1; 2; 3]%Z
                 ∅ [0; 0] [[1; 0]; [0; 1]]))
    as (Hgenerator & Himputer & _).
  split; [exact (Hgenerator 64%nat)|].
  apply (Himputer [1; 2; 3]%Z 64%nat); cbn; lia.
Defined.

Local Close Scope float_scope.

(** ** The covariance estimate *)

Section GramFacts.
Context {F : Type} {SF : Scalar F}.
Hypothesis fmul_comm : forall x y : F, fmul x y = fmul y x.

(** The dot product adds the same products in the same order whichever
    array comes first. *)
Lemma vdot_swap (x y : vector F) : vdot x y = vdot y x.
Proof.
  unfold vdot. generalize (@f0 F SF) as acc. revert y.
  induction x as [|a x IH]; intros [|b y] acc; cbn [combine fold_left fst snd];
    try reflexivity.
  now rewrite IH, fmul_comm.
Qed.

Lemma map_nth_seq_all {A} (l : list A) (d : A) :
  map (fun j => nth j l d) (seq 0 (length l)) = l.
Proof.
  induction l as [|a l IH]; [reflexivity|].
  cbn [length seq map nth]. f_equal.
  rewrite <- seq_shift, map_map. exact IH.
Qed.

(** A table of a symmetric function over one list is its own transpose. *)
Lemma transpose_gram {A} (g : A -> A -> F) (L : list A) (d : F) :
  (forall a b, g a b = g b a) ->
  transpose_of d (map (fun a => map (g a) L) L) = map (fun a => map (g a) L) L.
Proof.
  intros Hsym. destruct L as [|a0 L0] eqn:HL; [reflexivity|]. rewrite <- HL.
  unfold transpose_of.
  assert (Hcols : ncols (map (fun a => map (g a) L) L) = length L).
  { unfold ncols. rewrite HL. cbn [map hd length]. now rewrite length_map. }
  rewrite Hcols.
  transitivity (map (fun a => map (g a) L) (map (fun j => nth j L a0) (seq 0 (length L))));
    [| now rewrite map_nth_seq_all].
  rewrite map_map. apply map_ext_in. intros j Hj. apply in_seq in Hj.
  unfold col_of. rewrite map_map. apply map_ext. intros a.
  rewrite (nth_indep _ d (g a a0)) by (rewrite length_map; lia).
  rewrite (map_nth (g a) L a0 j). apply Hsym.
Qed.

(** The unweighted covariance estimate is such a table. *)
Lemma np_cov_unweighted_symmetric (act sigma : matrix F) :
  np_cov_rowvar_false act None = Ok sigma -> transpose sigma = sigma.
Proof.
  unfold np_cov_rowvar_false.
  set (X := if Nat.eqb (nrows act) 1 then act else transpose act).
  destruct (Nat.eqb (nrows X) 0); [now intros [= <-]|].
  cbn [rbind]. intros [= <-].
  apply (transpose_gram
           (fun ri rj => fmul (vdot ri rj)
                           (fdiv (of_Z 1) (cov_fact (ncols X) None)))).
  intros a b. now rewrite vdot_swap.
Qed.

End GramFacts.

(** X14: the covariance the score is computed from is symmetric.  In exact
    arithmetic the unweighted covariance estimate of any feature array
    equals its own transpose, entry by entry. *)
Theorem covariance_estimate_symmetric (act : matrix Qc)
    (mu : vector Qc) (sigma : matrix Qc) :
  activation_moments (Some act) None = Ok (mu, sigma) ->
  transpose sigma = sigma.
Proof.
  unfold activation_moments.
  destruct (np_cov_rowvar_false act None) as [s|e] eqn:Hcov; cbn [rbind];
    [|discriminate].
  intros [= _ <-].
  exact (@np_cov_unweighted_symmetric Qc exact Qcmult_comm act s Hcov).
Qed.

(** Three samples of two features. *)
Lemma covariance_estimate_symmetric_witness :
  exists (mu : vector Qc) (sigma : matrix Qc),
    activation_moments (Some (map (map (@of_Z Qc exact)) [[1; 1]; [2; 4]; [4; 16]]%Z)) None
    = Ok (mu, sigma)
    /\ nrows sigma = 2%nat
    /\ entry sigma 0 1 = Q2Qc 12
    /\ transpose sigma = sigma.
Proof.
  destruct (activation_moments
              (Some (map (map (@of_Z Qc exact)) [[1; 1]; [2; 4]; [4; 16]]%Z)) None)
    as [[mu sigma]|e] eqn:Hmoments; [|vm_compute in Hmoments; discriminate Hmoments].
  exists mu, sigma. split; [reflexivity|]. split; [| split].
  - vm_compute in Hmoments. injection Hmoments as _ <-. reflexivity.
  - vm_compute in Hmoments. injection Hmoments as _ <-.
    apply Qc_is_canon. reflexivity.
  - exact (@covariance_estimate_symmetric _ mu sigma Hmoments).
Defined.

(** ** The generator loop *)

Section GeneratorLoopFacts.
Context {F Image Latent : Type}.
Variable feature : Image -> vector F.
Variable uninit : nat -> vector F.
Variable normal_ : nat -> nat -> Latent.
Variable data_generator : list Latent -> list Image.
Variable n_samples : nat.

(** A pass that does not raise moves [count] forward by the batch size, or
    to [n_samples] when the batch was cut, and leaves a positive batch
    size. *)
Lemma generator_step_progress (noise_rows it : nat) (st st' : generator_state) :
  0 < gen_batch_size st ->
  gen_count st < n_samples ->
  generator_step feature uninit normal_ data_generator n_samples noise_rows it st = Ok st' ->
  0 < gen_batch_size st' /\ gen_count st < gen_count st'.
Proof.
  intros Hpos Hlt. unfold generator_step.
  destruct (get_feature feature _) as [bf|e]; cbn [rbind]; [|discriminate].
  destruct (match gen_features st with
            | Some a => Ok a
            | None => np_empty uninit (Z.of_nat n_samples)
            end) as [arr|e]; cbn [rbind]; [|discriminate].
  destruct (Nat.ltb_spec n_samples (gen_count st + gen_batch_size st)) as [Hcut|Hwhole].
  - destruct (assign_rows arr _ _ _) as [arr'|e]; cbn [rbind]; [|discriminate].
    intros [= <-]. cbn [gen_batch_size gen_count]. lia.
  - destruct (assign_rows arr _ _ _) as [arr'|e]; cbn [rbind]; [|discriminate].
    intros [= <-]. cbn [gen_batch_size gen_count]. lia.
Qed.

(** With a positive batch size, as many passes as there are samples still
    to come always end the loop: it returns or it raises. *)
Lemma generator_loop_ends (fuel : nat) :
  forall (noise_rows it : nat) (st : generator_state),
    0 < gen_batch_size st ->
    n_samples - gen_count st <= fuel ->
    generator_loop feature uninit normal_ data_generator fuel n_samples noise_rows it st
    <> None.
Proof.
  induction fuel as [|fuel IH]; intros noise_rows it st Hpos Hfuel;
    cbn [generator_loop];
    destruct (Nat.ltb_spec (gen_count st) n_samples) as [Hlt|Hge];
    try discriminate; [lia|].
  destruct (generator_step feature uninit normal_ data_generator n_samples noise_rows it st)
    as [st'|e] eqn:Hstep; [|discriminate].
  destruct (@generator_step_progress noise_rows it st st' Hpos Hlt Hstep)
    as [Hpos' Hmove].
  apply IH; [exact Hpos' | lia].
Qed.

End GeneratorLoopFacts.

(** X15: the generator loop always ends.  With a positive batch size the
    loop of [data_generator_fid] returns or raises within [n_samples]
    passes, whatever the generator hands back; so does the call, once the
    model is constructed. *)
Theorem generator_scoring_always_ends {F : Type} {SF : Scalar F}
    {Image Latent : Type}
    (feature : Image -> vector F) (uninit : nat -> vector F)
    (linalg_sqrtm : matrix F -> result F (ndarray F)) (mnist_train : list Image)
    (normal_ : nat -> nat -> Latent) (data_generator : list Latent -> list Image)
    (fs : disk F) (n_samples batch_size : nat) :
  0 < batch_size ->
  (exists features,
     generator_features feature uninit normal_ data_generator n_samples batch_size
     = Some features)
  /\ exists score,
       snd (data_generator_fid feature uninit linalg_sqrtm mnist_train normal_
              data_generator fs n_samples batch_size)
       = Some score.
Proof.
  intros Hpos.
  assert (Hends : exists features,
             generator_features feature uninit normal_ data_generator n_samples batch_size
             = Some features).
  { unfold generator_features.
    destruct (generator_loop feature uninit normal_ data_generator n_samples n_samples
                batch_size 0
                {| gen_count := 0; gen_batch_size := batch_size; gen_features := None |})
      as [r|] eqn:Hloop; [cbn; eauto|].
    exfalso. revert Hloop. apply generator_loop_ends; cbn [gen_batch_size gen_count]; lia. }
  split; [exact Hends|].
  destruct Hends as [features Hfeatures].
  unfold data_generator_fid.
  destruct (MNISTModel_init feature uninit mnist_train fs) as [fs' [mnist_stats|e]];
    cbn [snd]; [|eauto].
  rewrite Hfeatures. cbn. eauto.
Qed.

Local Open Scope float_scope.

(** A generator that hands back one image whatever it is given. *)
Lemma generator_scoring_always_ends_witness :
  exists features,
    generator_features (F:=float) toy_feature toy_uninit toy_normal (fun _ => [7%Z]) 3 2
    = Some features.
Proof.
  apply (@generator_scoring_always_ends float float64 Z Z toy_feature toy_uninit
           sqrtm_small [] toy_normal (fun _ => [7%Z]) ∅ 3 2).
  lia.
Defined.

Local Close Scope float_scope.

(** ** The drivers *)

Section GeneratedRowsFacts.
Context {F Image Latent : Type}.
Variable feature : Image -> vector F.
Variable normal_ : nat -> nat -> Latent.
Variable data_generator : list Latent -> list Image.
Variable batch_size : nat.

Lemma generated_rows_app (it k j : nat) :
  generated_rows feature normal_ data_generator batch_size it (k + j)
  = generated_rows feature normal_ data_generator batch_size it k
    ++ generated_rows feature normal_ data_generator batch_size (it + k) j.
Proof.
  revert it. induction k as [|k IH]; intros it; cbn [Nat.add generated_rows app].
  - now rewrite Nat.add_0_r.
  - rewrite IH, <- app_assoc. do 3 f_equal. lia.
Qed.

(** The first rows do not depend on how many passes follow those that
    generated them. *)
Lemma firstn_generated_rows (n k k' : nat) :
  0 < batch_size ->
  (forall z, length (data_generator z) = length z) ->
  n <= k * batch_size ->
  k <= k' ->
  firstn n (generated_rows feature normal_ data_generator batch_size 0 k')
  = firstn n (generated_rows feature normal_ data_generator batch_size 0 k).
Proof.
  intros Hpos Hgen Hn Hk.
  replace k' with (k + (k' - k)) by lia.
  rewrite generated_rows_app.
  apply take_app_le.
  rewrite (length_generated_rows feature normal_ data_generator Hpos Hgen). exact Hn.
Qed.

End GeneratedRowsFacts.

Lemma default_samples_passes :
  0 < default_samples /\ 0 < default_batch_size
  /\ 937 * default_batch_size < default_samples
  /\ default_samples <= 938 * default_batch_size
  /\ 938 <= default_samples.
Proof. unfold default_samples, default_batch_size. lia. Qed.

Section DriverFacts.
Context {F : Type} {SF : Scalar F}.
Context {Image Latent Noise Mask Sample State Prob : Type}.
Variable feature : Image -> vector F.
Variable uninit : nat -> vector F.
Variable linalg_sqrtm : matrix F -> result F (ndarray F).
Variable mnist_train : list Image.
Variable normal_ : nat -> nat -> Latent.
Variable sample_data : Sample -> Image.
Variable sample_mask : Sample -> Mask.
Variable uniform_ : nat -> nat -> Noise.
Variable torch_load : path -> result F (checkpoint State Prob).
Variable ConvDataGenerator : State -> result F (list Latent -> list Image).
Variable FCDataGenerator : State -> result F (list Latent -> list Image).
Variable ComplementImputer :
  list Z -> State -> result F (list Image -> list Mask -> list Noise -> list Image).
Variable MaskImputer :
  list Z -> State -> result F (list Image -> list Mask -> list Noise -> list Image).
Variable FixedNoiseDimImputer :
  list Z -> State -> result F (list Image -> list Mask -> list Noise -> list Image).
Variable IndepMaskedMNIST : Prob -> Prob -> list Sample.
Variable BlockMaskedMNIST : option Z -> list Sample.
Variable py_int : string -> result F Z.
Variable listdir : path -> list string.

(** X16: the budget of [pretrained_misgan_fid].  Whatever [samples] and
    [batch_size] it is called with, a checkpoint of a convolutional or fully
    connected generator is scored on [60000] generated samples drawn in
    batches of [64]: the rows of 938 passes, the last of them cut to its
    first 32 rows. *)
Theorem pretrained_misgan_fid_fixed_budget
    (model_file : path) (samples batch_size : nat) (fs fs' : disk F)
    (model : checkpoint State Prob) (args : namespace Prob) (state : State)
    (DataGenerator : State -> result F (list Latent -> list Image))
    (data_gen : list Latent -> list Image) (mnist_stats : npy F * npy F) :
  torch_load model_file = Ok model ->
  ckpt_args model = Some args ->
  (args_generator args = "conv" /\ DataGenerator = ConvDataGenerator)
  \/ (args_generator args = "fc" /\ DataGenerator = FCDataGenerator) ->
  ckpt_data_gen model = Some state ->
  DataGenerator state = Ok data_gen ->
  (forall z, length (data_gen z) = length z) ->
  MNISTModel_init feature uninit mnist_train fs = (fs', Ok mnist_stats) ->
  let features :=
    firstn default_samples
      (generated_rows feature normal_ data_gen default_batch_size 0 938) in
  length features = default_samples
  /\ 937 * default_batch_size + 32 = default_samples
  /\ pretrained_misgan_fid feature uninit linalg_sqrtm mnist_train normal_ torch_load
       ConvDataGenerator FCDataGenerator model_file samples batch_size fs
     = (fs', Some (of_result (fid linalg_sqrtm mnist_stats (Some features)))).
Proof.
  intros Hload Hargs Hkind Hstate Hgen Hrows Hinit features.
  destruct default_samples_passes as (Hn & Hb & _ & Hlast & Hpasses).
  split; [| split].
  - unfold features.
    rewrite length_take, (length_generated_rows feature normal_ data_gen Hb Hrows).
    lia.
  - unfold default_samples, default_batch_size. lia.
  - unfold pretrained_misgan_fid. rewrite Hload, Hargs.
    assert (Hclass : (if String.eqb (args_generator args) "conv"
                      then Some ConvDataGenerator
                      else if String.eqb (args_generator args) "fc"
                           then Some FCDataGenerator else None)
                     = Some DataGenerator).
    { destruct Hkind as [[-> ->]|[-> ->]]; reflexivity. }
    rewrite Hclass, Hstate, Hgen.
    unfold data_generator_fid. rewrite Hinit.
    rewrite (generator_features_full feature uninit normal_ data_gen Hb Hrows Hn).
    rewrite (firstn_generated_rows feature normal_ data_gen Hb Hrows Hlast Hpasses).
    reflexivity.
Qed.

(** *** What the drivers leave on the disk *)

(** The scoring functions touch the disk through the construction of the
    model only. *)
Lemma data_generator_fid_disk (data_generator : list Latent -> list Image)
    (fs : disk F) (n_samples batch_size : nat) :
  fst (data_generator_fid feature uninit linalg_sqrtm mnist_train normal_ data_generator
         fs n_samples batch_size)
  = fst (MNISTModel_init feature uninit mnist_train fs).
Proof.
  unfold data_generator_fid.
  now destruct (MNISTModel_init feature uninit mnist_train fs) as [fs' [stats|e]].
Qed.

Lemma imputer_fid_disk
    (imputer : list Image -> list Mask -> list Noise -> list Image)
    (fs : disk F) (data : list Sample) (batch_size : nat) :
  fst (imputer_fid feature uninit linalg_sqrtm mnist_train sample_data sample_mask
         uniform_ imputer fs data batch_size)
  = fst (MNISTModel_init feature uninit mnist_train fs).
Proof.
  unfold imputer_fid.
  now destruct (MNISTModel_init feature uninit mnist_train fs) as [fs' [stats|e]].
Qed.

Lemma MNISTModel_init_other_files (fs : disk F) (name : string) :
  name <> stats_file ->
  fst (MNISTModel_init feature uninit mnist_train fs) !! name = fs !! name.
Proof.
  intros Hname. unfold MNISTModel_init, np_load.
  destruct (fs !! stats_file) as [f|]; [reflexivity|].
  destruct (reference_statistics feature uninit mnist_train) as [[m s]|e];
    [|reflexivity].
  cbn [fst]. unfold np_savez_arrays. now rewrite lookup_insert_ne.
Qed.

Lemma pretrained_misgan_fid_other_files (model_file : path) (samples batch_size : nat)
    (fs : disk F) (name : string) :
  name <> stats_file ->
  fst (pretrained_misgan_fid feature uninit linalg_sqrtm mnist_train normal_ torch_load
         ConvDataGenerator FCDataGenerator model_file samples batch_size fs) !! name
  = fs !! name.
Proof.
  intros Hname. unfold pretrained_misgan_fid.
  destruct (torch_load model_file) as [model|e]; [|reflexivity].
  destruct (ckpt_args model) as [args|]; [|reflexivity].
  destruct (if String.eqb (args_generator args) "conv" then Some ConvDataGenerator
            else if String.eqb (args_generator args) "fc" then Some FCDataGenerator
                 else None) as [DataGenerator|]; [|reflexivity].
  destruct (ckpt_data_gen model) as [state|]; [|reflexivity].
  destruct (DataGenerator state) as [data_gen|e]; [|reflexivity].
  pose proof (data_generator_fid_disk data_gen fs default_samples default_batch_size)
    as Hdisk.
  destruct (data_generator_fid feature uninit linalg_sqrtm mnist_train normal_ data_gen
              fs default_samples default_batch_size) as [fs' r].
  cbn [fst] in *. rewrite Hdisk. now apply MNISTModel_init_other_files.
Qed.

(** The imputation driver writes at most the statistics file and
    [save_file], and [save_file] only when it returns. *)
Lemma pretrained_imputer_fid_effects (model_file save_file : path) (batch_size : nat)
    (w : world F) :
  let run := pretrained_imputer_fid feature uninit linalg_sqrtm mnist_train
               sample_data sample_mask uniform_ torch_load
               ComplementImputer MaskImputer FixedNoiseDimImputer
               IndepMaskedMNIST BlockMaskedMNIST py_int
               model_file save_file batch_size w in
  (forall name, name <> stats_file ->
                stats_files (fst run) !! name = stats_files w !! name)
  /\ (forall p, p <> save_file -> score_files (fst run) !! p = score_files w !! p)
  /\ (forall e, snd run = Failed e -> score_files (fst run) = score_files w).
Proof.
  unfold pretrained_imputer_fid.
  destruct (torch_load model_file) as [model|e]; [|now repeat split].
  destruct (ckpt_imputer model) as [state|]; [|repeat split; congruence].
  destruct (ckpt_args model) as [args|]; [|now repeat split].
  destruct (int_list py_int _) as [hid_lens|e]; [|now repeat split].
  destruct (if String.eqb (args_imputer args) "comp" then Some ComplementImputer
            else if String.eqb (args_imputer args) "mask" then Some MaskImputer
                 else if String.eqb (args_imputer args) "fix"
                      then Some FixedNoiseDimImputer else None) as [Imputer|];
    [|now repeat split].
  destruct (Imputer hid_lens state) as [imputer|e]; [|now repeat split].
  destruct (if String.eqb (args_mask args) "indep"
            then Some (IndepMaskedMNIST (args_obs_prob args) (args_obs_prob_high args))
            else if String.eqb (args_mask args) "block"
                 then Some (BlockMaskedMNIST
                              (if (args_block_len args =? 0)%Z then None
                               else Some (args_block_len args)))
                 else None) as [data|]; [|now repeat split].
  pose proof (imputer_fid_disk imputer (stats_files w) data default_batch_size) as Hdisk.
  destruct (imputer_fid feature uninit linalg_sqrtm mnist_train sample_data sample_mask
              uniform_ imputer (stats_files w) data default_batch_size) as [fs' [fid|e]];
    cbn [fst snd stats_files score_files] in *; subst fs'.
  - split; [| split].
    + intros name Hname. now apply MNISTModel_init_other_files.
    + intros p Hp. now rewrite lookup_insert_ne.
    + intros e He. discriminate He.
  - split; [| split].
    + intros name Hname. now apply MNISTModel_init_other_files.
    + reflexivity.
    + reflexivity.
Qed.

(** X17: what the imputation driver writes.  [pretrained_imputer_fid] leaves
    every archive but the statistics file and every score file but
    [save_file] as they are; when it raises, it has written no score at
    all; and on a checkpoint without the key ['imputer'] it returns at once,
    with nothing computed or written. *)
Theorem pretrained_imputer_fid_writes_on_success_only
    (model_file save_file : path) (batch_size : nat) (w : world F) :
  let run := pretrained_imputer_fid feature uninit linalg_sqrtm mnist_train
               sample_data sample_mask uniform_ torch_load
               ComplementImputer MaskImputer FixedNoiseDimImputer
               IndepMaskedMNIST BlockMaskedMNIST py_int
               model_file save_file batch_size w in
  (forall name, name <> stats_file ->
                stats_files (fst run) !! name = stats_files w !! name)
  /\ (forall p, p <> save_file -> score_files (fst run) !! p = score_files w !! p)
  /\ (forall e, snd run = Failed e -> score_files (fst run) = score_files w)
  /\ (forall model,
        torch_load model_file = Ok model ->
        ckpt_imputer model = None ->
        run = (w, Returned tt)).
Proof.
  intros run.
  destruct (pretrained_imputer_fid_effects model_file save_file batch_size w)
    as (Hstats & Hscores & Hfailed).
  repeat split; try assumption.
  intros model Hload Hnone. unfold run, pretrained_imputer_fid.
  now rewrite Hload, Hnone.
Qed.

(** X18: kinds the drivers do not know.  A generator kind other than
    ['conv'] and ['fc'] leaves [DataGenerator] unassigned, and
    [pretrained_misgan_fid] raises [UnboundLocalError] before anything is
    scored or written.  In [pretrained_imputer_fid] the architecture string
    is parsed first, so an unreadable one raises whatever the kinds are;
    then an imputer kind other than ['comp'], ['mask'] and ['fix'] raises
    [UnboundLocalError] for [Imputer], and, once the imputer is loaded, a
    mask kind other than ['indep'] and ['block'] raises it for [data]. *)
Theorem drivers_reject_unknown_kinds
    (model_file save_file : path) (samples batch_size : nat)
    (fs : disk F) (w : world F)
    (model : checkpoint State Prob) (args : namespace Prob) :
  torch_load model_file = Ok model ->
  ckpt_args model = Some args ->
  (args_generator args <> "conv" ->
   args_generator args <> "fc" ->
   pretrained_misgan_fid feature uninit linalg_sqrtm mnist_train normal_ torch_load
     ConvDataGenerator FCDataGenerator model_file samples batch_size fs
   = (fs, Some (Failed (UnboundLocalError "DataGenerator"))))
  /\ (forall state,
        ckpt_imputer model = Some state ->
        let run := pretrained_imputer_fid feature uninit linalg_sqrtm mnist_train
                     sample_data sample_mask uniform_ torch_load
                     ComplementImputer MaskImputer FixedNoiseDimImputer
                     IndepMaskedMNIST BlockMaskedMNIST py_int
                     model_file save_file batch_size w in
        (forall e,
           int_list py_int (split_on "-"%char (args_arch args)) = Raise e ->
           run = (w, Failed (Inner e)))
        /\ (forall hid_lens,
              int_list py_int (split_on "-"%char (args_arch args)) = Ok hid_lens ->
              args_imputer args <> "comp" ->
              args_imputer args <> "mask" ->
              args_imputer args <> "fix" ->
              run = (w, Failed (UnboundLocalError "Imputer")))
        /\ (forall hid_lens Imputer imputer,
              int_list py_int (split_on "-"%char (args_arch args)) = Ok hid_lens ->
              (args_imputer args = "comp" /\ Imputer = ComplementImputer)
              \/ (args_imputer args = "mask" /\ Imputer = MaskImputer)
              \/ (args_imputer args = "fix" /\ Imputer = FixedNoiseDimImputer) ->
              Imputer hid_lens state = Ok imputer ->
              args_mask args <> "indep" ->
              args_mask args <> "block" ->
              run = (w, Failed (UnboundLocalError "data")))).
Proof.
  intros Hload Hargs. split.
  - intros Hconv Hfc. unfold pretrained_misgan_fid. rewrite Hload, Hargs.
    apply String.eqb_neq in Hconv, Hfc. now rewrite Hconv, Hfc.
  - intros state Himputer run. unfold run, pretrained_imputer_fid.
    rewrite Hload, Himputer, Hargs. split; [| split].
    + intros e ->. reflexivity.
    + intros hid_lens -> Hcomp Hmask Hfix.
      apply String.eqb_neq in Hcomp, Hmask, Hfix. now rewrite Hcomp, Hmask, Hfix.
    + intros hid_lens Imputer imputer -> Hkind Hclass Hindep Hblock.
      apply String.eqb_neq in Hindep, Hblock.
      destruct Hkind as [[-> ->]|[[-> ->]|[-> ->]]]; cbn [String.eqb Ascii.eqb Bool.eqb];
        rewrite Hclass, Hindep, Hblock; reflexivity.
Qed.

(** X19: the budget of [pretrained_imputer_fid].  Whatever [batch_size] it
    is called with, the imputer of the checkpoint is scored on the whole
    batches of [64] samples of the data set the mask kind names (the block
    data set with no block length when [args.block_len] is [0]); the score
    is written to [save_file] when the score is computed, and nothing is
    written there when it raises. *)
Theorem pretrained_imputer_fid_fixed_budget
    (model_file save_file : path) (batch_size : nat) (w : world F) (fs' : disk F)
    (model : checkpoint State Prob) (args : namespace Prob) (state : State)
    (hid_lens : list Z)
    (Imputer : list Z -> State ->
               result F (list Image -> list Mask -> list Noise -> list Image))
    (imputer : list Image -> list Mask -> list Noise -> list Image)
    (data : list Sample) (mnist_stats : npy F * npy F) :
  torch_load model_file = Ok model ->
  ckpt_imputer model = Some state ->
  ckpt_args model = Some args ->
  int_list py_int (split_on "-"%char (args_arch args)) = Ok hid_lens ->
  (args_imputer args = "comp" /\ Imputer = ComplementImputer)
  \/ (args_imputer args = "mask" /\ Imputer = MaskImputer)
  \/ (args_imputer args = "fix" /\ Imputer = FixedNoiseDimImputer) ->
  Imputer hid_lens state = Ok imputer ->
  (forall real_data real_mask noise,
     length (imputer real_data real_mask noise) = length real_data) ->
  (args_mask args = "indep"
   /\ data = IndepMaskedMNIST (args_obs_prob args) (args_obs_prob_high args))
  \/ (args_mask args = "block"
      /\ data = BlockMaskedMNIST (if (args_block_len args =? 0)%Z then None
                                  else Some (args_block_len args))) ->
  MNISTModel_init feature uninit mnist_train (stats_files w) = (fs', Ok mnist_stats) ->
  let whole := length data / 64 in
  let imputed :=
    imputed_rows feature sample_data sample_mask uniform_ imputer 64 0
      (full_batches whole 64 data) in
  pretrained_imputer_fid feature uninit linalg_sqrtm mnist_train
    sample_data sample_mask uniform_ torch_load
    ComplementImputer MaskImputer FixedNoiseDimImputer
    IndepMaskedMNIST BlockMaskedMNIST py_int
    model_file save_file batch_size w
  = match fid linalg_sqrtm mnist_stats
            (if Nat.eqb whole 0 then None else Some imputed) with
    | Ok score =>
        ({| stats_files := fs';
            score_files := <[save_file := score]> (score_files w) |},
         Returned tt)
    | Raise e =>
        ({| stats_files := fs'; score_files := score_files w |}, Failed (Inner e))
    end.
Proof.
  intros Hload Himputer Hargs Harch Hkind Hclass Hrows Hmask Hinit whole imputed.
  unfold pretrained_imputer_fid. rewrite Hload, Himputer, Hargs, Harch.
  assert (Hselect : (if String.eqb (args_imputer args) "comp" then Some ComplementImputer
                     else if String.eqb (args_imputer args) "mask" then Some MaskImputer
                          else if String.eqb (args_imputer args) "fix"
                               then Some FixedNoiseDimImputer else None)
                    = Some Imputer).
  { destruct Hkind as [[-> ->]|[[-> ->]|[-> ->]]]; reflexivity. }
  rewrite Hselect, Hclass.
  assert (Hdata : (if String.eqb (args_mask args) "indep"
                   then Some (IndepMaskedMNIST (args_obs_prob args)
                                (args_obs_prob_high args))
                   else if String.eqb (args_mask args) "block"
                        then Some (BlockMaskedMNIST
                                     (if (args_block_len args =? 0)%Z then None
                                      else Some (args_block_len args)))
                        else None)
                  = Some data).
  { destruct Hmask as [[-> ->]|[-> ->]]; reflexivity. }
  rewrite Hdata.
  unfold imputer_fid. rewrite Hinit.
  rewrite (imputer_features_whole_batches feature uninit sample_data sample_mask
             uniform_ imputer (batch_size:=default_batch_size)
             ltac:(unfold default_batch_size; lia) Hrows data).
  cbn [rbind]. reflexivity.
Qed.

(** *** The checkpoint [main] picks *)

Lemma string_compare_refl (s : string) : String.compare s s = Eq.
Proof.
  pose proof (String.compare_antisym s s) as H.
  now destruct (String.compare s s).
Qed.

Lemma ascii_compare_lt_trans (a b c : ascii) :
  Ascii.compare a b = Lt -> Ascii.compare b c = Lt -> Ascii.compare a c = Lt.
Proof.
  unfold Ascii.compare. rewrite !N.compare_lt_iff. apply N.lt_trans.
Qed.

Lemma string_compare_lt_trans (s1 : string) :
  forall s2 s3 : string,
    String.compare s1 s2 = Lt -> String.compare s2 s3 = Lt -> String.compare s1 s3 = Lt.
Proof.
  induction s1 as [|a s1 IH]; intros [|b s2] [|c s3]; cbn [String.compare];
    try discriminate; try reflexivity.
  destruct (Ascii.compare a b) eqn:Hab; try discriminate;
    destruct (Ascii.compare b c) eqn:Hbc; try discriminate.
  - apply Ascii.compare_eq_iff in Hab, Hbc. subst b c.
    assert (Haa : Ascii.compare a a = Eq) by apply N.compare_refl.
    rewrite Haa. apply IH.
  - apply Ascii.compare_eq_iff in Hab. subst b. now rewrite Hbc.
  - apply Ascii.compare_eq_iff in Hbc. subst c. now rewrite Hab.
  - now rewrite (ascii_compare_lt_trans _ _ _ Hab Hbc).
Qed.

Lemma string_leb_ltb_trans (s1 s2 s3 : string) :
  String.leb s1 s2 = true -> String.ltb s2 s3 = true -> String.leb s1 s3 = true.
Proof.
  unfold String.leb, String.ltb.
  destruct (String.compare s1 s2) eqn:H12; try discriminate;
    destruct (String.compare s2 s3) eqn:H23; try discriminate; intros _ _.
  - apply String.compare_eq_iff in H12. subst s2. now rewrite H23.
  - now rewrite (string_compare_lt_trans _ _ _ H12 H23).
Qed.

Lemma string_ltb_false_leb (s1 s2 : string) :
  String.ltb s1 s2 = false -> String.leb s2 s1 = true.
Proof.
  unfold String.leb, String.ltb. rewrite (String.compare_antisym s2 s1).
  now destruct (String.compare s1 s2).
Qed.

(** The loop of [max] keeps a name that is among those seen and that none
    of them exceeds. *)
Lemma fold_max_name (others : list string) :
  forall (best : string) (seen : list string),
    In best seen ->
    (forall n, In n seen -> String.leb n best = true) ->
    let last := fold_left (fun best item => if String.ltb best item then item else best)
                  others best in
    In last (seen ++ others)
    /\ forall n, In n (seen ++ others) -> String.leb n last = true.
Proof.
  induction others as [|item others IH]; intros best seen Hin Hmax; cbn [fold_left].
  - rewrite app_nil_r. now split.
  - replace (seen ++ item :: others) with ((seen ++ [item]) ++ others)
      by now rewrite <- app_assoc.
    apply IH.
    + apply in_or_app. destruct (String.ltb best item); [right; now left | now left].
    + intros n Hn. apply in_app_or in Hn as [Hn|[<-|[]]].
      * destruct (String.ltb best item) eqn:Hlt; [|now apply Hmax].
        eapply string_leb_ltb_trans; [now apply Hmax | exact Hlt].
      * destruct (String.ltb best item) eqn:Hlt.
        -- unfold String.leb. now rewrite string_compare_refl.
        -- now apply string_ltb_false_leb.
Qed.

Lemma py_max_greatest (names : list string) (best : string) :
  py_max names = Some best ->
  In best names /\ forall n, In n names -> String.leb n best = true.
Proof.
  destruct names as [|name others]; [discriminate|]. cbn [py_max]. intros [= <-].
  apply (fold_max_name others name [name]); [now left|].
  intros n [<-|[]]. unfold String.leb. now rewrite string_compare_refl.
Qed.

Lemma py_max_none (names : list string) : py_max names = None <-> names = [].
Proof. destruct names; cbn [py_max]; split; congruence. Qed.

Lemma glob_pth_single (root_dir : path) (name : string) :
  ends_with ".pth" name = true ->
  py_max (glob_pth (fun _ => [name]) root_dir) = Some name.
Proof. intros Hpth. unfold glob_pth. cbn [List.filter]. now rewrite Hpth. Qed.

(** X20: when [main] does nothing.  With [--skip-exist] and a score file
    [fid-0.txt] already in the run directory, and, with or without the flag,
    when the directory [model] of the run holds no name that ends in
    [.pth], [main] returns at once: no checkpoint is loaded, nothing is
    scored, and every file is left as it is. *)
Theorem main_returns_at_once (root_dir : path) (w : world F) :
  (is_Some (score_files w !! (root_dir ++ ["fid-0.txt"])) ->
   main feature uninit linalg_sqrtm mnist_train normal_ sample_data sample_mask
     uniform_ torch_load ConvDataGenerator FCDataGenerator ComplementImputer
     MaskImputer FixedNoiseDimImputer IndepMaskedMNIST BlockMaskedMNIST py_int
     listdir root_dir true w
   = (w, Some (Returned tt)))
  /\ (forall skip_exist,
        (forall name, In name (listdir (root_dir ++ ["model"])) ->
                      ends_with ".pth" name = false) ->
        main feature uninit linalg_sqrtm mnist_train normal_ sample_data sample_mask
          uniform_ torch_load ConvDataGenerator FCDataGenerator ComplementImputer
          MaskImputer FixedNoiseDimImputer IndepMaskedMNIST BlockMaskedMNIST py_int
          listdir root_dir skip_exist w
        = (w, Some (Returned tt))).
Proof.
  split.
  - intros Hexists. unfold main. cbn [andb].
    now rewrite (bool_decide_eq_true_2 _ Hexists).
  - intros skip_exist Hnone. unfold main.
    destruct (skip_exist && bool_decide _); [reflexivity|].
    assert (Hglob : glob_pth listdir root_dir = []).
    { unfold glob_pth.
      induction (listdir (root_dir ++ ["model"])) as [|name names IH];
        [reflexivity|].
      cbn [List.filter]. rewrite (Hnone name) by now left.
      apply IH. intros other Hother. apply Hnone. now right. }
    now rewrite Hglob.
Qed.

(** X21: the checkpoint [main] scores.  When [main] gets as far as picking a
    checkpoint, it picks the entry of the directory [model] whose name ends
    in [.pth] and is greatest in the order of Python strings, and goes on
    exactly as if that entry were the only one in the directory. *)
Theorem main_scores_greatest_checkpoint (root_dir : path) (name : string) :
  py_max (glob_pth listdir root_dir) = Some name ->
  (In name (listdir (root_dir ++ ["model"]))
   /\ ends_with ".pth" name = true
   /\ forall other,
        In other (listdir (root_dir ++ ["model"])) ->
        ends_with ".pth" other = true ->
        String.leb other name = true)
  /\ forall (skip_exist : bool) (w : world F),
       main feature uninit linalg_sqrtm mnist_train normal_ sample_data sample_mask
         uniform_ torch_load ConvDataGenerator FCDataGenerator ComplementImputer
         MaskImputer FixedNoiseDimImputer IndepMaskedMNIST BlockMaskedMNIST py_int
         listdir root_dir skip_exist w
       = main feature uninit linalg_sqrtm mnist_train normal_ sample_data sample_mask
           uniform_ torch_load ConvDataGenerator FCDataGenerator ComplementImputer
           MaskImputer FixedNoiseDimImputer IndepMaskedMNIST BlockMaskedMNIST py_int
           (fun _ => [name]) root_dir skip_exist w.
Proof.
  intros Hmax.
  destruct (py_max_greatest _ Hmax) as [Hin Hgreatest].
  unfold glob_pth in Hin, Hgreatest.
  apply filter_In in Hin as [Hin Hpth].
  split; [split; [exact Hin | split; [exact Hpth |]]|].
  - intros other Hother Hother_pth. apply Hgreatest.
    apply filter_In. now split.
  - intros skip_exist w. unfold main.
    now rewrite Hmax, (@glob_pth_single root_dir name Hpth).
Qed.

(** X22: the generator score is on disk before the imputer is looked at.
    When [main] picks a checkpoint, the file [fid-0.txt] of the run holds
    the generator score as soon as that score is computed, whatever the
    imputation stage does afterwards, be it returning or raising; and when
    the generator stage raises, no score file is written or changed. *)
Theorem main_writes_generator_score_first
    (root_dir : path) (skip_exist : bool) (w : world F) (name : string) :
  skip_exist = false \/ score_files w !! (root_dir ++ ["fid-0.txt"]) = None ->
  py_max (glob_pth listdir root_dir) = Some name ->
  match pretrained_misgan_fid feature uninit linalg_sqrtm mnist_train normal_ torch_load
          ConvDataGenerator FCDataGenerator (root_dir ++ ["model"; name])
          default_samples default_batch_size (stats_files w) with
  | (_, Some (Returned score)) =>
      score_files
        (fst (main feature uninit linalg_sqrtm mnist_train normal_ sample_data
                sample_mask uniform_ torch_load ConvDataGenerator FCDataGenerator
                ComplementImputer MaskImputer FixedNoiseDimImputer IndepMaskedMNIST
                BlockMaskedMNIST py_int listdir root_dir skip_exist w))
      !! (root_dir ++ ["fid-0.txt"])
      = Some score
  | _ =>
      score_files
        (fst (main feature uninit linalg_sqrtm mnist_train normal_ sample_data
                sample_mask uniform_ torch_load ConvDataGenerator FCDataGenerator
                ComplementImputer MaskImputer FixedNoiseDimImputer IndepMaskedMNIST
                BlockMaskedMNIST py_int listdir root_dir skip_exist w))
      = score_files w
  end.
Proof.
  intros Hrun Hmax. unfold main.
  assert (Hskip : skip_exist
                  && bool_decide (is_Some (score_files w !! (root_dir ++ ["fid-0.txt"])))
                  = false).
  { destruct Hrun as [->|Hnone]; [reflexivity|].
    rewrite Hnone, andb_false_iff. right. apply bool_decide_eq_false_2.
    intros [score Hscore]. discriminate Hscore. }
  rewrite Hskip, Hmax.
  destruct (pretrained_misgan_fid feature uninit linalg_sqrtm mnist_train normal_
              torch_load ConvDataGenerator FCDataGenerator (root_dir ++ ["model"; name])
              default_samples default_batch_size (stats_files w))
    as [fs' [[score|e]|]]; try reflexivity.
  destruct (pretrained_imputer_fid_effects
              (root_dir ++ ["model"; name]) (root_dir ++ ["impute-fid-0.txt"])
              default_batch_size
              {| stats_files := fs';
                 score_files := <[root_dir ++ ["fid-0.txt"] := score]> (score_files w) |})
    as (_ & Hscores & _).
  destruct (pretrained_imputer_fid _ _ _ _ _ _ _ _ _ _ _ _ _ _ _ _ _ _)
    as [w' r].
  cbn [fst score_files] in *.
  rewrite Hscores; [apply lookup_insert_eq|].
  intros Hsame. apply app_inv_head in Hsame. discriminate Hsame.
Qed.

(** X23: the files [main] can touch.  Whatever happens, [main] leaves every
    score file other than [fid-0.txt] and [impute-fid-0.txt] of the run
    directory, and every archive other than the statistics file, as it
    found them. *)
Theorem main_touches_three_files (root_dir : path) (skip_exist : bool) (w : world F) :
  (forall p,
     p <> root_dir ++ ["fid-0.txt"] ->
     p <> root_dir ++ ["impute-fid-0.txt"] ->
     score_files
       (fst (main feature uninit linalg_sqrtm mnist_train normal_ sample_data
               sample_mask uniform_ torch_load ConvDataGenerator FCDataGenerator
               ComplementImputer MaskImputer FixedNoiseDimImputer IndepMaskedMNIST
               BlockMaskedMNIST py_int listdir root_dir skip_exist w)) !! p
     = score_files w !! p)
  /\ (forall archive,
        archive <> stats_file ->
        stats_files
          (fst (main feature uninit linalg_sqrtm mnist_train normal_ sample_data
                  sample_mask uniform_ torch_load ConvDataGenerator FCDataGenerator
                  ComplementImputer MaskImputer FixedNoiseDimImputer IndepMaskedMNIST
                  BlockMaskedMNIST py_int listdir root_dir skip_exist w)) !! archive
        = stats_files w !! archive).
Proof.
  unfold main.
  destruct (skip_exist && bool_decide _); [now split|].
  destruct (py_max (glob_pth listdir root_dir)) as [name|]; [|now split].
  pose proof (pretrained_misgan_fid_other_files (root_dir ++ ["model"; name])
                default_samples default_batch_size (stats_files w)) as Hdisk.
  destruct (pretrained_misgan_fid feature uninit linalg_sqrtm mnist_train normal_
              torch_load ConvDataGenerator FCDataGenerator (root_dir ++ ["model"; name])
              default_samples default_batch_size (stats_files w))
    as [fs' [[score|e]|]]; cbn [fst stats_files score_files] in *;
    try (split; [reflexivity | exact Hdisk]).
  destruct (pretrained_imputer_fid_effects
              (root_dir ++ ["model"; name]) (root_dir ++ ["impute-fid-0.txt"])
              default_batch_size
              {| stats_files := fs';
                 score_files := <[root_dir ++ ["fid-0.txt"] := score]> (score_files w) |})
    as (Hstats & Hscores & _).
  destruct (pretrained_imputer_fid _ _ _ _ _ _ _ _ _ _ _ _ _ _ _ _ _ _)
    as [w' r].
  cbn [fst stats_files score_files] in *. split.
  - intros p Hfid Himpute. rewrite Hscores by exact Himpute.
    now rewrite lookup_insert_ne.
  - intros archive Harchive. rewrite Hstats by exact Harchive. now apply Hdisk.
Qed.

End DriverFacts.


Local Open Scope float_scope.

(** The checkpoint [runs/model/0100.pth] of a convolutional generator,
    scored with statistics that are on disk, when asked for ten samples in
    batches of five. *)
Lemma pretrained_misgan_fid_fixed_budget_witness :
  pretrained_misgan_fid toy_feature toy_uninit sqrtm_small [1; 2; 3]%Z toy_normal
    toy_torch_load toy_generator_class toy_generator_class
    ["runs"; "model"; "0100.pth"] 10 5
    (np_savez ∅ stats_file [0; 0] [[1; 0]; [0; 1]])
  = (np_savez ∅ stats_file [0; 0] [[1; 0]; [0; 1]],
     Some (of_result
             (fid sqrtm_small (NpyVector [0; 0], NpyMatrix [[1; 0]; [0; 1]])
                (Some (firstn default_samples
                         (generated_rows toy_feature toy_normal toy_generator
                            default_batch_size 0 938)))))).
Proof.
  apply (@pretrained_misgan_fid_fixed_budget float float64 Z Z unit unit
           toy_feature toy_uninit sqrtm_small [1; 2; 3]%Z toy_normal
           toy_torch_load toy_generator_class toy_generator_class
           ["runs"; "model"; "0100.pth"] 10 5
           (np_savez ∅ stats_file [0; 0] [[1; 0]; [0; 1]]) _
           _ (toy_args "conv" "comp" "indep") tt toy_generator_class toy_generator _
           eq_refl eq_refl (or_introl (conj eq_refl eq_refl)) eq_refl eq_refl
           (fun z => eq_refl)
           (MNISTModel_init_after_save toy_feature toy_uninit [1; 2; 3]%Z
              ∅ [0; 0] [[1; 0]; [0; 1]])).
Defined.

Local Close Scope float_scope.

(** The checkpoint [runs/model/0100.pth] holds no imputer. *)
Lemma pretrained_imputer_fid_writes_on_success_only_witness :
  pretrained_imputer_fid toy_feature toy_uninit sqrtm_small [1; 2; 3]%Z
          toy_sample_data toy_sample_mask toy_uniform toy_torch_load
          toy_imputer_class toy_imputer_class toy_imputer_class
          toy_indep_data toy_block_data toy_int
          ["runs"; "model"; "0100.pth"] ["runs"; "impute-fid-0.txt"] 64 empty_world
  = (empty_world, Returned tt).
Proof.
  exact (proj2 (proj2 (proj2
           (@pretrained_imputer_fid_writes_on_success_only float float64 Z unit unit Z
              unit unit toy_feature toy_uninit sqrtm_small [1; 2; 3]%Z
              toy_sample_data toy_sample_mask toy_uniform toy_torch_load
              toy_imputer_class toy_imputer_class toy_imputer_class
              toy_indep_data toy_block_data toy_int
              ["runs"; "model"; "0100.pth"] ["runs"; "impute-fid-0.txt"] 64
              empty_world)))
           _ eq_refl eq_refl).
Defined.

(** The checkpoint [runs/model/99.pth] names a generator of kind
    ['vae']. *)
Lemma drivers_reject_unknown_kinds_witness :
  pretrained_misgan_fid toy_feature toy_uninit sqrtm_small [1; 2; 3]%Z toy_normal
          toy_torch_load toy_generator_class toy_generator_class
          ["runs"; "model"; "99.pth"] default_samples default_batch_size ∅
  = (∅, Some (Failed (UnboundLocalError "DataGenerator"))).
Proof.
  apply (proj1 (@drivers_reject_unknown_kinds float float64 Z Z unit unit Z unit unit
                  toy_feature toy_uninit sqrtm_small [1; 2; 3]%Z toy_normal
                  toy_sample_data toy_sample_mask toy_uniform toy_torch_load
                  toy_generator_class toy_generator_class
                  toy_imputer_class toy_imputer_class toy_imputer_class
                  toy_indep_data toy_block_data toy_int
                  ["runs"; "model"; "99.pth"] ["runs"; "impute-fid-0.txt"]
                  default_samples default_batch_size ∅ empty_world
                  _ (toy_args "vae" "comp" "indep") eq_refl eq_refl));
    discriminate.
Defined.

(** The checkpoint [runs/model/0200.pth]: a mask imputer of architecture
    [500-500] on the block data set, which holds three samples here; that
    is no whole batch of 64, so no score is computed and none is written,
    although a batch size of one was asked for. *)
Lemma pretrained_imputer_fid_fixed_budget_witness :
  exists e,
    pretrained_imputer_fid toy_feature toy_uninit sqrtm_small [1; 2; 3]%Z
          toy_sample_data toy_sample_mask toy_uniform toy_torch_load
          toy_imputer_class toy_imputer_class toy_imputer_class
          toy_indep_data toy_block_data toy_int
          ["runs"; "model"; "0200.pth"] ["runs"; "impute-fid-0.txt"] 1 ready_world
    = (ready_world, Failed (Inner e)).
Proof.
  eexists.
  exact (@pretrained_imputer_fid_fixed_budget float float64 Z unit unit Z unit unit
           toy_feature toy_uninit sqrtm_small [1; 2; 3]%Z
           toy_sample_data toy_sample_mask toy_uniform toy_torch_load
           toy_imputer_class toy_imputer_class toy_imputer_class
           toy_indep_data toy_block_data toy_int
           ["runs"; "model"; "0200.pth"] ["runs"; "impute-fid-0.txt"] 1 ready_world
           (stats_files ready_world) _ (toy_args "fc" "mask" "block") tt
           [500; 500]%Z toy_imputer_class toy_imputer (toy_block_data None) _
           eq_refl eq_refl eq_refl eq_refl
           (or_intror (or_introl (conj eq_refl eq_refl))) eq_refl
           (fun real_data real_mask noise => eq_refl)
           (or_intror (conj eq_refl eq_refl))
           (MNISTModel_init_after_save toy_feature toy_uninit [1; 2; 3]%Z ∅
              [0%float; 0%float] [[1%float; 0%float]; [0%float; 1%float]])).
Defined.

(** With [--skip-exist] on a run that already holds a generator score, and
    on a run directory without checkpoints. *)
Lemma main_returns_at_once_witness :
  main toy_feature toy_uninit sqrtm_small [1; 2; 3]%Z toy_normal
          toy_sample_data toy_sample_mask toy_uniform toy_torch_load
          toy_generator_class toy_generator_class
          toy_imputer_class toy_imputer_class toy_imputer_class
          toy_indep_data toy_block_data toy_int toy_listdir
          ["runs"] true scored_world
  = (scored_world, Some (Returned tt))
  /\ main toy_feature toy_uninit sqrtm_small [1; 2; 3]%Z toy_normal
          toy_sample_data toy_sample_mask toy_uniform toy_torch_load
          toy_generator_class toy_generator_class
          toy_imputer_class toy_imputer_class toy_imputer_class
          toy_indep_data toy_block_data toy_int toy_listdir
          ["elsewhere"] false empty_world
     = (empty_world, Some (Returned tt)).
Proof.
  split.
  - apply (proj1 (@main_returns_at_once float float64 Z Z unit unit Z unit unit
                    toy_feature toy_uninit sqrtm_small [1; 2; 3]%Z toy_normal
                    toy_sample_data toy_sample_mask toy_uniform toy_torch_load
                    toy_generator_class toy_generator_class
                    toy_imputer_class toy_imputer_class toy_imputer_class
                    toy_indep_data toy_block_data toy_int toy_listdir
                    ["runs"] scored_world)).
    exists 1%float. apply lookup_insert_eq.
  - apply (proj2 (@main_returns_at_once float float64 Z Z unit unit Z unit unit
                    toy_feature toy_uninit sqrtm_small [1; 2; 3]%Z toy_normal
                    toy_sample_data toy_sample_mask toy_uniform toy_torch_load
                    toy_generator_class toy_generator_class
                    toy_imputer_class toy_imputer_class toy_imputer_class
                    toy_indep_data toy_block_data toy_int toy_listdir
                    ["elsewhere"] empty_world)).
    intros name [].
Defined.

(** In [runs/model], of [0100.pth], [99.pth] and [0200.pth] the greatest
    name is [99.pth]; [notes.txt] does not count. *)
Lemma main_scores_greatest_checkpoint_witness :
  py_max (glob_pth toy_listdir ["runs"]) = Some "99.pth"
  /\ String.leb "0200.pth" "99.pth" = true
  /\ forall (skip_exist : bool) (w : world float),
       main toy_feature toy_uninit sqrtm_small [1; 2; 3]%Z toy_normal
          toy_sample_data toy_sample_mask toy_uniform toy_torch_load
          toy_generator_class toy_generator_class
          toy_imputer_class toy_imputer_class toy_imputer_class
          toy_indep_data toy_block_data toy_int toy_listdir ["runs"] skip_exist w
       = main toy_feature toy_uninit sqrtm_small [1; 2; 3]%Z toy_normal
           toy_sample_data toy_sample_mask toy_uniform toy_torch_load
           toy_generator_class toy_generator_class
           toy_imputer_class toy_imputer_class toy_imputer_class
           toy_indep_data toy_block_data toy_int (fun _ => ["99.pth"])
           ["runs"] skip_exist w.
Proof.
  assert (Hmax : py_max (glob_pth toy_listdir ["runs"]) = Some "99.pth") by reflexivity.
  destruct (@main_scores_greatest_checkpoint float float64 Z Z unit unit Z unit unit
              toy_feature toy_uninit sqrtm_small [1; 2; 3]%Z toy_normal
              toy_sample_data toy_sample_mask toy_uniform toy_torch_load
              toy_generator_class toy_generator_class
              toy_imputer_class toy_imputer_class toy_imputer_class
              toy_indep_data toy_block_data toy_int toy_listdir
              ["runs"] "99.pth" Hmax) as [(_ & _ & Hgreatest) Hsame].
  split; [exact Hmax | split; [| exact Hsame]].
  apply Hgreatest; [|reflexivity].
  right. right. right. now left.
Defined.

(** The run directory [runs] without [--skip-exist]: the greatest
    checkpoint, [99.pth], names a generator of an unknown kind, the
    generator stage raises, and no score file is written. *)
Lemma main_writes_generator_score_first_witness :
  py_max (glob_pth toy_listdir ["runs"]) = Some "99.pth"
  /\ snd (main toy_feature toy_uninit sqrtm_small [1; 2; 3]%Z toy_normal
          toy_sample_data toy_sample_mask toy_uniform toy_torch_load
          toy_generator_class toy_generator_class
          toy_imputer_class toy_imputer_class toy_imputer_class
          toy_indep_data toy_block_data toy_int toy_listdir ["runs"] false ready_world)
     = Some (Failed (UnboundLocalError "DataGenerator"))
  /\ score_files (fst (main toy_feature toy_uninit sqrtm_small [1; 2; 3]%Z toy_normal
          toy_sample_data toy_sample_mask toy_uniform toy_torch_load
          toy_generator_class toy_generator_class
          toy_imputer_class toy_imputer_class toy_imputer_class
          toy_indep_data toy_block_data toy_int toy_listdir ["runs"] false ready_world))
     = score_files ready_world.
Proof.
  split; [reflexivity | split; [reflexivity |]].
  exact (@main_writes_generator_score_first float float64 Z Z unit unit Z unit unit
           toy_feature toy_uninit sqrtm_small [1; 2; 3]%Z toy_normal
           toy_sample_data toy_sample_mask toy_uniform toy_torch_load
           toy_generator_class toy_generator_class
           toy_imputer_class toy_imputer_class toy_imputer_class
           toy_indep_data toy_block_data toy_int toy_listdir
           ["runs"] false ready_world "99.pth" (or_introl eq_refl) eq_refl).
Defined.

(** A score file of another run stays as it is. *)
Lemma main_touches_three_files_witness :
  score_files (fst (main toy_feature toy_uninit sqrtm_small [1; 2; 3]%Z toy_normal
          toy_sample_data toy_sample_mask toy_uniform toy_torch_load
          toy_generator_class toy_generator_class
          toy_imputer_class toy_imputer_class toy_imputer_class
          toy_indep_data toy_block_data toy_int toy_listdir
          ["runs"] false ready_world))
  !! ["other"; "fid-0.txt"]
  = score_files ready_world !! ["other"; "fid-0.txt"].
Proof.
  apply (proj1 (@main_touches_three_files float float64 Z Z unit unit Z unit unit
           toy_feature toy_uninit sqrtm_small [1; 2; 3]%Z toy_normal
           toy_sample_data toy_sample_mask toy_uniform toy_torch_load
           toy_generator_class toy_generator_class
           toy_imputer_class toy_imputer_class toy_imputer_class
           toy_indep_data toy_block_data toy_int toy_listdir
                  ["runs"] false ready_world));
    discriminate.
Defined.

(** ** Weights the moment estimator refuses *)

Section WeightFacts.
Context {F : Type} {SF : Scalar F}.

(** The transpose of an array with at least one column has as many columns
    as the array has rows. *)
Lemma ncols_transpose_rows (act : matrix F) :
  0 < ncols act -> ncols (transpose act) = nrows act.
Proof.
  intros Hcols. unfold transpose, transpose_of, ncols at 1.
  destruct (ncols act) as [|d]; [lia|].
  cbn [seq map hd]. unfold col_of, nrows. now rewrite length_map.
Qed.

Lemma nrows_transpose (act : matrix F) : nrows (transpose act) = ncols act.
Proof. unfold transpose, transpose_of, nrows. now rewrite length_map, length_seq. Qed.

End WeightFacts.

(** X24: weights the estimator refuses.  With a weight vector,
    [calculate_activation_statistics] raises [ValueError] when there are not
    as many weights as rows, and [ZeroDivisionError] when the weights sum to
    zero, both from [np.average]; weights of the right number and a non-zero
    sum pass [np.average] even when one of them is negative, and are then
    refused by [np.cov] with [ValueError], for an array of two rows or more
    with at least one column. *)
Theorem weighted_statistics_refuse_bad_weights {F : Type} {SF : Scalar F}
    (act : matrix F) (w : vector F) :
  (length w <> nrows act ->
   activation_moments (Some act) (Some w)
   = Raise (ValueError "Length of weights not compatible with specified axis."))
  /\ (length w = nrows act ->
      feqb (np_sum w) f0 = true ->
      activation_moments (Some act) (Some w)
      = Raise (ZeroDivisionError "Weights sum to zero, can't be normalized"))
  /\ (length w = nrows act ->
      feqb (np_sum w) f0 = false ->
      2 <= nrows act ->
      0 < ncols act ->
      existsb (fun x => fltb x f0) w = true ->
      (exists mu, np_average_axis0 act w = Ok mu)
      /\ activation_moments (Some act) (Some w)
         = Raise (ValueError "aweights cannot be negative")).
Proof.
  unfold activation_moments, np_average_axis0. split; [| split].
  - intros Hlen. now destruct (Nat.eqb_spec (length w) (nrows act)).
  - intros Hlen Hzero. rewrite Hlen, Nat.eqb_refl. cbn [negb]. now rewrite Hzero.
  - intros Hlen Hsum Hrows Hcols Hneg. rewrite Hlen, Nat.eqb_refl. cbn [negb].
    rewrite Hsum. split; [eauto|]. cbn [rbind].
    unfold np_cov_rowvar_false.
    destruct (Nat.eqb_spec (nrows act) 1) as [Hone|_]; [lia|].
    rewrite nrows_transpose.
    destruct (Nat.eqb_spec (ncols act) 0) as [Hnone|_]; [lia|].
    rewrite (ncols_transpose_rows act Hcols), Hlen, Nat.eqb_refl. cbn [negb].
    now rewrite Hneg.
Qed.

Local Open Scope float_scope.

(** Two samples of one feature, with one weight, with weights that cancel,
    and with a negative weight. *)
Lemma weighted_statistics_refuse_bad_weights_witness :
  activation_moments (Some [[1]; [2]]) (Some [1])
  = Raise (ValueError "Length of weights not compatible with specified axis.")
  /\ activation_moments (Some [[1]; [2]]) (Some [1; -1])
     = Raise (ZeroDivisionError "Weights sum to zero, can't be normalized")
  /\ activation_moments (Some [[1]; [2]]) (Some [2; -1])
     = Raise (ValueError "aweights cannot be negative").
Proof.
  destruct (@weighted_statistics_refuse_bad_weights float float64 [[1]; [2]] [1])
    as (Hlength & _ & _).
  destruct (@weighted_statistics_refuse_bad_weights float float64 [[1]; [2]] [1; -1])
    as (_ & Hzero & _).
  destruct (@weighted_statistics_refuse_bad_weights float float64 [[1]; [2]] [2; -1])
    as (_ & _ & Hnegative).
  split; [| split].
  - apply Hlength. discriminate.
  - apply Hzero; reflexivity.
  - apply Hnegative; try reflexivity; cbn; lia.
Defined.

Local Close Scope float_scope.

(** ** Statistics and the batches they are collected in *)

(** X25: the statistics do not depend on the batching.  For a non-empty
    sequence of non-empty batches that holds as many samples as declared,
    [calculate_activation_statistics] returns the moments, weighted or not,
    of the activations of the samples in order; so two ways of cutting the
    same samples into such batches give the same statistics or the same
    exception. *)
Theorem statistics_independent_of_chunking {F : Type} {SF : Scalar F} {Image : Type}
    (feature : Image -> vector F) (uninit : nat -> vector F)
    (batches batches' : list (list Image)) (images : Z) (weight : option (vector F)) :
  batches <> [] ->
  Forall (fun b => b <> []) batches ->
  Z.of_nat (length (concat batches)) = images ->
  calculate_activation_statistics feature uninit batches images weight
  = activation_moments (Some (map feature (concat batches))) weight
  /\ (batches' <> [] ->
      Forall (fun b => b <> []) batches' ->
      concat batches' = concat batches ->
      calculate_activation_statistics feature uninit batches' images weight
      = calculate_activation_statistics feature uninit batches images weight).
Proof.
  intros Hsome Hne Htotal.
  assert (Hstats : forall bs,
             bs <> [] -> Forall (fun b => b <> []) bs ->
             Z.of_nat (length (concat bs)) = images ->
             calculate_activation_statistics feature uninit bs images weight
             = activation_moments (Some (map feature (concat bs))) weight).
  { intros bs Hbs Hbne Hbtotal. unfold calculate_activation_statistics.
    now rewrite (get_activations_filled feature uninit Hbs Hbne Hbtotal). }
  split; [now apply Hstats|].
  intros Hsome' Hne' Hsame.
  rewrite (Hstats batches Hsome Hne Htotal), <- Hsame.
  apply Hstats; [assumption | assumption | now rewrite Hsame].
Qed.

Local Open Scope float_scope.

(** Three samples in batches of two and one, or of one and two. *)
Lemma statistics_independent_of_chunking_witness :
  calculate_activation_statistics toy_feature toy_uninit [[1]; [2; 3]]%Z 3 None
  = calculate_activation_statistics toy_feature toy_uninit [[1; 2]; [3]]%Z 3 None.
Proof.
  apply (@statistics_independent_of_chunking float float64 Z toy_feature toy_uninit
           [[1; 2]; [3]]%Z [[1]; [2; 3]]%Z 3 None);
    try discriminate; try reflexivity; repeat constructor; discriminate.
Defined.

Local Close Scope float_scope.

(** ** The order of the samples *)

Section SampleOrderFacts.
Local Open Scope Qc_scope.

Lemma Qc_sum_Permutation (l l' : list Qc) :
  Permutation l l' -> Qc_sum l = Qc_sum l'.
Proof.
  unfold Qc_sum.
  induction 1 as [|x l l' _ IH|x y l|l l' l'' _ IH1 _ IH2]; cbn [fold_right].
  - reflexivity.
  - now rewrite IH.
  - ring.
  - now rewrite IH1.
Qed.

Lemma Qc_sum_map_Permutation {A} (g : A -> Qc) (l l' : list A) :
  Permutation l l' -> Qc_sum (map g l') = Qc_sum (map g l).
Proof. intros Hperm. symmetry. now apply Qc_sum_Permutation, Permutation_map. Qed.

Lemma combine_map_same {A B C} (f : A -> B) (g : A -> C) (l : list A) :
  combine (map f l) (map g l) = map (fun x => (f x, g x)) l.
Proof. induction l as [|x l IH]; cbn [map combine]; [reflexivity | now rewrite IH]. Qed.

(** [np.mean(act, axis=0)], sample by sample. *)
Lemma np_mean_by_samples (act : matrix Qc) :
  np_mean_axis0 act = map (sample_mean act) (seq 0 (ncols act)).
Proof.
  unfold np_mean_axis0, transpose, transpose_of. rewrite map_map.
  apply map_ext. intros j. unfold sample_mean, col_of. now rewrite np_sum_exact.
Qed.

(** [np.cov(act, rowvar=False)] for an array that is transposed, sample by
    sample. *)
Lemma np_cov_by_samples (act : matrix Qc) :
  nrows act <> 1%nat ->
  np_cov_rowvar_false act None
  = Ok (map (fun i =>
               map (fun j => fmul (sample_products act i j)
                               (fdiv (of_Z 1) (cov_fact (nrows act) None)))
                   (seq 0 (ncols act)))
            (seq 0 (ncols act))).
Proof.
  intros Hrows. unfold np_cov_rowvar_false.
  destruct (Nat.eqb_spec (nrows act) 1) as [Hone|_]; [congruence|].
  rewrite nrows_transpose.
  destruct (Nat.eqb_spec (ncols act) 0) as [->|Hcols]; [reflexivity|].
  rewrite (ncols_transpose_rows act) by lia.
  cbn [rbind]. f_equal.
  unfold transpose, transpose_of.
  rewrite !map_map, combine_map_same, !map_map.
  apply map_ext. intros i. rewrite map_map. apply map_ext. intros j.
  cbn [fst snd]. f_equal.
  rewrite vdot_exact. unfold col_of.
  rewrite !map_map, combine_map_same, map_map. cbn [fst snd].
  unfold sample_products, sample_mean. f_equal.
  apply map_ext. intros r. now rewrite !np_sum_exact.
Qed.

(** The sums over the samples do not depend on their order. *)
Lemma sample_mean_Permutation (act act' : matrix Qc) (j : nat) :
  Permutation act act' -> sample_mean act' j = sample_mean act j.
Proof.
  intros Hperm. unfold sample_mean, nrows.
  now rewrite (Qc_sum_map_Permutation _ Hperm), (Permutation_length Hperm).
Qed.

Lemma sample_products_Permutation (act act' : matrix Qc) (i j : nat) :
  Permutation act act' -> sample_products act' i j = sample_products act i j.
Proof.
  intros Hperm. unfold sample_products.
  rewrite (Qc_sum_map_Permutation _ Hperm).
  now rewrite !(sample_mean_Permutation _ Hperm).
Qed.

Lemma ncols_Permutation (d : nat) (act act' : matrix Qc) :
  Forall (fun row => length row = d) act ->
  Permutation act act' -> ncols act' = ncols act.
Proof.
  intros Hshape Hperm.
  assert (Hshape' : Forall (fun row => length row = d) act')
    by (eapply Permutation_Forall; eassumption).
  unfold ncols.
  destruct act as [|r act], act' as [|r' act']; cbn [hd].
  - reflexivity.
  - apply Permutation_nil in Hperm. discriminate Hperm.
  - apply Permutation_sym, Permutation_nil in Hperm. discriminate Hperm.
  - inversion Hshape; inversion Hshape'; congruence.
Qed.

End SampleOrderFacts.

(** X26: the order of the samples does not matter.  In exact arithmetic, for
    a feature array whose rows have one length, the unweighted mean vector
    and covariance matrix are the same for every order of its rows. *)
Theorem moments_independent_of_sample_order (d : nat) (act act' : matrix Qc) :
  Forall (fun row => length row = d) act ->
  Permutation act act' ->
  activation_moments (Some act') None = activation_moments (Some act) None.
Proof.
  intros Hshape Hperm.
  destruct (Nat.eq_dec (nrows act) 1) as [Hone|Hmany].
  - destruct act as [|r [|r' act]]; try discriminate Hone.
    now apply Permutation_length_1_inv in Hperm as ->.
  - assert (Hmany' : nrows act' <> 1%nat).
    { unfold nrows in *. now rewrite <- (Permutation_length Hperm). }
    unfold activation_moments.
    rewrite (@np_cov_by_samples act Hmany), (@np_cov_by_samples act' Hmany').
    rewrite !np_mean_by_samples, (@ncols_Permutation d act act' Hshape Hperm).
    cbn [rbind]. do 2 f_equal.
    + apply map_ext. intros j. now apply sample_mean_Permutation.
    + apply map_ext. intros i. apply map_ext. intros j.
      rewrite (@sample_products_Permutation act act' i j Hperm). unfold nrows.
      now rewrite (Permutation_length Hperm).
Qed.

(** Three samples of two features, and the same samples with the last one
    first. *)
Lemma moments_independent_of_sample_order_witness :
  activation_moments
    (Some (map (map (@of_Z Qc exact)) [[5; 6]; [1; 2]; [3; 4]]%Z)) None
  = activation_moments
      (Some (map (map (@of_Z Qc exact)) [[1; 2]; [3; 4]; [5; 6]]%Z)) None.
Proof.
  apply (@moments_independent_of_sample_order 2).
  - repeat constructor.
  - cbn [map]. apply Permutation_sym, Permutation_cons_append.
Defined.
